(* ===== verification/_CoqProject ===== *)
-Q . S2P
Prelude.v
Weapons.v
Ecs.v
Spawn.v
EcsSpec.v
Rune.v
Scope.v
Bridge.v
Script.v
RuneContext.v
App.v
Startup.v
Pipeline.v
Schedule.v
