(* ===== verification/Prelude.v ===== *)
(** * weapon-and-rune: a verification development

    The program (src/src/) loads a Rune script, runs its [main] entry point,
    decodes the returned array into [Weapon] values and materialises each of
    them as a Bevy entity carrying only the components the script configured;
    a periodic system then queries the entities.

    ** Parts of the program and how they interact
    - weapons.rs: the Bevy components ([WeaponId], [Level], [MagicLevel],
      [Mana], [WandDamageRange], [DistanceBreakChance], the three variant
      markers), the builder [Weapon] with three constructors and five fluent
      setters, the Rune [module()] registering them, and
      [WeaponCommand::spawn_weapon] / [InsertIfSome::insert_if_some], which
      turn a [Weapon] into queued spawn/insert commands.
    - rune_context.rs: [RuneContext::new] (default context, module install,
      compilation with diagnostics, emission to stderr, runtime) and
      [RuneContext::vm].
    - main.rs: the [startup] system (sources, context, VM, [execute(["main"])],
      [from_value::<Vec<Weapon>>], the [spawn_weapon] loop, the resource), the
      [update] query pass, [handle_error], the entry script of
      [create_sources], and the [App] of [main]: the [Startup] schedule once,
      then the [Update] schedule every frame.
    Script calls reach [Weapon] through the bridge's native functions; the
    VM's output is decoded into weapons; [spawn_weapon] queues commands that
    Bevy applies to the world after [startup]; [update] reads the world.

    ** Files (in dependency order) and what they model
    - [Prelude] (this file): Rust's [Result] as [result] with the [let?]
      notation for [?], [u32] as [Z] with [is_u32], Rune's [i64] range
      [is_i64], [last_write] (the value a
      slot holds after a series of optional writes), the tactic [inv_rbind],
      the hint databases [wr], [lookup_map_Some] (Stdlib's [map] under
      stdpp's list lookup).
    - [Weapons] (weapons.rs 1-34, 53-127): components as records, [Weapon]
      as a record with the source's field names, [impl Weapon] as
      [Module Weapon] ([Weapon.new_wand], [Weapon.level], ...).  A chain of
      calls is [build_chain k i cs]; its abstract specification [build_spec]
      says each slot holds the last write.  Invariant [weapon_wf]: one
      variant marker, every number a [u32].
    - [Ecs] (library model of Bevy, from the spec's ECS capability): [World]
      (per-entity map from component type to record, allocator, resource),
      [Commands] (reservation cursor and queue), [spawn], [insert],
      [insert_resource], [apply_commands] (flush reserved ids, run the queue;
      an insert on a missing entity panics, [None]), [query].  Invariants
      [world_wf] and [commands_wf]; applying a well-formed buffer never panics.
    - [Spawn] (weapons.rs 129-165, main.rs 33-36): [insert_if_some],
      [spawn_weapon], the traits [InsertIfSome] and [WeaponCommand] as
      classes with their [impl]s as instances, the loop [spawn_all]
      (through the trait); the specification
      [weapon_component] of a materialised entity.
    - [EcsSpec]: the spec's ECS capability as the type classes [EcsCap]
      (spawn, insert, read) and [EcsLaws] (what they promise); the program's
      materialisation written against it ([spawn_bundle], [spawn_all_now]);
      the world with immediate operations as an instance ([World_laws]).
    - [Rune] (library model of Rune): values with [Any] objects in a heap of
      cells that a by-value use empties (move semantics), modules and
      contexts with conflict detection, a script syntax fragment, [build]
      with diagnostics (parse errors, unknown paths, unbound locals,
      duplicate functions, number literals outside [i64]; unused-expression
      warnings), the VM [eval] with fuel, [type_of] (the type of an [Any]
      value is read through its cell, so a moved object is an access
      error), [execute], [complete], [from_value_weapons].  The interface
      [native_spec P] states what a native function promises the VM (it
      preserves a heap invariant [P]); the Section [VmInvariant] proves,
      against it, that evaluation preserves [P].
    - [Scope]: soundness of the compiler's scope check ([check_expr]) for
      the VM: a unit that compiled never faults with [MissingLocal] or
      [MissingFunction] ([eval_scope_safe], Section [ScopeSafety]).
    - [Bridge] (weapons.rs 36-51 and the [#[rune::function]] attributes):
      the glue of each function (argument count, [u32] conversion, move of
      [self], fresh result object), [module], and the heap invariant
      [heap_wf]; [weapon_fns_spec] discharges [native_spec heap_wf] and
      [weapon_fns_scope_safe] the hypothesis of [Scope].
    - [Script]: fluent chains [Weapon::new_<k>(i).c1(..)...] as script
      expressions ([chain_expr]) and their evaluation through the VM, the
      method lookup by the receiver's type and the glue; [heap_ext] (a heap
      that only allocated past another and kept its cells) frames a chain's
      effect on the heap.
    - [RuneContext] (rune_context.rs): [new] with the order "collect
      diagnostics, emit them, then inspect the result", [vm].  The stderr
      writer is the parameter [stderr_ok]; what it prints is a log.  The spec's state machine is
      the inductive [ctx_step] on [ContextState], with [reachable] its
      reflexive-transitive closure from [Uninitialized]; its first step
      is the spec's context (the base context with the bridge's type and
      functions), written out rather than computed by [setup_context].
    - [App] (main.rs): [run_main] (main.rs 26-33: VM, run, decoding),
      [startup_from] (startup for given sources; [script_run] is what it
      computes before queuing commands),
      [startup] (on [create_sources]), [handle_error], [run_startup] (the
      [Startup] schedule: system, piped handler, command application),
      [update] as a list of [Report]s.
    - [Startup]: the boundary and error inputs of [startup_from]: a unit
      without [main] or whose [main] takes parameters, an empty array, an
      array that lists one object twice, and termination on native-only
      scripts.
    - [Pipeline]: [startup_from] end to end on the scripts the program is
      written for, [main] returning an array of fluent chains ([Chain],
      [chains_sources]): compilation without diagnostics, evaluation of the
      array element by element (distinct fresh objects, [eval_chains]),
      decoding, spawn loop and resource.
    - [Schedule] (main.rs 10-17): the [App] loop as the step relation
      [app_step] on configurations (state of the app, printed [Output]s):
      [Startup] once ([startup_schedule]), then one [Update] per frame; a
      failed startup is logged and the frames go on, a panic stops.

    ** Theorems (claims C1-C30, see PROJECT.json)
    - startup end to end: for every script a successful startup
      materialises one entity per decoded weapon, in order, with exactly
      that weapon's records and one variant marker (C1); the spawn loop
      materialises exactly the present attributes (C2); every failing
      startup leaves the world unchanged (C3);
    - builder: refinement of the chain by [build_spec] (C4), presence iff
      written (C5), one variant marker (C6), invariant (C13), commutation
      and overwrite of setters (C14);
    - bridge: a setter consumes its receiver, so a second call on the
      moved reference is an access error through the VM (C7); out-of-range
      ids are rejected (C8); installing the module twice, or into a context
      with one of its paths, is a conflict error (C23);
    - context: compile failure (C9), success (C10), stderr failure (C11),
      and [new] refines the spec's Uninitialized/Compiling/Ready/
      CompileFailed machine on every input (C15); the VM of every context
      [new] returns never faults with an unbound local or unknown function
      (C16, soundness of the compiler's static check);
    - [update] reports exactly the marked entities (C12); each frame prints
      the wands, then the melee weapons, then the distance weapons (C22);
    - the app never panics, runs forever and prints every weapon the
      script returned in every frame (C17, liveness by an invariant of the
      step relation); after a failed startup it logs the error and keeps
      running on the unchanged world (C27);
    - ECS: the deferred command buffer of the spawn loop gives, on every
      world, exactly the world of the immediate operations (C18);
    - startup on edge inputs: a non-array output or non-object elements
      (C19), a missing or parameterised [main] (C24), an empty array, which
      succeeds and spawns nothing (C25), and an array listing one object
      twice (C26);
    - scripts: a fluent chain evaluated by the VM builds exactly the Rust
      builder's weapon (C20, refinement across the VM, the bridge and the
      builder); a number outside [u32] fails it with the first such number
      in evaluation order (C21); for every array of fluent chains with
      [u32] numbers, startup spawns, in order, exactly the weapons the Rust
      builder builds (C28, refinement from the script text to the world);
      an [i64] number outside [u32] fails startup with the first such
      number and spawns none of the array (C29); a literal outside [i64] is
      a compile error reported before any code runs (C30).

    ** Bounds and fuel
    Numbers of the script are [Z]: the compiler admits number literals in
    Rune's [i64] range ([is_i64]), and the bridge admits exactly
    [0 <= z < 2^32] ([is_u32]), as [u32: FromValue] does.  The VM's fuel
    decreases at every evaluation step and running out is the error
    [OutOfFuel], which no theorem hides: a success is stated with the fuel
    it needs.  [startup_fuel] (24) is the size of the entry script's body,
    and for an array of chains the need is one step for the array plus two
    for the longest chain's constructor call and one per fluent call
    ([chains_fuel], C28).  The real VM has no fuel: a theorem that
    concludes an outcome of a run assumes the fuel that run needs, and the
    failures decided before the VM runs hold for every fuel.

    ** Not modelled
    The Rune parser (a source carries its syntax tree, or [None] for a syntax
    error), the functions of Rune's standard modules, Rune's instruction set
    and call stack, Bevy's archetypes, entity generations, query iteration
    order (queries list entities by index), despawning, the frame timing of
    [MinimalPlugins], and the text printed to the console (only the printed
    data, [LogEvent]s and [Report]s, is kept).
*)

From stdpp Require Export base list gmap.
From Stdlib Require Export ZArith Lia.

Declare Scope wr_scope.
Delimit Scope wr_scope with wr.
Open Scope Z_scope.

(** ** Rust's [Result<T, E>] *)

Inductive result (A E : Type) : Type :=
  | Ok (a : A)
  | Err (e : E).
Arguments Ok {A E} a.
Arguments Err {A E} e.

(** The [?] operator: propagate an error, continue with the value. *)
Definition rbind {A B E} (c : result A E) (k : A -> result B E) : result B E :=
  match c with
  | Ok a => k a
  | Err e => Err e
  end.

(** [map_err]: the [?] operator also converts the error ([From] into
    [anyhow::Error]); [map_err] makes the conversion explicit. *)
Definition map_err {A E F} (f : E -> F) (c : result A E) : result A F :=
  match c with
  | Ok a => Ok a
  | Err e => Err (f e)
  end.

Notation "'let?' x ':=' c 'in' k" := (rbind c (fun x => k))
  (at level 10, x name, c at level 100, k at level 200) : wr_scope.
Notation "'let?' ' p ':=' c 'in' k" := (rbind c (fun x => match x with p => k end))
  (at level 10, p pattern, c at level 100, k at level 200) : wr_scope.

Open Scope wr_scope.

Definition is_ok {A E} (r : result A E) : bool :=
  match r with Ok _ => true | Err _ => false end.

Lemma rbind_Ok_inv {A B E} (c : result A E) (k : A -> result B E) b :
  rbind c k = Ok b -> exists a, c = Ok a /\ k a = Ok b.
Proof. destruct c; simpl; [eauto | discriminate]. Qed.

Lemma rbind_Err_inv {A B E} (c : result A E) (k : A -> result B E) e :
  rbind c k = Err e -> c = Err e \/ exists a, c = Ok a /\ k a = Err e.
Proof. destruct c; simpl; [eauto | intros [= ->]; auto]. Qed.

Lemma rbind_Ok {A B E} (a : A) (k : A -> result B E) : rbind (Ok a) k = k a.
Proof. reflexivity. Qed.

Lemma rbind_Err {A B E} (e : E) (k : A -> result B E) : rbind (Err e) k = Err e.
Proof. reflexivity. Qed.

(** ** Unsigned 32-bit integers

    Rust's [u32] is a [Z] together with the range [0 <= z < 2^32]; the Rune
    side passes [i64] integers and converts them with a range check. *)

Definition u32_modulus : Z := 2 ^ 32.

Definition is_u32 (z : Z) : bool := (0 <=? z) && (z <? u32_modulus).

Lemma is_u32_spec z : is_u32 z = true <-> 0 <= z < u32_modulus.
Proof. unfold is_u32. rewrite andb_true_iff, Z.leb_le, Z.ltb_lt. tauto. Qed.

(** Rune's integers are [i64]: the range of a number literal. *)
Definition i64_min : Z := - 2 ^ 63.
Definition i64_max : Z := 2 ^ 63 - 1.
Definition is_i64 (z : Z) : bool := (i64_min <=? z) && (z <=? i64_max).

Lemma is_i64_spec z : is_i64 z = true <-> i64_min <= z <= i64_max.
Proof. unfold is_i64. rewrite andb_true_iff, Z.leb_le, Z.leb_le. done. Qed.

(** A [u32] is an [i64]. *)
Lemma is_u32_i64 z : is_u32 z = true -> is_i64 z = true.
Proof.
  intros Hz%is_u32_spec. apply is_i64_spec. unfold u32_modulus, i64_min, i64_max in *. lia.
Qed.

(** An optional slot, when present, satisfies [p]. *)
Definition opt_all {A} (p : A -> bool) (o : option A) : bool :=
  match o with Some a => p a | None => true end.

(** The last [Some] of a sequence of optional writes, starting from [init]:
    the value a slot holds after a series of assignments, some of which do
    not touch it. *)
Definition last_write {A} (init : option A) (l : list (option A)) : option A :=
  fold_left (fun acc o => match o with Some a => Some a | None => acc end) l init.

Lemma last_write_app {A} (init : option A) l1 l2 :
  last_write init (l1 ++ l2) = last_write (last_write init l1) l2.
Proof. unfold last_write. apply fold_left_app. Qed.

Lemma last_write_Some {A} (init : option A) l a :
  last_write init (l ++ [Some a]) = Some a.
Proof. rewrite last_write_app. reflexivity. Qed.

Lemma last_write_None {A} (init : option A) l :
  last_write init (l ++ [None]) = last_write init l.
Proof. rewrite last_write_app. reflexivity. Qed.

(** Stdlib's [map] and stdpp's list lookup. *)
Lemma lookup_map_Some {A B} (f : A -> B) (l : list A) j x :
  l !! j = Some x -> map f l !! j = Some (f x).
Proof. revert j; induction l as [|y l IH]; intros [|j]; simpl; congruence || apply IH. Qed.

(** ** Shared tactics and hints *)

Create HintDb wr discriminated.
Create Rewrite HintDb wr.
#[export] Hint Rewrite @rbind_Ok @rbind_Err @last_write_Some @last_write_None : wr.

(** Split a hypothesis [rbind c k = Ok b] into its two steps. *)
Ltac inv_rbind :=
  repeat match goal with
  | H : rbind ?c _ = Ok _ |- _ =>
      let a := fresh "a" in let Hc := fresh "Hc" in
      apply rbind_Ok_inv in H as (a & Hc & H);
      lazymatch type of a with
      | (_ * _)%type => destruct a; cbn beta iota in H
      | _ => idtac
      end
  end.

(** Close a boolean range goal on [u32]. *)
Ltac solve_u32 :=
  repeat match goal with
  | H : is_u32 _ = true |- _ => apply is_u32_spec in H
  end;
  try (apply is_u32_spec); unfold u32_modulus in *; lia.
