(* ===== verification/Weapons.v ===== *)
(** * Weapons: the domain object model of weapons.rs (lines 1-127)

    The Bevy components as records ([Level] is the tuple struct [Level(u32)],
    its field [.0] is [level_0]), the builder struct [Weapon] with the
    source's field names, and the [impl Weapon] block as [Module Weapon]:
    [Weapon.new_wand], [Weapon.new_distance], [Weapon.new_melee] and the five
    fluent setters.  A [u32] is a [Z]; the range is an invariant
    ([weapon_wf]) established by the Rune bridge, which converts the script's
    [i64] arguments with a range check (file [Bridge]).

    Theorems: every constructor yields exactly one variant marker, every
    setter keeps it; a chain of setters after a constructor equals the
    abstract builder [build_spec], in which each attribute is the argument of
    the last call that sets it. *)

From S2P Require Import Prelude.

(** ** Components (weapons.rs 4-34) *)

Record WeaponId := MkWeaponId { weapon_id : Z }.
Record Level := MkLevel { level_0 : Z }.
Record MagicLevel := MkMagicLevel { magic_level_0 : Z }.
Record Mana := MkMana { mana_0 : Z }.
Record WandDamageRange := MkWandDamageRange { min : Z; max : Z }.
Record DistanceBreakChance := MkDistanceBreakChance { break_chance_0 : Z }.
Variant WandWeapon := MkWandWeapon.
Variant MeleeWeapon := MkMeleeWeapon.
Variant DistanceWeapon := MkDistanceWeapon.

(** ** The builder struct (weapons.rs 53-65) *)

Record Weapon := MkWeapon {
  id : Z;
  wand : option WandWeapon;
  distance : option DistanceWeapon;
  melee : option MeleeWeapon;
  level : option Level;
  magic_level : option MagicLevel;
  mana : option Mana;
  damage_range : option WandDamageRange;
  break_chance : option DistanceBreakChance
}.

#[export] Instance WeaponId_eq_dec : EqDecision WeaponId.
Proof. solve_decision. Defined.
#[export] Instance Level_eq_dec : EqDecision Level.
Proof. solve_decision. Defined.
#[export] Instance MagicLevel_eq_dec : EqDecision MagicLevel.
Proof. solve_decision. Defined.
#[export] Instance Mana_eq_dec : EqDecision Mana.
Proof. solve_decision. Defined.
#[export] Instance WandDamageRange_eq_dec : EqDecision WandDamageRange.
Proof. solve_decision. Defined.
#[export] Instance DistanceBreakChance_eq_dec : EqDecision DistanceBreakChance.
Proof. solve_decision. Defined.
#[export] Instance WandWeapon_eq_dec : EqDecision WandWeapon.
Proof. solve_decision. Defined.
#[export] Instance MeleeWeapon_eq_dec : EqDecision MeleeWeapon.
Proof. solve_decision. Defined.
#[export] Instance DistanceWeapon_eq_dec : EqDecision DistanceWeapon.
Proof. solve_decision. Defined.
#[export] Instance Weapon_eq_dec : EqDecision Weapon.
Proof. solve_decision. Defined.

(** [#[derive(Default)]]: id 0 and every slot empty. *)
Definition Weapon_default : Weapon :=
  {| id := 0; wand := None; distance := None; melee := None; level := None;
     magic_level := None; mana := None; damage_range := None; break_chance := None |}.

(** ** [impl Weapon] (weapons.rs 67-127) *)

Module Weapon.

(** [Self { id, wand: Some(WandWeapon), ..Default::default() }]: the
    named fields, the others taken from [Weapon_default]. *)
Definition new_wand (i : Z) : Weapon :=
  let d := Weapon_default in
  {| id := i; wand := Some MkWandWeapon; distance := d.(distance);
     melee := d.(melee); level := d.(level); magic_level := d.(magic_level);
     mana := d.(mana); damage_range := d.(damage_range);
     break_chance := d.(break_chance) |}.

Definition new_distance (i : Z) : Weapon :=
  let d := Weapon_default in
  {| id := i; wand := d.(wand); distance := Some MkDistanceWeapon;
     melee := d.(melee); level := d.(level); magic_level := d.(magic_level);
     mana := d.(mana); damage_range := d.(damage_range);
     break_chance := d.(break_chance) |}.

Definition new_melee (i : Z) : Weapon :=
  let d := Weapon_default in
  {| id := i; wand := d.(wand); distance := d.(distance);
     melee := Some MkMeleeWeapon; level := d.(level);
     magic_level := d.(magic_level); mana := d.(mana);
     damage_range := d.(damage_range); break_chance := d.(break_chance) |}.

(** [fn level(mut self, value: u32) -> Self { self.level = Some(Level(value)); self }]:
    the setters take [self] apart and rebuild it with one slot replaced. *)
Definition level (self : Weapon) (value : Z) : Weapon :=
  let 'MkWeapon i wa di me _ ml mn dr bc := self in
  MkWeapon i wa di me (Some (MkLevel value)) ml mn dr bc.

Definition magic_level (self : Weapon) (value : Z) : Weapon :=
  let 'MkWeapon i wa di me lv _ mn dr bc := self in
  MkWeapon i wa di me lv (Some (MkMagicLevel value)) mn dr bc.

Definition mana (self : Weapon) (value : Z) : Weapon :=
  let 'MkWeapon i wa di me lv ml _ dr bc := self in
  MkWeapon i wa di me lv ml (Some (MkMana value)) dr bc.

Definition damage_range (self : Weapon) (value_min value_max : Z) : Weapon :=
  let 'MkWeapon i wa di me lv ml mn _ bc := self in
  MkWeapon i wa di me lv ml mn
    (Some {| min := value_min; max := value_max |}) bc.

Definition break_chance (self : Weapon) (value : Z) : Weapon :=
  let 'MkWeapon i wa di me lv ml mn dr _ := self in
  MkWeapon i wa di me lv ml mn dr (Some (MkDistanceBreakChance value)).

End Weapon.

(** ** The variant, the invariant and the builder chain *)

Inductive WeaponKind := Wand | Melee | Distance.
#[export] Instance WeaponKind_eq_dec : EqDecision WeaponKind.
Proof. solve_decision. Defined.

(** The variant markers a weapon carries, in field order. *)
Definition variant_markers (w : Weapon) : list WeaponKind :=
  match wand w with Some _ => [Wand] | None => [] end ++
  match distance w with Some _ => [Distance] | None => [] end ++
  match melee w with Some _ => [Melee] | None => [] end.

(** The type invariant of a [Weapon] reachable from a script: exactly one
    variant marker, and every number is a [u32]. *)
Definition weapon_wf (w : Weapon) : bool :=
  (length (variant_markers w) =? 1)%nat && is_u32 (id w)
  && opt_all (fun l => is_u32 (level_0 l)) (level w)
  && opt_all (fun l => is_u32 (magic_level_0 l)) (magic_level w)
  && opt_all (fun l => is_u32 (mana_0 l)) (mana w)
  && opt_all (fun r => is_u32 (min r) && is_u32 (max r)) (damage_range w)
  && opt_all (fun b => is_u32 (break_chance_0 b)) (break_chance w).

(** The constructor a script path selects. *)
Definition new_of (k : WeaponKind) : Z -> Weapon :=
  match k with
  | Wand => Weapon.new_wand
  | Melee => Weapon.new_melee
  | Distance => Weapon.new_distance
  end.

(** One fluent call of a script chain, [.level(v)], [.damage_range(a, b)], ... *)
Inductive config :=
  | SetLevel (v : Z)
  | SetMagicLevel (v : Z)
  | SetMana (v : Z)
  | SetDamageRange (value_min value_max : Z)
  | SetBreakChance (v : Z).

Definition apply_config (w : Weapon) (c : config) : Weapon :=
  match c with
  | SetLevel v => Weapon.level w v
  | SetMagicLevel v => Weapon.magic_level w v
  | SetMana v => Weapon.mana w v
  | SetDamageRange a b => Weapon.damage_range w a b
  | SetBreakChance v => Weapon.break_chance w v
  end.

Definition config_wf (c : config) : bool :=
  match c with
  | SetLevel v | SetMagicLevel v | SetMana v | SetBreakChance v => is_u32 v
  | SetDamageRange a b => is_u32 a && is_u32 b
  end.

(** [Weapon::new_<k>(i).c1(..).c2(..)...] *)
Definition build_chain (k : WeaponKind) (i : Z) (cs : list config) : Weapon :=
  fold_left apply_config cs (new_of k i).

(** What each call writes into each slot. *)
Definition config_level (c : config) : option Level :=
  match c with SetLevel v => Some (MkLevel v) | _ => None end.
Definition config_magic_level (c : config) : option MagicLevel :=
  match c with SetMagicLevel v => Some (MkMagicLevel v) | _ => None end.
Definition config_mana (c : config) : option Mana :=
  match c with SetMana v => Some (MkMana v) | _ => None end.
Definition config_damage_range (c : config) : option WandDamageRange :=
  match c with SetDamageRange a b => Some (MkWandDamageRange a b) | _ => None end.
Definition config_break_chance (c : config) : option DistanceBreakChance :=
  match c with SetBreakChance v => Some (MkDistanceBreakChance v) | _ => None end.

(** The abstract builder: the variant slot of [k] and the id are set, and
    every attribute slot holds what the last call that writes it wrote. *)
Definition build_from (w : Weapon) (cs : list config) : Weapon :=
  {| id := id w; wand := wand w; distance := distance w; melee := melee w;
     level := last_write (level w) (map config_level cs);
     magic_level := last_write (magic_level w) (map config_magic_level cs);
     mana := last_write (mana w) (map config_mana cs);
     damage_range := last_write (damage_range w) (map config_damage_range cs);
     break_chance := last_write (break_chance w) (map config_break_chance cs) |}.

Definition build_spec (k : WeaponKind) (i : Z) (cs : list config) : Weapon :=
  build_from (new_of k i) cs.

(** The attribute slot a call writes. *)
Inductive slot := SLevel | SMagicLevel | SMana | SDamageRange | SBreakChance.
#[export] Instance slot_eq_dec : EqDecision slot.
Proof. solve_decision. Defined.

Definition config_slot (c : config) : slot :=
  match c with
  | SetLevel _ => SLevel | SetMagicLevel _ => SMagicLevel | SetMana _ => SMana
  | SetDamageRange _ _ => SDamageRange | SetBreakChance _ => SBreakChance
  end.

(** Whether the attribute slot [s] of [w] is filled. *)
Definition slot_present (w : Weapon) (s : slot) : bool :=
  match s with
  | SLevel => bool_decide (is_Some (level w))
  | SMagicLevel => bool_decide (is_Some (magic_level w))
  | SMana => bool_decide (is_Some (mana w))
  | SDamageRange => bool_decide (is_Some (damage_range w))
  | SBreakChance => bool_decide (is_Some (break_chance w))
  end.

(** ** Lemmas *)

Lemma build_from_nil w : build_from w [] = w.
Proof. by destruct w. Qed.

Lemma build_from_cons w c cs :
  build_from w (c :: cs) = build_from (apply_config w c) cs.
Proof. by destruct w, c. Qed.

Lemma fold_apply_config w cs : fold_left apply_config cs w = build_from w cs.
Proof.
  revert w; induction cs as [|c cs IH]; intros w; simpl.
  - by rewrite build_from_nil.
  - by rewrite IH, build_from_cons.
Qed.

Lemma last_write_is_Some {A} (init : option A) l :
  is_Some (last_write init l) <-> is_Some init \/ Exists is_Some l.
Proof.
  revert init; induction l as [|[a|] l IH]; intros init; simpl.
  - rewrite Exists_nil. tauto.
  - rewrite IH, Exists_cons. split; [intros [?|?]; auto | intros _; by left].
  - rewrite IH, Exists_cons. split; [intros [?|?]; auto | intros [?|[[? ?]|?]]; auto; discriminate].
Qed.

Lemma new_of_variant k i : variant_markers (new_of k i) = [k].
Proof. by destruct k. Qed.

Lemma new_of_slots k i s : slot_present (new_of k i) s = false.
Proof. by destruct k, s. Qed.

Lemma apply_config_wf w c :
  config_wf c = true -> weapon_wf w = true -> weapon_wf (apply_config w c) = true.
Proof.
  destruct w, c; unfold weapon_wf; simpl; rewrite !andb_true_iff; intuition.
Qed.

Lemma new_of_wf k i : is_u32 i = true -> weapon_wf (new_of k i) = true.
Proof. intros H. destruct k; unfold weapon_wf; simpl; by rewrite H. Qed.

Lemma config_slot_present w c s :
  slot_present (apply_config w c) s =
  if decide (config_slot c = s) then true else slot_present w s.
Proof. destruct w, c, s; reflexivity. Qed.

#[export] Hint Resolve apply_config_wf new_of_wf : wr.
#[export] Hint Rewrite fold_apply_config build_from_nil : wr.

(** ** Theorems *)

(** C4: a constructor followed by a chain of fluent setters yields the
    abstract builder: the constructor's id and variant, and in each
    attribute slot the value of the last call that writes it (absent when
    no call writes it). *)
Theorem build_correct k i cs : build_chain k i cs = build_spec k i cs.
Proof. unfold build_chain, build_spec. apply fold_apply_config. Qed.

(** C6: whatever chain of setters follows it, a constructor fixes exactly
    one variant marker, its own, and the id it was given. *)
Theorem build_variant k i cs :
  variant_markers (build_chain k i cs) = [k] /\ id (build_chain k i cs) = i.
Proof.
  unfold build_chain. rewrite fold_apply_config.
  split; [|by destruct k]. rewrite <- (new_of_variant k i). by destruct k.
Qed.

Lemma fold_slot_present w cs s :
  slot_present (fold_left apply_config cs w) s =
  slot_present w s || existsb (fun c => bool_decide (config_slot c = s)) cs.
Proof.
  revert w; induction cs as [|c cs IH]; intros w; simpl.
  - by rewrite orb_false_r.
  - rewrite IH, config_slot_present.
    destruct (decide (config_slot c = s));
      rewrite ?bool_decide_true, ?bool_decide_false by done;
      by destruct (slot_present w s).
Qed.

(** C5: an attribute slot of a built weapon is filled if and only if some
    call of the chain writes it (no spurious and no missing attribute). *)
Theorem build_slot_present k i cs s :
  slot_present (build_chain k i cs) s = existsb (fun c => bool_decide (config_slot c = s)) cs.
Proof. unfold build_chain. by rewrite fold_slot_present, new_of_slots. Qed.

(** C13: a weapon built from [u32] arguments satisfies the invariant: one
    variant marker and every number in range. *)
Theorem build_wf k i cs :
  is_u32 i = true -> Forall (fun c => config_wf c = true) cs ->
  weapon_wf (build_chain k i cs) = true.
Proof.
  intros Hi Hcs. unfold build_chain. generalize (new_of_wf k i Hi).
  generalize (new_of k i). induction Hcs; simpl; eauto with wr.
Qed.

(** C14: two setters that write different attributes commute, and of two
    setters that write the same attribute the second wins: the order of
    the calls of a chain matters only between calls on the same slot. *)
Theorem apply_config_order w c1 c2 :
  apply_config (apply_config w c1) c2 =
  if decide (config_slot c1 = config_slot c2) then apply_config w c2
  else apply_config (apply_config w c2) c1.
Proof. by destruct w, c1, c2. Qed.

(** ** Witnesses *)

Definition staff_chain : list config := [SetLevel 30; SetDamageRange 20 30].

Lemma build_wf_witness :
  is_u32 1 = true /\ Forall (fun c => config_wf c = true) staff_chain /\
  weapon_wf (build_chain Wand 1 staff_chain) = true.
Proof.
  split; [reflexivity|]. split; [repeat constructor|].
  apply build_wf; [reflexivity | repeat constructor].
Defined.

Example build_staff :
  build_chain Wand 1 staff_chain =
  {| id := 1; wand := Some MkWandWeapon; distance := None; melee := None;
     level := Some (MkLevel 30); magic_level := None; mana := None;
     damage_range := Some (MkWandDamageRange 20 30); break_chance := None |}.
Proof. reflexivity. Qed.
