(* ===== verification/Ecs.v ===== *)
(** * Ecs: the part of Bevy the program uses, as the spec's ECS capability

    The spec (section 6) treats the ECS storage as a capability: spawn an
    entity, attach typed records, query them.  The program reaches it through
    Bevy's deferred [Commands]: [Commands::spawn] reserves an entity id at
    once and queues an insert of its bundle, [EntityCommands::insert] queues
    an insert, [Commands::insert_resource] queues a resource write, and the
    queue is applied to the [World] after the system has returned.  An
    insert replaces the record of the same component type; an insert on an
    entity that does not exist panics ([None] here).

    - [Entity] is the index of an entity (generations are never reused:
      there is no despawn in the program);
    - a [Component] is one record of the types weapons.rs derives
      [Component] for; [component_id] is its type; the trait bound
      [T: Component] of [insert_if_some] is the class [IsComponent];
    - [World R] stores, per entity, a finite map from component type to
      record, the allocator's next index, and the resource of type [R];
    - [Commands R] is the allocator cursor and the queue of [Command]s.

    Query order: Bevy iterates archetype tables; the spec promises no order,
    and [query] lists entities by ascending index. *)

From S2P Require Import Prelude Weapons.

Local Open Scope nat_scope.

Abbreviation Entity := nat (only parsing).

(** ** Components and their types *)

Inductive ComponentId :=
  | IdWeaponId | IdWand | IdDistance | IdMelee | IdLevel | IdMagicLevel
  | IdMana | IdDamageRange | IdBreakChance.

#[export] Instance ComponentId_eq_dec : EqDecision ComponentId.
Proof. solve_decision. Defined.

Definition ComponentId_to_nat (k : ComponentId) : nat :=
  match k with
  | IdWeaponId => 0 | IdWand => 1 | IdDistance => 2 | IdMelee => 3
  | IdLevel => 4 | IdMagicLevel => 5 | IdMana => 6 | IdDamageRange => 7
  | IdBreakChance => 8
  end.

Definition ComponentId_of_nat (n : nat) : option ComponentId :=
  match n with
  | 0 => Some IdWeaponId | 1 => Some IdWand | 2 => Some IdDistance
  | 3 => Some IdMelee | 4 => Some IdLevel | 5 => Some IdMagicLevel
  | 6 => Some IdMana | 7 => Some IdDamageRange | 8 => Some IdBreakChance
  | _ => None
  end%nat.

#[export] Instance ComponentId_countable : Countable ComponentId.
Proof. apply (inj_countable ComponentId_to_nat ComponentId_of_nat). by intros []. Defined.

Inductive Component :=
  | CWeaponId (c : WeaponId)
  | CWand (c : WandWeapon)
  | CDistance (c : DistanceWeapon)
  | CMelee (c : MeleeWeapon)
  | CLevel (c : Level)
  | CMagicLevel (c : MagicLevel)
  | CMana (c : Mana)
  | CDamageRange (c : WandDamageRange)
  | CBreakChance (c : DistanceBreakChance).

#[export] Instance Component_eq_dec : EqDecision Component.
Proof. solve_decision. Defined.

Definition component_id (c : Component) : ComponentId :=
  match c with
  | CWeaponId _ => IdWeaponId | CWand _ => IdWand | CDistance _ => IdDistance
  | CMelee _ => IdMelee | CLevel _ => IdLevel | CMagicLevel _ => IdMagicLevel
  | CMana _ => IdMana | CDamageRange _ => IdDamageRange
  | CBreakChance _ => IdBreakChance
  end.

(** [#[derive(Component)]]: a Rust type usable as a component. *)
Class IsComponent (T : Type) := to_component : T -> Component.

#[export] Instance WeaponId_component : IsComponent WeaponId := CWeaponId.
#[export] Instance WandWeapon_component : IsComponent WandWeapon := CWand.
#[export] Instance DistanceWeapon_component : IsComponent DistanceWeapon := CDistance.
#[export] Instance MeleeWeapon_component : IsComponent MeleeWeapon := CMelee.
#[export] Instance Level_component : IsComponent Level := CLevel.
#[export] Instance MagicLevel_component : IsComponent MagicLevel := CMagicLevel.
#[export] Instance Mana_component : IsComponent Mana := CMana.
#[export] Instance WandDamageRange_component : IsComponent WandDamageRange := CDamageRange.
#[export] Instance DistanceBreakChance_component : IsComponent DistanceBreakChance :=
  CBreakChance.

(** ** World, commands, application *)

Section Ecs.
Context {R : Type}.

Record World := MkWorld {
  entities : gmap Entity (gmap ComponentId Component);
  next_entity : Entity;
  resource : option R
}.

Inductive Command :=
  | CmdInsert (e : Entity) (c : Component)
  | CmdInsertResource (r : R).

Record Commands := MkCommands {
  cmd_next : Entity;
  cmd_queue : list Command
}.

Record EntityCommands := MkEntityCommands {
  ec_entity : Entity;
  ec_commands : Commands
}.

Definition empty_world : World := MkWorld ∅ 0 None.

(** The [Commands] a system receives: nothing queued, reservations start
    at the world's allocator. *)
Definition commands_of (w : World) : Commands := MkCommands (next_entity w) [].

Definition push (cmd : Command) (c : Commands) : Commands :=
  MkCommands (cmd_next c) (cmd_queue c ++ [cmd]).

(** [Entities::reserve_entity] *)
Definition spawn_empty (c : Commands) : EntityCommands :=
  MkEntityCommands (cmd_next c) (MkCommands (S (cmd_next c)) (cmd_queue c)).

(** [EntityCommands::insert] *)
Definition insert {T} `{IsComponent T} (ec : EntityCommands) (x : T) : EntityCommands :=
  MkEntityCommands (ec_entity ec)
    (push (CmdInsert (ec_entity ec) (to_component x)) (ec_commands ec)).

(** [Commands::spawn(bundle)] = [spawn_empty] then [insert(bundle)]. *)
Definition spawn {T} `{IsComponent T} (c : Commands) (x : T) : EntityCommands :=
  insert (spawn_empty c) x.

Definition insert_resource (r : R) (c : Commands) : Commands :=
  push (CmdInsertResource r) c.

(** [World::flush]: the reserved ids become empty entities. *)
Fixpoint flush_from (start : Entity) (n : nat) (m : gmap Entity (gmap ComponentId Component)) :=
  match n with
  | O => m
  | S n' => flush_from (S start) n' (<[start := ∅]> m)
  end.

Definition flush (upto : Entity) (w : World) : World :=
  MkWorld (flush_from (next_entity w) (upto - next_entity w) (entities w))
    (Nat.max upto (next_entity w)) (resource w).

Definition apply_command (w : World) (cmd : Command) : option World :=
  match cmd with
  | CmdInsert e c =>
      match entities w !! e with
      | Some cs => Some (MkWorld (<[e := <[component_id c := c]> cs]> (entities w))
                           (next_entity w) (resource w))
      | None => None
      end
  | CmdInsertResource r => Some (MkWorld (entities w) (next_entity w) (Some r))
  end.

Fixpoint apply_queue (w : World) (q : list Command) : option World :=
  match q with
  | [] => Some w
  | cmd :: q' => match apply_command w cmd with
                 | Some w' => apply_queue w' q'
                 | None => None
                 end
  end.

(** [Commands::apply]: flush the reservations, then run the queue. *)
Definition apply_commands (c : Commands) (w : World) : option World :=
  apply_queue (flush (cmd_next c) w) (cmd_queue c).

(** [Query<(Entity, ...)>]: the entities that have every listed
    component type, with their records, by ascending index. *)
Definition query (ks : list ComponentId) (w : World) : list (Entity * list Component) :=
  omap (fun e => cs ← entities w !! e;
                 rs ← mapM (fun k => cs !! k) ks;
                 Some (e, rs))
    (seq 0 (next_entity w)).

End Ecs.

Arguments World : clear implicits.
Arguments Command : clear implicits.
Arguments Commands : clear implicits.
Arguments EntityCommands : clear implicits.

(** ** Invariants of the world and of a command buffer *)

Section EcsLemmas.
Context {R : Type}.
Implicit Types (w : World R) (c : Commands R) (q : list (Command R)).

(** The entities of a world are exactly the indices the allocator has
    handed out. *)
Definition world_wf w : Prop :=
  forall e, is_Some (entities w !! e) <-> e < next_entity w.

Definition cmd_target (cmd : Command R) : option Entity :=
  match cmd with CmdInsert e _ => Some e | CmdInsertResource _ => None end.

(** A command buffer of a system running on [w]: its cursor is past the
    world's allocator and every queued insert targets an index below it. *)
Definition commands_wf w c : Prop :=
  next_entity w <= cmd_next c /\
  Forall (fun cmd => forall e, cmd_target cmd = Some e -> e < cmd_next c) (cmd_queue c).

Lemma apply_queue_app w q1 q2 :
  apply_queue w (q1 ++ q2) = w' ← apply_queue w q1; apply_queue w' q2.
Proof.
  revert w; induction q1 as [|cmd q1 IH]; intros w; simpl; [done|].
  destruct (apply_command w cmd); [apply IH | done].
Qed.

Lemma flush_from_lookup start n m e :
  flush_from start n m !! e =
  if decide (start <= e < start + n) then Some ∅ else m !! e.
Proof.
  revert start m; induction n as [|n IH]; intros start m; cbn [flush_from].
  - destruct (decide _); [lia | done].
  - rewrite IH. destruct (decide (S start <= e < S start + n)),
      (decide (start <= e < start + S n)); try lia; try done.
    + assert (e = start) as -> by lia. by rewrite lookup_insert_eq.
    + by rewrite lookup_insert_ne by lia.
Qed.

Lemma flush_wf w upto : world_wf w -> world_wf (flush upto w).
Proof.
  intros Hw e. unfold flush; cbn [entities next_entity]. rewrite flush_from_lookup.
  destruct (decide _); [split; [lia | done] |]. rewrite (Hw e). lia.
Qed.

Lemma apply_command_wf w cmd w' :
  world_wf w -> apply_command w cmd = Some w' -> world_wf w'.
Proof.
  intros Hw. destruct cmd as [e comp | r]; simpl.
  - destruct (entities w !! e) as [cs|] eqn:He; intros [= <-]; intros e'; simpl.
    rewrite <- (Hw e'). destruct (decide (e = e')) as [<-|].
    + rewrite lookup_insert_eq. split; intros _; [eexists; exact He | by eexists].
    + by rewrite lookup_insert_ne.
  - intros [= <-]. apply Hw.
Qed.

Lemma apply_command_next w cmd w' :
  apply_command w cmd = Some w' -> next_entity w' = next_entity w.
Proof. destruct cmd; simpl; [destruct (_ !! _)|]; by intros [= <-]. Qed.

(** An insert on an existing entity never panics. *)
Lemma apply_queue_total w q :
  world_wf w ->
  Forall (fun cmd => forall e, cmd_target cmd = Some e -> e < next_entity w) q ->
  exists w', apply_queue w q = Some w' /\ world_wf w' /\ next_entity w' = next_entity w.
Proof.
  revert w; induction q as [|cmd q IH]; intros w Hw Hq; simpl; [eauto|].
  inversion Hq as [|? ? Hcmd Hq']; subst.
  destruct (apply_command w cmd) as [w1|] eqn:E.
  - destruct (IH w1) as (w' & ? & ? & Hn); eauto using apply_command_wf.
    + erewrite apply_command_next by eauto. done.
    + exists w'. split_and!; try done. rewrite Hn. eauto using apply_command_next.
  - exfalso. destruct cmd as [e comp|]; simpl in E; [|done].
    destruct (entities w !! e) eqn:He; [done|].
    specialize (Hcmd e eq_refl). apply Hw in Hcmd. rewrite He in Hcmd.
    by destruct Hcmd.
Qed.

Lemma flush_next w upto :
  next_entity w <= upto -> next_entity (flush upto w) = upto.
Proof. intros. simpl. lia. Qed.

(** Applying a well-formed command buffer never panics, and the world it
    yields is well formed with the buffer's cursor as allocator. *)
Lemma apply_commands_total w c :
  world_wf w -> commands_wf w c ->
  exists w', apply_commands c w = Some w' /\ world_wf w' /\ next_entity w' = cmd_next c.
Proof.
  intros Hw [Hle Hq]. unfold apply_commands.
  destruct (apply_queue_total (flush (cmd_next c) w) (cmd_queue c)) as (w' & ? & ? & Hn).
  - by apply flush_wf.
  - by rewrite flush_next.
  - exists w'. split_and!; try done. by rewrite Hn, flush_next.
Qed.

(** An entity handle of a buffer: a reserved index and a well-formed buffer. *)
Definition ec_wf w (ec : EntityCommands R) : Prop :=
  commands_wf w (ec_commands ec) /\ ec_entity ec < cmd_next (ec_commands ec).

Lemma spawn_empty_wf w c : commands_wf w c -> ec_wf w (spawn_empty c).
Proof.
  intros [Hle Hq]. split; [split|]; simpl; [lia| |lia].
  eapply Forall_impl; [exact Hq|]. intros cmd H e He. specialize (H e He). lia.
Qed.

Lemma insert_wf {T} `{IsComponent T} w ec (x : T) :
  ec_wf w ec -> ec_wf w (insert ec x).
Proof.
  intros [[Hle Hq] Hlt]. split; [split|]; simpl; try done.
  apply Forall_app; split; [done|]. constructor; [|done]. by intros e [= <-].
Qed.

Lemma insert_resource_wf w c r : commands_wf w c -> commands_wf w (insert_resource r c).
Proof.
  intros [Hle Hq]. split; [done|]. apply Forall_app; split; [done|].
  constructor; [|done]. by intros e.
Qed.

Lemma commands_of_wf w : commands_wf w (commands_of w).
Proof. split; simpl; [lia | constructor]. Qed.

(** A resource write queued last is applied after everything else. *)
Lemma apply_commands_insert_resource c w r :
  apply_commands (insert_resource r c) w =
  w' ← apply_commands c w; Some (MkWorld (entities w') (next_entity w') (Some r)).
Proof.
  unfold apply_commands, insert_resource, push. simpl. rewrite apply_queue_app.
  destruct (apply_queue _ _); reflexivity.
Qed.

(** An untouched command buffer leaves a well-formed world as it is. *)
Lemma apply_commands_of w : apply_commands (commands_of w) w = Some w.
Proof.
  destruct w as [ents n r]. unfold apply_commands, flush. simpl.
  by rewrite Nat.sub_diag, Nat.max_id.
Qed.

(** A query lists the entities below the allocator that have a record of
    every requested type, with those records in the requested order. *)
Lemma query_elem ks w e rs :
  (e, rs) ∈ query ks w <->
  e < next_entity w /\ exists cs, entities w !! e = Some cs /\ mapM (fun k => cs !! k) ks = Some rs.
Proof.
  unfold query. rewrite list_elem_of_omap. split.
  - intros (e' & Hin & H). apply elem_of_seq in Hin.
    destruct (entities w !! e') as [cs|] eqn:E; simpl in H; [|discriminate].
    destruct (mapM _ ks) eqn:E2; simpl in H; [|discriminate].
    injection H as <- <-. split; [lia | eauto].
  - intros (Hlt & cs & Hcs & Hm). exists e. split; [apply elem_of_seq; lia|].
    rewrite Hcs. simpl. by rewrite Hm.
Qed.

End EcsLemmas.

#[export] Hint Resolve spawn_empty_wf insert_wf insert_resource_wf commands_of_wf : wr.
