(* ===== verification/Spawn.v ===== *)
(** * Spawn: sparse entity materialisation (weapons.rs 129-165)

    [InsertIfSome::insert_if_some] queues an insert when the slot is
    present and returns the handle unchanged otherwise;
    [WeaponCommand::spawn_weapon] spawns an entity with the [WeaponId] and
    chains [insert_if_some] over the eight optional slots, in field order.
    The [&mut self] receiver is threaded as explicit state: the function
    returns the updated command buffer.  The traits [InsertIfSome] and
    [WeaponCommand] are classes, their [impl]s on [EntityCommands] and
    [Commands] instances, and the startup loop calls [spawn_weapon] through
    the trait.

    The abstract specification is [weapon_component]: the record an entity
    materialised from a weapon holds for each component type.  The theorems
    show the queue [spawn_weapon] leaves and that applying it yields an
    entity whose records are exactly [weapon_component], the rest of the
    world untouched. *)

From S2P Require Import Prelude Weapons Ecs.

Local Open Scope nat_scope.

(** ** The specification of a materialised weapon *)

(** The record of component type [k] on the entity of weapon [w]: the id
    always, every optional slot when present. *)
Definition weapon_component (w : Weapon) (k : ComponentId) : option Component :=
  match k with
  | IdWeaponId => Some (CWeaponId (MkWeaponId (id w)))
  | IdWand => CWand <$> wand w
  | IdDistance => CDistance <$> distance w
  | IdMelee => CMelee <$> melee w
  | IdLevel => CLevel <$> level w
  | IdMagicLevel => CMagicLevel <$> magic_level w
  | IdMana => CMana <$> mana w
  | IdDamageRange => CDamageRange <$> damage_range w
  | IdBreakChance => CBreakChance <$> break_chance w
  end.

(** The records, in the order [spawn_weapon] attaches them. *)
Definition weapon_bundle (w : Weapon) : list Component :=
  [CWeaponId (MkWeaponId (id w))] ++
  option_list (CWand <$> wand w) ++ option_list (CDistance <$> distance w) ++
  option_list (CMelee <$> melee w) ++ option_list (CLevel <$> level w) ++
  option_list (CMagicLevel <$> magic_level w) ++ option_list (CMana <$> mana w) ++
  option_list (CDamageRange <$> damage_range w) ++
  option_list (CBreakChance <$> break_chance w).

Section Spawn.
Context {R : Type}.

(** ** weapons.rs 154-164 *)
Definition insert_if_some {T} `{IsComponent T} (self : EntityCommands R)
    (component : option T) : EntityCommands R :=
  match component with
  | Some c => insert self c
  | None => self
  end.

(** ** weapons.rs 133-144 *)
Definition spawn_weapon (self : Commands R) (weapon : Weapon) : Commands R :=
  let ec := spawn self {| weapon_id := id weapon |} in
  let ec := insert_if_some ec (wand weapon) in
  let ec := insert_if_some ec (distance weapon) in
  let ec := insert_if_some ec (melee weapon) in
  let ec := insert_if_some ec (level weapon) in
  let ec := insert_if_some ec (magic_level weapon) in
  let ec := insert_if_some ec (mana weapon) in
  let ec := insert_if_some ec (damage_range weapon) in
  let ec := insert_if_some ec (break_chance weapon) in
  ec_commands ec.

End Spawn.

(** ** The traits of weapons.rs and their implementations *)

(** [pub trait InsertIfSome] (weapons.rs 147-152) *)
Class InsertIfSome (S : Type) :=
  insert_if_some_of : forall (T : Type) `{IsComponent T}, S -> option T -> S.

(** [impl InsertIfSome for EntityCommands] (weapons.rs 154-165) *)
#[export] Instance EntityCommands_InsertIfSome {R} : InsertIfSome (EntityCommands R) :=
  fun T _ => insert_if_some.

(** [pub trait WeaponCommand] (weapons.rs 129-131); [&mut self] is threaded. *)
Class WeaponCommand (S : Type) := spawn_weapon_of : S -> Weapon -> S.

(** [impl WeaponCommand for Commands] (weapons.rs 133-145) *)
#[export] Instance Commands_WeaponCommand {R} : WeaponCommand (Commands R) := spawn_weapon.

(** [for weapon in weapons { commands.spawn_weapon(weapon); }] (main.rs 34-36),
    the call resolved through the trait. *)
Definition spawn_all {R} (self : Commands R) (weapons : list Weapon) : Commands R :=
  fold_left spawn_weapon_of weapons self.

(** ** The queue [spawn_weapon] leaves *)

(** The records of a bundle inserted one after the other into [m]. *)
Definition insert_all (cs : list Component) (m : gmap ComponentId Component) :=
  fold_left (fun m c => <[component_id c := c]> m) cs m.

Section SpawnLemmas.
Context {R : Type}.
Implicit Types (w : World R) (cb : Commands R).

(** The queue of [spawn_all]: the bundles of the weapons, each on its own
    entity, the entities numbered from [e]. *)
Fixpoint bundles_queue (e : Entity) (ws : list Weapon) : list (Command R) :=
  match ws with
  | [] => []
  | wp :: ws' => map (CmdInsert e) (weapon_bundle wp) ++ bundles_queue (S e) ws'
  end.

Lemma insert_if_some_spec {T} `{IsComponent T} (ec : EntityCommands R) (o : option T) :
  insert_if_some ec o =
  MkEntityCommands (ec_entity ec)
    (MkCommands (cmd_next (ec_commands ec))
       (cmd_queue (ec_commands ec) ++
        map (CmdInsert (ec_entity ec)) (option_list (to_component <$> o)))).
Proof. destruct ec as [e [n q]], o; simpl; by rewrite ?app_nil_r. Qed.

Lemma spawn_weapon_spec cb wp :
  spawn_weapon cb wp =
  MkCommands (S (cmd_next cb))
    (cmd_queue cb ++ map (CmdInsert (cmd_next cb)) (weapon_bundle wp)).
Proof.
  unfold spawn_weapon, spawn. rewrite !insert_if_some_spec. destruct cb as [n q].
  simpl. f_equal. unfold weapon_bundle. rewrite !map_app, <- !app_assoc. reflexivity.
Qed.

Lemma spawn_all_spec cb ws :
  spawn_all cb ws =
  MkCommands (cmd_next cb + length ws) (cmd_queue cb ++ bundles_queue (cmd_next cb) ws).
Proof.
  unfold spawn_all. revert cb; induction ws as [|wp ws IH]; intros cb; simpl.
  - destruct cb; simpl. by rewrite Nat.add_0_r, app_nil_r.
  - rewrite IH. unfold spawn_weapon_of, Commands_WeaponCommand. rewrite spawn_weapon_spec. simpl.
    f_equal; [lia|]. by rewrite <- app_assoc.
Qed.

(** The entities of [ws], numbered from [e], placed into [m]. *)
Fixpoint materialize_from (e : Entity) (ws : list Weapon)
    (m : gmap Entity (gmap ComponentId Component)) :=
  match ws with
  | [] => m
  | wp :: ws' => materialize_from (S e) ws' (<[e := insert_all (weapon_bundle wp) ∅]> m)
  end.

Lemma insert_all_lookup cs m k :
  insert_all cs m !! k =
  last_write (m !! k) (map (fun c => if decide (component_id c = k) then Some c else None) cs).
Proof.
  unfold insert_all, last_write. revert m; induction cs as [|c cs IH]; intros m; [done|].
  simpl. rewrite IH. f_equal. destruct (decide (component_id c = k)) as [<-|].
  - by rewrite lookup_insert_eq.
  - by rewrite lookup_insert_ne.
Qed.

(** The bundle of a weapon, inserted into an empty entity, is the
    specification [weapon_component]. *)
Lemma weapon_bundle_lookup wp k :
  insert_all (weapon_bundle wp) ∅ !! k = weapon_component wp k.
Proof.
  rewrite insert_all_lookup, lookup_empty.
  destruct wp as [i [] [] [] [] [] [] [] []], k; reflexivity.
Qed.

Lemma apply_queue_inserts w e cs m :
  entities w !! e = Some m ->
  apply_queue w (map (CmdInsert e) cs) =
  Some (MkWorld (<[e := insert_all cs m]> (entities w)) (next_entity w) (resource w)).
Proof.
  revert w m; induction cs as [|c cs IH]; intros w m He; simpl.
  - destruct w as [ents n r]; simpl in *. by rewrite insert_id.
  - rewrite He. rewrite (IH _ (<[component_id c:=c]> m)); simpl.
    + by rewrite insert_insert_eq.
    + by rewrite lookup_insert_eq.
Qed.

Lemma apply_bundles w e ws :
  (forall i, i < length ws -> entities w !! (e + i) = Some ∅) ->
  apply_queue w (bundles_queue e ws) =
  Some (MkWorld (materialize_from e ws (entities w)) (next_entity w) (resource w)).
Proof.
  revert w e; induction ws as [|wp ws IH]; intros w e Hempty;
    cbn [bundles_queue materialize_from]; [by destruct w|].
  rewrite apply_queue_app, (apply_queue_inserts _ _ _ ∅).
  2:{ rewrite <- (Nat.add_0_r e). apply Hempty. simpl. lia. }
  simpl. rewrite IH; [done|]. intros i Hi. simpl.
  rewrite lookup_insert_ne by lia. replace (S (e + i)) with (e + S i) by lia. apply Hempty. simpl. lia.
Qed.

Lemma materialize_from_lookup_out e ws m x :
  (x < e \/ e + length ws <= x) -> materialize_from e ws m !! x = m !! x.
Proof.
  revert e m; induction ws as [|wp ws IH]; intros e m Hx; simpl; [done|].
  rewrite IH by (simpl in Hx; lia). rewrite lookup_insert_ne; [done|]. simpl in Hx. lia.
Qed.

Lemma materialize_from_lookup_in e ws m i wp :
  ws !! i = Some wp ->
  materialize_from e ws m !! (e + i) = Some (insert_all (weapon_bundle wp) ∅).
Proof.
  revert e m i; induction ws as [|wp' ws IH]; intros e m i Hi; [done|].
  destruct i as [|i]; simpl in Hi |- *.
  - injection Hi as ->. rewrite materialize_from_lookup_out by lia.
    by rewrite Nat.add_0_r, lookup_insert_eq.
  - rewrite <- Nat.add_succ_comm. by apply IH.
Qed.

Lemma insert_if_some_wf {T} `{IsComponent T} w ec (o : option T) :
  ec_wf w ec -> ec_wf w (insert_if_some ec o).
Proof. destruct o; simpl; auto with wr. Qed.

Lemma spawn_weapon_wf w cb wp : commands_wf w cb -> commands_wf w (spawn_weapon cb wp).
Proof.
  intros H. unfold spawn_weapon, spawn.
  repeat apply insert_if_some_wf. by apply insert_wf, spawn_empty_wf.
Qed.

Lemma spawn_all_wf w cb ws : commands_wf w cb -> commands_wf w (spawn_all cb ws).
Proof.
  unfold spawn_all. revert cb; induction ws; intros cb H; simpl; [done|].
  by apply IHws, spawn_weapon_wf.
Qed.

Lemma flush_lookup_reserved w n i :
  next_entity w + i < n -> entities (flush n w) !! (next_entity w + i) = Some ∅.
Proof.
  intros Hi. simpl. rewrite flush_from_lookup.
  destruct (decide _); [done | lia].
Qed.

Lemma flush_lookup_old w n e :
  e < next_entity w -> entities (flush n w) !! e = entities w !! e.
Proof.
  intros He. simpl. rewrite flush_from_lookup. destruct (decide _); [lia | done].
Qed.

End SpawnLemmas.

(** ** Theorems *)

(** The command buffer of the spawn loop, applied. *)
Lemma spawn_all_apply {R} (w : World R) ws :
  world_wf w ->
  exists w', apply_commands (spawn_all (commands_of w) ws) w = Some w' /\
    world_wf w' /\ next_entity w' = next_entity w + length ws /\
    resource w' = resource w /\
    (forall e, e < next_entity w -> entities w' !! e = entities w !! e) /\
    (forall i wp, ws !! i = Some wp ->
       exists m, entities w' !! (next_entity w + i) = Some m /\
                 forall k, m !! k = weapon_component wp k).
Proof.
  intros Hw.
  destruct (apply_commands_total w (spawn_all (commands_of w) ws)) as (w' & Happ & Hwf & Hn);
    [done | auto using spawn_all_wf with wr |].
  exists w'. rewrite spawn_all_spec in Happ, Hn |- *. simpl in Hn.
  pose proof Happ as Happ0. unfold apply_commands in Happ. simpl in Happ.
  rewrite apply_bundles in Happ.
  2:{ intros i Hi. apply flush_lookup_reserved. lia. }
  injection Happ as <-. simpl in *. split_and!; try done.
  - intros e He. rewrite materialize_from_lookup_out by lia. by apply flush_lookup_old.
  - intros i wp Hi. eexists. split; [by apply materialize_from_lookup_in|].
    apply weapon_bundle_lookup.
Qed.

(** C2: applying the command buffer that [spawn_all] (the [for] loop of
    [startup] over [spawn_weapon]) leaves never panics and yields a world
    with exactly one new entity per weapon, numbered in order from the
    world's allocator; the [i]-th new entity holds, for each component type,
    exactly the record [weapon_component] specifies (the id always, every
    present optional slot, nothing else); older entities and the resource
    are untouched. *)
Theorem spawn_all_materialize {R} (w : World R) ws :
  world_wf w ->
  exists w', apply_commands (spawn_all (commands_of w) ws) w = Some w' /\
    world_wf w' /\ next_entity w' = next_entity w + length ws /\
    resource w' = resource w /\
    (forall e, e < next_entity w -> entities w' !! e = entities w !! e) /\
    (forall i wp, ws !! i = Some wp ->
       exists m, entities w' !! (next_entity w + i) = Some m /\
                 forall k, m !! k = weapon_component wp k).
Proof. apply spawn_all_apply. Qed.

Lemma empty_world_wf {R} : world_wf (R:=R) empty_world.
Proof. intros e. simpl. rewrite lookup_empty. split; [intros [? Hx]; discriminate | lia]. Qed.

Lemma spawn_all_materialize_witness :
  world_wf (@empty_world unit) /\
  exists w', apply_commands (spawn_all (commands_of (@empty_world unit)) [build_chain Wand 1 staff_chain])
               (@empty_world unit) = Some w' /\
    world_wf w' /\ next_entity w' = (next_entity (@empty_world unit) + 1)%nat /\
    resource w' = resource (@empty_world unit) /\
    (forall e, (e < next_entity (@empty_world unit))%nat -> entities w' !! e = entities (@empty_world unit) !! e) /\
    (forall i wp, [build_chain Wand 1 staff_chain] !! i = Some wp ->
       exists m, entities w' !! (next_entity (@empty_world unit) + i)%nat = Some m /\
                 forall k, m !! k = weapon_component wp k).
Proof.
  split; [apply empty_world_wf|].
  apply (spawn_all_materialize (@empty_world unit) [build_chain Wand 1 staff_chain]).
  apply empty_world_wf.
Defined.
