(* ===== verification/EcsSpec.v ===== *)
(** * EcsSpec: the spec's ECS capability as an interface, and the
      refinement of Bevy's deferred commands by immediate operations

    The spec (section 6) describes what the program needs of the ECS: spawn
    a fresh entity, attach typed records to it (a record replaces the one of
    the same type), read them back.  [EcsCap] states these operations and
    [EcsLaws] what they promise; [spawn_bundle] and [spawn_all_now] are the
    program's materialisation written against the interface.  The [World]
    of file [Ecs], with immediate operations, is an implementation
    ([World_laws]).

    The program does not call immediate operations: it queues commands
    ([spawn_weapon], [spawn_all]) that Bevy applies after the system.  The
    refinement theorem shows that applying the queue gives, on every world,
    exactly the world the immediate operations give. *)

From S2P Require Import Prelude Weapons Ecs Spawn.

Local Open Scope nat_scope.

(** ** The interface *)

Class EcsCap (W : Type) := {
  ecs_wf : W -> Prop;
  ecs_spawn : W -> Entity * W;
  ecs_insert : Entity -> Component -> W -> option W;
  ecs_get : W -> Entity -> option (gmap ComponentId Component)
}.

Class EcsLaws (W : Type) `{EcsCap W} : Prop := {
  spawn_fresh w : ecs_wf w -> ecs_get w (ecs_spawn w).1 = None;
  spawn_get_new w : ecs_get (ecs_spawn w).2 (ecs_spawn w).1 = Some ∅;
  spawn_get_old w e : e <> (ecs_spawn w).1 -> ecs_get (ecs_spawn w).2 e = ecs_get w e;
  spawn_wf w : ecs_wf w -> ecs_wf (ecs_spawn w).2;
  insert_live w e c m :
    ecs_get w e = Some m ->
    exists w', ecs_insert e c w = Some w' /\
      ecs_get w' e = Some (<[component_id c := c]> m) /\
      (forall e', e' <> e -> ecs_get w' e' = ecs_get w e') /\
      (ecs_wf w -> ecs_wf w');
  insert_dead w e c : ecs_get w e = None -> ecs_insert e c w = None
}.

(** ** The program's materialisation, against the interface *)

Section Client.
Context `{EcsLaws W}.

(** The records of a bundle attached one after the other. *)
Fixpoint insert_bundle (e : Entity) (cs : list Component) (w : W) : option W :=
  match cs with
  | [] => Some w
  | c :: cs' => ecs_insert e c w ≫= insert_bundle e cs'
  end.

(** [commands.spawn(..)] with the bundle, done at once. *)
Definition spawn_bundle (cs : list Component) (w : W) : Entity * option W :=
  let '(e, w1) := ecs_spawn w in (e, insert_bundle e cs w1).

(** The [spawn_weapon] loop, done at once. *)
Fixpoint spawn_all_now (ws : list Weapon) (w : W) : option W :=
  match ws with
  | [] => Some w
  | wp :: ws' => (spawn_bundle (weapon_bundle wp) w).2 ≫= spawn_all_now ws'
  end.

End Client.

(** ** The world with immediate operations implements the interface *)

#[export] Instance World_cap {R} : EcsCap (World R) := {
  ecs_wf := world_wf;
  ecs_spawn w := (next_entity w, MkWorld (<[next_entity w := ∅]> (entities w))
                                   (S (next_entity w)) (resource w));
  ecs_insert e c w := apply_command w (CmdInsert e c);
  ecs_get w e := entities w !! e
}.

#[export] Instance World_laws {R} : EcsLaws (World R).
Proof.
  split; simpl.
  - intros w Hw. destruct (entities w !! next_entity w) eqn:E; [|done].
    assert (Hlt : is_Some (entities w !! next_entity w)) by (by eexists).
    apply Hw in Hlt. lia.
  - intros w. by rewrite lookup_insert_eq.
  - intros w e He. by rewrite lookup_insert_ne.
  - intros w Hw e. simpl. destruct (decide (e = next_entity w)) as [->|].
    + rewrite lookup_insert_eq. split; [lia | by eexists].
    + rewrite lookup_insert_ne by done. rewrite (Hw e). lia.
  - intros w e c m Hm. rewrite Hm. eexists. split_and!; [reflexivity | simpl | |].
    + by rewrite lookup_insert_eq.
    + intros e' He'. simpl. by rewrite lookup_insert_ne.
    + intros Hw. by apply (apply_command_wf w (CmdInsert e c)); [|simpl; rewrite Hm].
  - intros w e c Hm. simpl. by rewrite Hm.
Qed.

(** ** Deferred commands refine immediate operations *)

Section Refinement.
Context {R : Type}.
Implicit Types (w : World R).

Lemma insert_bundle_world e cs w :
  insert_bundle e cs w = apply_queue w (map (CmdInsert e) cs).
Proof.
  revert w; induction cs as [|c cs IH]; intros w; simpl; [done|].
  simpl. destruct (entities w !! e); simpl; [apply IH | done].
Qed.

Lemma spawn_bundle_world cs w :
  spawn_bundle cs w =
  (next_entity w,
   apply_queue (MkWorld (<[next_entity w := ∅]> (entities w)) (S (next_entity w)) (resource w))
     (map (CmdInsert (next_entity w)) cs)).
Proof. unfold spawn_bundle. simpl. by rewrite insert_bundle_world. Qed.

(** The immediate loop places the weapons' bundles from the allocator on. *)
Lemma spawn_all_now_world w ws :
  spawn_all_now ws w =
  Some (MkWorld (materialize_from (next_entity w) ws (entities w))
          (next_entity w + length ws) (resource w)).
Proof.
  revert w; induction ws as [|wp ws IH]; intros w; cbn [spawn_all_now].
  - destruct w; simpl. by rewrite Nat.add_0_r.
  - rewrite spawn_bundle_world. cbn [snd].
    rewrite (apply_queue_inserts _ _ _ ∅) by (simpl; by rewrite lookup_insert_eq).
    cbn [mbind option_bind]. rewrite IH. cbn [entities next_entity resource materialize_from length].
    rewrite insert_insert_eq. do 2 f_equal. lia.
Qed.

(** The reservations flushed first are overwritten by the bundles. *)
Lemma materialize_flush n ws m :
  materialize_from n ws (flush_from n (length ws) m) = materialize_from n ws m.
Proof.
  apply map_eq. intros x. destruct (decide (n <= x < n + length ws)) as [Hx|Hx].
  - destruct (lookup_lt_is_Some_2 ws (x - n)) as [wp Hwp]; [lia|].
    replace x with (n + (x - n)) by lia. by rewrite !(materialize_from_lookup_in _ _ _ _ wp).
  - rewrite !materialize_from_lookup_out by lia. rewrite flush_from_lookup.
    by rewrite decide_False.
Qed.

End Refinement.

(** C18: Bevy's deferral is invisible to the program: on every world,
    applying the command buffer the [spawn_weapon] loop leaves gives
    exactly the world that spawning each weapon's bundle at once, in order,
    gives. *)
Theorem spawn_all_refines_now {R} (w : World R) ws :
  apply_commands (spawn_all (commands_of w) ws) w = spawn_all_now ws w.
Proof.
  rewrite spawn_all_now_world. unfold apply_commands. rewrite spawn_all_spec. simpl.
  rewrite apply_bundles.
  2:{ intros i Hi. apply flush_lookup_reserved. lia. }
  simpl. replace (next_entity w + length ws - next_entity w) with (length ws) by lia.
  rewrite materialize_flush. do 2 f_equal. lia.
Qed.
