(* ===== verification/Rune.v ===== *)
(** * Rune: the fragment of the Rune runtime the program relies on

    Rune is a library the sources call; this file models, from the spec and
    from Rune's documented behaviour, what the program depends on:
    - values: integers ([i64]), arrays ([Vec]), and [Any] objects held by
      reference ([Shared<AnyObj>]); an [Any] argument passed by value to a
      native function is taken out of its cell, which is then empty, so a
      second use of the same object fails (the spec's "consumes the value by
      ownership-transfer");
    - modules and contexts: registering a type or a function under a name
      already registered is a [ContextError];
    - compilation ([prepare().build()]): a source that does not parse, an
      unknown path, an unbound variable, two functions of the same name or
      a number literal outside [i64] are errors; an expression statement without effect is a warning; the
      diagnostics are collected apart from the result;
    - the virtual machine: [execute] finds the entry function and checks its
      arity, [complete] evaluates its body with fuel (each evaluation step
      costs one unit; running out is [OutOfFuel], a run the real VM would
      still be performing), native calls go through the context's handlers,
      and an instance call reads the receiver's type through its cell, so
      a call on a moved object is an access error;
    - [from_value::<Vec<T>>]: an array whose every element is an [Any]
      object of type [T], each one taken out of its cell.

    The parser is not modelled: a [Source] carries the syntax tree it parses
    to, or [None] for text with a syntax error.  The standard modules of
    [rune_modules::default_context] are represented by their type names
    only; a script that calls one of their functions is outside the model. *)

From stdpp Require Import strings.
From S2P Require Import Prelude Weapons.

#[local] Set Warnings "-register-all".

(** ** Values and the object heap *)

Definition i64_min : Z := - 2 ^ 63.
Definition i64_max : Z := 2 ^ 63 - 1.

Abbreviation loc := nat (only parsing).

(** The [Any] types the program registers. *)
Inductive AnyObj := AnyWeapon (w : Weapon).

Inductive Value :=
  | VUnit
  | VInteger (z : Z)
  | VVec (vs : list Value)
  | VAny (l : loc).

(** A cell holds its object, or [None] once the object has been taken. *)
Record Heap := MkHeap {
  heap_cells : gmap loc (option AnyObj);
  heap_next : loc
}.

Definition empty_heap : Heap := MkHeap ∅ 0.

Inductive VmError :=
  | MissingEntry (name : string)
  | BadArgumentCount (expected actual : nat)
  | MissingFunction (path : string)
  | MissingInstanceFunction (type_name name : string)
  | MissingLocal (x : string)
  | ExpectedInteger
  | IntegerOutOfRange (z : Z)
  | ExpectedAny (type_name : string)
  | AccessError (l : loc)
  | ExpectedVec (type_name : string)
  | OutOfFuel.

#[export] Instance VmError_eq_dec : EqDecision VmError.
Proof. solve_decision. Defined.

Definition alloc (o : AnyObj) (h : Heap) : loc * Heap :=
  (heap_next h, MkHeap (<[heap_next h := Some o]> (heap_cells h)) (S (heap_next h))).

(** [Shared::take]: move the object out of its cell. *)
Definition take (l : loc) (h : Heap) : result (AnyObj * Heap) VmError :=
  match heap_cells h !! l with
  | Some (Some o) => Ok (o, MkHeap (<[l := None]> (heap_cells h)) (heap_next h))
  | _ => Err (AccessError l)
  end.

(** The name of a value's type, which selects the instance functions
    ([Value::type_hash]); the type of an [Any] value is read through its
    cell, so a moved-out object is an access error. *)
Definition type_of (v : Value) (h : Heap) : result string VmError :=
  match v with
  | VUnit => Ok "unit"%string
  | VInteger _ => Ok "i64"%string
  | VVec _ => Ok "Vec"%string
  | VAny l => match heap_cells h !! l with
              | Some (Some (AnyWeapon _)) => Ok "Weapon"%string
              | _ => Err (AccessError l)
              end
  end.

(** [u32: FromValue]: an integer in range, else a conversion error. *)
Definition u32_from_value (v : Value) : result Z VmError :=
  match v with
  | VInteger z => if is_u32 z then Ok z else Err (IntegerOutOfRange z)
  | _ => Err ExpectedInteger
  end.

(** [Weapon: FromValue] for a [#[derive(Any)]] type: take the object. *)
Definition weapon_from_value (v : Value) (h : Heap) : result (Weapon * Heap) VmError :=
  match v with
  | VAny l => let? '(AnyWeapon w, h') := take l h in Ok (w, h')
  | _ => Err (ExpectedAny "Weapon"%string)
  end.

(** ** Native functions, modules and contexts *)

(** A registered native function: its full path ([Weapon::new_wand]),
    the type it is an instance function of, its arity and its handler. *)
Record NativeFn := MkNativeFn {
  nf_path : string;
  nf_receiver : option string;
  nf_arity : nat;
  nf_handler : list Value -> Heap -> result (Value * Heap) VmError
}.

Record RuneModule := MkRuneModule {
  mod_types : list string;
  mod_fns : list NativeFn
}.

Inductive ContextError :=
  | ConflictingType (name : string)
  | ConflictingFunction (path : string).

#[export] Instance ContextError_eq_dec : EqDecision ContextError.
Proof. solve_decision. Defined.

Definition module_new : RuneModule := MkRuneModule [] [].

Definition fn_registered (p : string) (fs : list NativeFn) : bool :=
  existsb (fun f => bool_decide (nf_path f = p)) fs.

(** [Module::ty::<T>()] *)
Definition module_ty (name : string) (m : RuneModule) : result RuneModule ContextError :=
  if bool_decide (name ∈ mod_types m) then Err (ConflictingType name)
  else Ok (MkRuneModule (mod_types m ++ [name]) (mod_fns m)).

(** [Module::function_meta(f)] *)
Definition module_function (f : NativeFn) (m : RuneModule) : result RuneModule ContextError :=
  if fn_registered (nf_path f) (mod_fns m) then Err (ConflictingFunction (nf_path f))
  else Ok (MkRuneModule (mod_types m) (mod_fns m ++ [f])).

Record Context := MkContext {
  ctx_types : list string;
  ctx_fns : list NativeFn
}.

(** [rune_modules::default_context()]: the standard types. *)
Definition default_context : Context := MkContext ["unit"%string; "i64"%string; "Vec"%string; "String"%string] [].

Fixpoint install_types (ts : list string) (c : Context) : result Context ContextError :=
  match ts with
  | [] => Ok c
  | t :: ts' =>
      if bool_decide (t ∈ ctx_types c) then Err (ConflictingType t)
      else install_types ts' (MkContext (ctx_types c ++ [t]) (ctx_fns c))
  end.

Fixpoint install_fns (fs : list NativeFn) (c : Context) : result Context ContextError :=
  match fs with
  | [] => Ok c
  | f :: fs' =>
      if fn_registered (nf_path f) (ctx_fns c) then Err (ConflictingFunction (nf_path f))
      else install_fns fs' (MkContext (ctx_types c) (ctx_fns c ++ [f]))
  end.

(** [Context::install(module)] *)
Definition install (m : RuneModule) (c : Context) : result Context ContextError :=
  let? c := install_types (mod_types m) c in install_fns (mod_fns m) c.

(** [Context::runtime()]: the function table the VM dispatches through
    (the call can only fail on allocation, which is not modelled). *)
Definition RuntimeContext := list NativeFn.

Definition runtime (c : Context) : result RuntimeContext ContextError := Ok (ctx_fns c).

Definition find_fn (p : string) (fs : list NativeFn) : option NativeFn :=
  List.find (fun f => bool_decide (nf_path f = p)) fs.

(** ** Scripts: syntax, sources, compilation *)

Inductive expr :=
  | ELit (z : Z)
  | EVar (x : string)
  | ELet (x : string) (e1 e2 : expr)
  | ESeq (e1 e2 : expr)
  | EVec (es : list expr)
  | ECall (path : string) (args : list expr)
  | EMethod (recv : expr) (name : string) (args : list expr).

(** [pub fn name(params) { body }] *)
Record ItemFn := MkItemFn {
  fn_name : string;
  fn_params : list string;
  fn_body : expr
}.

(** A source file: its name and the items it parses to, [None] when the
    text has a syntax error. *)
Record Source := MkSource {
  source_name : string;
  source_items : option (list ItemFn)
}.

Definition Sources := list Source.

Inductive DiagnosticKind :=
  | ParseError (source : string)
  | DuplicateFunction (name : string)
  | MissingItem (path : string)
  | UnboundLocal (x : string)
  | BadNumberLiteral (z : Z)
  | NotUsed.

#[export] Instance DiagnosticKind_eq_dec : EqDecision DiagnosticKind.
Proof. solve_decision. Defined.

Inductive Diagnostic :=
  | DError (k : DiagnosticKind)
  | DWarning (k : DiagnosticKind).

#[export] Instance Diagnostic_eq_dec : EqDecision Diagnostic.
Proof. solve_decision. Defined.

Definition Diagnostics := list Diagnostic.

Definition is_error (d : Diagnostic) : bool :=
  match d with DError _ => true | DWarning _ => false end.

Definition has_errors (ds : Diagnostics) : bool := existsb is_error ds.

(** The compiled program: the functions by name. *)
Record Unit := MkUnit { unit_fns : list ItemFn }.

Inductive BuildError := BuildFailed.

(** An expression statement whose value is dropped and that has no effect. *)
Definition pure_expr (e : expr) : bool :=
  match e with ELit _ | EVar _ => true | _ => false end.

(** The diagnostics of an expression: [fns] are the unit's function names,
    [ctx] the context's function paths, [locals] the variables in scope. *)
Fixpoint check_expr (fns ctx locals : list string) (e : expr) : Diagnostics :=
  match e with
  | ELit z => if is_i64 z then [] else [DError (BadNumberLiteral z)]
  | EVar x => if bool_decide (x ∈ locals) then [] else [DError (UnboundLocal x)]
  | ELet x e1 e2 => check_expr fns ctx locals e1 ++ check_expr fns ctx (x :: locals) e2
  | ESeq e1 e2 =>
      (if pure_expr e1 then [DWarning NotUsed] else []) ++
      check_expr fns ctx locals e1 ++ check_expr fns ctx locals e2
  | EVec es => concat (map (check_expr fns ctx locals) es)
  | ECall p args =>
      (if bool_decide (p ∈ fns ∨ p ∈ ctx) then [] else [DError (MissingItem p)]) ++
      concat (map (check_expr fns ctx locals) args)
  | EMethod r _ args =>
      check_expr fns ctx locals r ++ concat (map (check_expr fns ctx locals) args)
  end.

Fixpoint duplicates (names : list string) : Diagnostics :=
  match names with
  | [] => []
  | n :: ns => (if bool_decide (n ∈ ns) then [DError (DuplicateFunction n)] else []) ++
               duplicates ns
  end.

Definition check_items (c : Context) (items : list ItemFn) : Diagnostics :=
  let fns := map fn_name items in
  let ctx := map nf_path (ctx_fns c) in
  duplicates fns ++
  concat (map (fun f => check_expr fns ctx (fn_params f) (fn_body f)) items).

Definition source_diagnostics (c : Context) (s : Source) : Diagnostics :=
  match source_items s with
  | None => [DError (ParseError (source_name s))]
  | Some items => []
  end.

(** [rune::prepare(&mut sources).with_context(&context)
      .with_diagnostics(&mut diagnostics).build()]: the diagnostics and,
    when none of them is an error, the unit. *)
Definition build (c : Context) (srcs : Sources) : Diagnostics * result Unit BuildError :=
  let parse := concat (map (source_diagnostics c) srcs) in
  let items := concat (map (fun s => default [] (source_items s)) srcs) in
  let ds := parse ++ check_items c items in
  (ds, if has_errors ds then Err BuildFailed else Ok (MkUnit items)).

(** ** The virtual machine *)

Definition lookup_local (x : string) (env : list (string * Value)) : option Value :=
  snd <$> List.find (fun p => bool_decide (fst p = x)) env.

Definition find_item (name : string) (u : Unit) : option ItemFn :=
  List.find (fun f => bool_decide (fn_name f = name)) (unit_fns u).

(** A native call: the arity check of the generated glue, then the handler. *)
Definition call_native (nf : NativeFn) (vs : list Value) (h : Heap)
    : result (Value * Heap) VmError :=
  if Nat.eqb (length vs) (nf_arity nf) then nf_handler nf vs h
  else Err (BadArgumentCount (nf_arity nf) (length vs)).

(** Arguments and array elements, left to right. *)
Fixpoint eval_list (ev : expr -> Heap -> result (Value * Heap) VmError)
    (es : list expr) (h : Heap) : result (list Value * Heap) VmError :=
  match es with
  | [] => Ok ([], h)
  | e :: es' =>
      let? '(v, h1) := ev e h in
      let? '(vs, h2) := eval_list ev es' h1 in
      Ok (v :: vs, h2)
  end.

Fixpoint eval (fuel : nat) (rt : RuntimeContext) (u : Unit)
    (env : list (string * Value)) (e : expr) (h : Heap) {struct fuel}
    : result (Value * Heap) VmError :=
  match fuel with
  | O => Err OutOfFuel
  | S fuel' =>
      match e with
      | ELit z => Ok (VInteger z, h)
      | EVar x =>
          match lookup_local x env with
          | Some v => Ok (v, h)
          | None => Err (MissingLocal x)
          end
      | ELet x e1 e2 =>
          let? '(v, h1) := eval fuel' rt u env e1 h in
          eval fuel' rt u ((x, v) :: env) e2 h1
      | ESeq e1 e2 =>
          let? '(_, h1) := eval fuel' rt u env e1 h in
          eval fuel' rt u env e2 h1
      | EVec es =>
          let? '(vs, h1) := eval_list (eval fuel' rt u env) es h in
          Ok (VVec vs, h1)
      | ECall p args =>
          let? '(vs, h1) := eval_list (eval fuel' rt u env) args h in
          match find_item p u with
          | Some f =>
              if Nat.eqb (length (fn_params f)) (length vs)
              then eval fuel' rt u (zip (fn_params f) vs) (fn_body f) h1
              else Err (BadArgumentCount (length (fn_params f)) (length vs))
          | None =>
              match find_fn p rt with
              | Some nf => call_native nf vs h1
              | None => Err (MissingFunction p)
              end
          end
      | EMethod r n args =>
          let? '(rv, h1) := eval fuel' rt u env r h in
          let? '(vs, h2) := eval_list (eval fuel' rt u env) args h1 in
          let? ty := type_of rv h2 in
          match find_fn (ty +:+ "::" +:+ n) rt with
          | Some nf =>
              if bool_decide (nf_receiver nf = Some ty) then call_native nf (rv :: vs) h2
              else Err (MissingInstanceFunction ty n)
          | None => Err (MissingInstanceFunction ty n)
          end
      end
  end.

Record Vm := MkVm {
  vm_runtime : RuntimeContext;
  vm_unit : Unit;
  vm_stack : list Value
}.

(** [Vm::new(runtime, unit)]: shares both, allocates an empty stack. *)
Definition vm_new (rt : RuntimeContext) (u : Unit) : Vm := MkVm rt u [].

Record VmExecution := MkVmExecution {
  exec_vm : Vm;
  exec_fn : ItemFn;
  exec_args : list Value
}.

(** [vm.execute([name], args)] *)
Definition execute (vm : Vm) (name : string) (args : list Value) : result VmExecution VmError :=
  match find_item name (vm_unit vm) with
  | None => Err (MissingEntry name)
  | Some f =>
      if Nat.eqb (length (fn_params f)) (length args) then Ok (MkVmExecution vm f args)
      else Err (BadArgumentCount (length (fn_params f)) (length args))
  end.

(** [.complete().into_result()]: run the entry function to its end. *)
Definition complete (fuel : nat) (ex : VmExecution) : result (Value * Heap) VmError :=
  let vm := exec_vm ex in
  eval fuel (vm_runtime vm) (vm_unit vm) (zip (fn_params (exec_fn ex)) (exec_args ex))
    (fn_body (exec_fn ex)) empty_heap.

(** [rune::from_value::<Vec<Weapon>>(output)] *)
Fixpoint weapons_from_values (vs : list Value) (h : Heap) : result (list Weapon * Heap) VmError :=
  match vs with
  | [] => Ok ([], h)
  | v :: vs' =>
      let? '(w, h1) := weapon_from_value v h in
      let? '(ws, h2) := weapons_from_values vs' h1 in
      Ok (w :: ws, h2)
  end.

Definition from_value_weapons (v : Value) (h : Heap) : result (list Weapon) VmError :=
  match v with
  | VVec vs => let? '(ws, _) := weapons_from_values vs h in Ok ws
  | _ => let? ty := type_of v h in Err (ExpectedVec ty)
  end.

(** ** Size *)

Fixpoint expr_size (e : expr) : nat :=
  match e with
  | ELit _ | EVar _ => 1
  | ELet _ e1 e2 | ESeq e1 e2 => S (expr_size e1 + expr_size e2)
  | EVec es => S (list_sum (map expr_size es))
  | ECall _ args => S (list_sum (map expr_size args))
  | EMethod r _ args => S (expr_size r + list_sum (map expr_size args))
  end.

(** ** What a native function promises the VM

    The interface between the runtime and the native functions of a
    context: a handler keeps the heap invariant [P] of the objects it
    serves. *)
Record native_spec (P : Heap -> Prop) (nf : NativeFn) : Prop := {
  native_preserves : forall vs h v h', P h -> nf_handler nf vs h = Ok (v, h') -> P h'
}.

Section VmInvariant.
Context (P : Heap -> Prop) (rt : RuntimeContext) (Hrt : Forall (native_spec P) rt).

Lemma find_fn_spec p nf : find_fn p rt = Some nf -> native_spec P nf.
Proof.
  intros Hf. apply find_some in Hf as [Hin _].
  rewrite Forall_forall in Hrt. apply Hrt. by apply list_elem_of_In.
Qed.

Lemma call_native_preserves nf vs h v h' :
  native_spec P nf -> P h -> call_native nf vs h = Ok (v, h') -> P h'.
Proof.
  intros Hnf HP. unfold call_native. destruct (Nat.eqb _ _); [|discriminate].
  by apply (native_preserves P nf Hnf).
Qed.

Lemma eval_list_preserves ev es h vs h' :
  (forall e h v h', P h -> ev e h = Ok (v, h') -> P h') ->
  P h -> eval_list ev es h = Ok (vs, h') -> P h'.
Proof.
  intros Hev. revert h vs; induction es as [|e es IH]; intros h vs HP H; simpl in H.
  - by injection H as <- <-.
  - inv_rbind. injection H as <- <-. eauto.
Qed.

(** Every evaluation step keeps the heap invariant. *)
Lemma eval_preserves n u env e h v h' :
  P h -> eval n rt u env e h = Ok (v, h') -> P h'.
Proof.
  revert env e h v h'; induction n as [|n IH]; intros env e h v h' HP H; [discriminate|].
  destruct e as [z|x|x e1 e2|e1 e2|es|p args|r nm args]; simpl in H.
  - by injection H as <- <-.
  - destruct (lookup_local x env); [by injection H as <- <- | discriminate].
  - inv_rbind. eauto.
  - inv_rbind. eauto.
  - inv_rbind. injection H as <- <-. eauto using eval_list_preserves.
  - inv_rbind. assert (P h0) by eauto using eval_list_preserves.
    destruct (find_item p u) as [f|].
    + destruct (Nat.eqb _ _); [eauto | discriminate].
    + destruct (find_fn p rt) as [nf|] eqn:Hf; [|discriminate].
      eauto using call_native_preserves, find_fn_spec.
  - inv_rbind. assert (P h0) by eauto. assert (P h1) by eauto using eval_list_preserves.
    destruct (find_fn _ rt) as [nf|] eqn:Hf; [|discriminate].
    case_bool_decide; [|discriminate]. eauto using call_native_preserves, find_fn_spec.
Qed.

End VmInvariant.

(** ** Compilation outcomes *)

Lemma build_result c srcs :
  (build c srcs).2 = if has_errors (build c srcs).1 then Err BuildFailed
                     else Ok (MkUnit (concat (map (fun s => default [] (source_items s)) srcs))).
Proof. reflexivity. Qed.

Lemma has_errors_nonempty ds : has_errors ds = true -> ds <> [].
Proof. by destruct ds. Qed.

(** A source with a syntax error makes the build fail. *)
Lemma build_parse_error c srcs s :
  s ∈ srcs -> source_items s = None -> has_errors (build c srcs).1 = true.
Proof.
  intros Hin Hs. unfold build, has_errors. simpl. rewrite existsb_app, orb_true_iff. left.
  apply existsb_exists. exists (DError (ParseError (source_name s))). split; [|done].
  apply in_concat. exists (source_diagnostics c s). split.
  - apply in_map. by apply list_elem_of_In.
  - unfold source_diagnostics. rewrite Hs. by left.
Qed.
