(* ===== verification/Scope.v ===== *)
(** * Scope: what the compiler's checks guarantee the virtual machine

    [rune::prepare(..).build()] rejects a script that names an unbound
    local or a function that is neither an item of the unit nor a function
    of the context ([check_expr] in file [Rune]).  This file shows that the
    check is sound for the VM of file [Rune]: a unit that compiled never
    faults at run time with [MissingLocal] or [MissingFunction], whatever the
    fuel, the heap and the arguments of the entry function, provided the
    native functions themselves raise neither error.  Method calls are
    resolved by the dynamic type of the receiver, so [MissingInstanceFunction]
    stays possible and is not a scope error. *)

From stdpp Require Import strings.
From S2P Require Import Prelude Rune.

(** ** Scope errors *)

Definition scope_error (e : VmError) : bool :=
  match e with MissingLocal _ | MissingFunction _ => true | _ => false end.

(** An outcome that is not a scope error. *)
Definition scope_safe {A} (r : result A VmError) : Prop :=
  match r with Ok _ => True | Err e => scope_error e = false end.

(** The variables in scope all have a value in the environment. *)
Definition env_covers (locals : list string) (env : list (string * Value)) : Prop :=
  forall x, x ∈ locals -> is_Some (lookup_local x env).

(** ** Generic lemmas *)

Lemma rbind_scope_safe {A B} (c : result A VmError) (k : A -> result B VmError) :
  scope_safe c -> (forall a, c = Ok a -> scope_safe (k a)) -> scope_safe (rbind c k).
Proof. destruct c; simpl; auto. Qed.

Lemma has_errors_app ds1 ds2 : has_errors (ds1 ++ ds2) = has_errors ds1 || has_errors ds2.
Proof. apply existsb_app. Qed.

Lemma has_errors_concat dss :
  has_errors (concat dss) = false <-> Forall (fun ds => has_errors ds = false) dss.
Proof.
  induction dss as [|ds dss IH]; simpl; [split; auto|].
  by rewrite has_errors_app, orb_false_iff, Forall_cons, IH.
Qed.

Lemma has_errors_concat_map {A} (f : A -> Diagnostics) xs :
  has_errors (concat (map f xs)) = false -> forall x, x ∈ xs -> has_errors (f x) = false.
Proof. rewrite has_errors_concat, Forall_map, Forall_forall. auto. Qed.

Lemma env_covers_cons x v locals env :
  env_covers locals env -> env_covers (x :: locals) ((x, v) :: env).
Proof.
  intros H y Hy. unfold lookup_local. simpl. case_bool_decide; simpl; [by eexists|].
  apply elem_of_cons in Hy as [->|Hy]; [done|]. by apply H.
Qed.

Lemma env_covers_zip ps vs : length ps = length vs -> env_covers ps (zip ps vs).
Proof.
  revert vs; induction ps as [|p ps IH]; intros [|v vs] Hl; simpl in Hl; try lia.
  - intros x Hx. by apply elem_of_nil in Hx.
  - apply env_covers_cons. apply IH. lia.
Qed.

Lemma find_item_in p u : p ∈ map fn_name (unit_fns u) -> is_Some (find_item p u).
Proof.
  unfold find_item. induction (unit_fns u) as [|f fs IH]; simpl; intros Hp.
  - by apply elem_of_nil in Hp.
  - case_bool_decide; [by eexists|]. apply elem_of_cons in Hp as [->|Hp]; [done|]. auto.
Qed.

Lemma find_item_elem p u f : find_item p u = Some f -> f ∈ unit_fns u.
Proof. intros Hf. apply find_some in Hf as [Hin _]. by apply list_elem_of_In. Qed.

Lemma find_fn_in p fs : p ∈ map nf_path fs -> is_Some (find_fn p fs).
Proof.
  unfold find_fn. induction fs as [|f fs IH]; simpl; intros Hp.
  - by apply elem_of_nil in Hp.
  - case_bool_decide; [by eexists|]. apply elem_of_cons in Hp as [->|Hp]; [done|]. auto.
Qed.

Lemma find_fn_elem p fs nf : find_fn p fs = Some nf -> nf ∈ fs.
Proof. intros Hf. apply find_some in Hf as [Hin _]. by apply list_elem_of_In. Qed.

#[export] Hint Resolve env_covers_cons env_covers_zip find_item_elem find_fn_elem : wr.

(** ** Soundness of the scope check *)

Section ScopeSafety.
Context (rt : RuntimeContext) (u : Unit) (ctx : list string).

(** The context's paths are functions of the runtime, ... *)
Hypothesis Hctx : forall p, p ∈ ctx -> is_Some (find_fn p rt).
(** ... its handlers raise no scope error, ... *)
Hypothesis Hnat : Forall (fun nf => forall vs h, scope_safe (nf_handler nf vs h)) rt.
(** ... and every body of the unit passed the check. *)
Hypothesis Hbodies :
  Forall (fun f => has_errors (check_expr (map fn_name (unit_fns u)) ctx (fn_params f) (fn_body f)) = false)
    (unit_fns u).

Lemma call_native_scope_safe nf vs h : nf ∈ rt -> scope_safe (call_native nf vs h).
Proof.
  intros Hin. unfold call_native. destruct (Nat.eqb _ _); [|done].
  rewrite Forall_forall in Hnat. by apply Hnat.
Qed.

Lemma eval_list_scope_safe ev es h :
  (forall e h, e ∈ es -> scope_safe (ev e h)) -> scope_safe (eval_list ev es h).
Proof.
  revert h; induction es as [|e es IH]; intros h Hev; simpl; [done|].
  apply rbind_scope_safe; [apply Hev; by left|]. intros [v h1] _.
  apply rbind_scope_safe; [|by intros [? ?]]. apply IH. intros e' h' Hin. apply Hev. by right.
Qed.

Lemma eval_args_scope_safe n locals env args h :
  (forall locals env e h, has_errors (check_expr (map fn_name (unit_fns u)) ctx locals e) = false ->
     env_covers locals env -> scope_safe (eval n rt u env e h)) ->
  has_errors (concat (map (check_expr (map fn_name (unit_fns u)) ctx locals) args)) = false ->
  env_covers locals env ->
  scope_safe (eval_list (eval n rt u env) args h).
Proof.
  intros IH Hargs Henv. apply eval_list_scope_safe. intros e h' Hin.
  apply (IH locals); [|done]. by apply (has_errors_concat_map _ args).
Qed.

(** A checked expression, run in an environment that binds its locals,
    never faults with an unbound local or an unknown function. *)
Lemma eval_scope_safe n locals env e h :
  has_errors (check_expr (map fn_name (unit_fns u)) ctx locals e) = false ->
  env_covers locals env -> scope_safe (eval n rt u env e h).
Proof.
  revert locals env e h; induction n as [|n IH]; intros locals env e h Hc Henv; [done|].
  destruct e as [z|x|x e1 e2|e1 e2|es|p args|r nm args]; simpl in Hc |- *.
  - done.
  - case_bool_decide as Hx; [|discriminate].
    destruct (Henv x Hx) as [v ->]. done.
  - rewrite has_errors_app, orb_false_iff in Hc. destruct Hc as [H1 H2].
    apply rbind_scope_safe; [eauto|]. intros [v h1] _. eauto with wr.
  - rewrite !has_errors_app, !orb_false_iff in Hc. destruct Hc as (_ & H1 & H2).
    apply rbind_scope_safe; [eauto|]. intros [v h1] _. eauto.
  - apply rbind_scope_safe; [by eapply eval_args_scope_safe|]. by intros [vs h1] _.
  - rewrite has_errors_app, orb_false_iff in Hc. destruct Hc as [Hp Hargs].
    apply rbind_scope_safe; [by eapply eval_args_scope_safe|]. intros [vs h1] _.
    destruct (find_item p u) as [f|] eqn:Hf.
    + destruct (Nat.eqb _ _) eqn:Hl; [|done]. apply Nat.eqb_eq in Hl.
      rewrite Forall_forall in Hbodies. eapply IH; eauto with wr.
    + case_bool_decide as Hin; [|discriminate].
      destruct Hin as [Hin|Hin]; [by destruct (find_item_in p u Hin) as [? Hs]; congruence|].
      destruct (Hctx p Hin) as [nf Hnf]. rewrite Hnf.
      eauto using call_native_scope_safe with wr.
  - rewrite has_errors_app, orb_false_iff in Hc. destruct Hc as [Hr Hargs].
    apply rbind_scope_safe; [eauto|]. intros [rv h1] _.
    apply rbind_scope_safe; [by eapply eval_args_scope_safe|]. intros [vs h2] _.
    apply rbind_scope_safe; [by destruct rv as [| | |l]; simpl; repeat case_match|]. intros ty _.
    destruct (find_fn _ rt) as [nf|] eqn:Hf; [|done].
    case_bool_decide; [|done]. eauto using call_native_scope_safe with wr.
Qed.

End ScopeSafety.

(** ** What a successful build establishes *)

(** A unit that compiled: every body passed the check against the unit's
    names and the context's paths. *)
Lemma build_checks c srcs ds u :
  build c srcs = (ds, Ok u) ->
  Forall (fun f => has_errors (check_expr (map fn_name (unit_fns u)) (map nf_path (ctx_fns c))
                                 (fn_params f) (fn_body f)) = false) (unit_fns u).
Proof.
  unfold build. destruct (has_errors _) eqn:He; [discriminate|]. intros [= <- <-]. simpl.
  rewrite has_errors_app, orb_false_iff in He. destruct He as [_ He].
  unfold check_items in He. rewrite has_errors_app, orb_false_iff in He. destruct He as [_ He].
  apply has_errors_concat in He. by rewrite Forall_map in He.
Qed.

(** The scope check is sound for a whole unit: an entry function of a unit
    that compiled, run by a VM over the context's functions, never faults
    with an unbound local or an unknown function, whatever the fuel and the
    arguments, provided the native handlers raise neither error. *)
Lemma compiled_scope_safe c srcs ds u name args ex n :
  build c srcs = (ds, Ok u) ->
  Forall (fun nf => forall vs h, scope_safe (nf_handler nf vs h)) (ctx_fns c) ->
  execute (vm_new (ctx_fns c) u) name args = Ok ex ->
  scope_safe (complete n ex).
Proof.
  intros Hb Hnat Hex. unfold execute in Hex. simpl in Hex.
  destruct (find_item name u) as [f|] eqn:Hf; [|discriminate].
  destruct (Nat.eqb _ _) eqn:Hl; [|discriminate]. injection Hex as <-.
  apply Nat.eqb_eq in Hl. pose proof (build_checks _ _ _ _ Hb) as Hc.
  rewrite Forall_forall in Hc. unfold complete. simpl.
  eapply (eval_scope_safe (ctx_fns c) u (map nf_path (ctx_fns c)));
    eauto using find_fn_in with wr.
  by rewrite Forall_forall.
Qed.
