(* ===== verification/Bridge.v ===== *)
(** * Bridge: the scripting bridge of weapons.rs (lines 36-51, 67-127)

    [#[rune::function]] wraps each constructor and setter of [Weapon] into a
    native function: the glue checks the argument count, converts each
    argument in order ([self] is taken out of its cell, a [u32] is an
    integer in range) and returns the result as a fresh [Any] object.
    [module()] registers the type and the eight functions; the [?] after
    each registration propagates a [ContextError].

    The heap invariant [heap_wf] (every live [Weapon] object satisfies
    [weapon_wf]) is what the bridge promises the VM: each glue function
    meets the [native_spec] interface of file [Rune] for it, so every weapon
    a script builds, and every weapon decoded from its output, is well
    formed.  The bounds theorem shows what happens to an argument outside
    [u32]: the call fails, no object is built.  The glue raises no scope
    error of the VM ([weapon_fns_scope_safe], for file [Scope]), and
    installing the module into a context that has its type or one of its
    paths is a conflict error. *)

From stdpp Require Import strings.
From S2P Require Import Prelude Weapons Rune Scope.

(** ** The glue of [#[rune::function]] *)

(** A returned [Self]: a fresh object. *)
Definition ret_weapon (w : Weapon) (h : Heap) : result (Value * Heap) VmError :=
  let '(l, h') := alloc (AnyWeapon w) h in Ok (VAny l, h').

(** [fn new_*(id: u32) -> Self] *)
Definition glue_new (f : Z -> Weapon) (args : list Value) (h : Heap)
    : result (Value * Heap) VmError :=
  match args with
  | [v] => let? i := u32_from_value v in ret_weapon (f i) h
  | _ => Err (BadArgumentCount 1 (length args))
  end.

(** [fn setter(mut self, value: u32) -> Self] *)
Definition glue_set1 (f : Weapon -> Z -> Weapon) (args : list Value) (h : Heap)
    : result (Value * Heap) VmError :=
  match args with
  | [s; v] =>
      let? '(w, h1) := weapon_from_value s h in
      let? x := u32_from_value v in
      ret_weapon (f w x) h1
  | _ => Err (BadArgumentCount 2 (length args))
  end.

(** [fn damage_range(mut self, value_min: u32, value_max: u32) -> Self] *)
Definition glue_set2 (f : Weapon -> Z -> Z -> Weapon) (args : list Value) (h : Heap)
    : result (Value * Heap) VmError :=
  match args with
  | [s; a; b] =>
      let? '(w, h1) := weapon_from_value s h in
      let? x := u32_from_value a in
      let? y := u32_from_value b in
      ret_weapon (f w x y) h1
  | _ => Err (BadArgumentCount 3 (length args))
  end.

Definition new_wand_fn : NativeFn :=
  MkNativeFn "Weapon::new_wand" None 1 (glue_new Weapon.new_wand).
Definition new_distance_fn : NativeFn :=
  MkNativeFn "Weapon::new_distance" None 1 (glue_new Weapon.new_distance).
Definition new_melee_fn : NativeFn :=
  MkNativeFn "Weapon::new_melee" None 1 (glue_new Weapon.new_melee).
Definition level_fn : NativeFn :=
  MkNativeFn "Weapon::level" (Some "Weapon") 2 (glue_set1 Weapon.level).
Definition magic_level_fn : NativeFn :=
  MkNativeFn "Weapon::magic_level" (Some "Weapon") 2 (glue_set1 Weapon.magic_level).
Definition mana_fn : NativeFn :=
  MkNativeFn "Weapon::mana" (Some "Weapon") 2 (glue_set1 Weapon.mana).
Definition damage_range_fn : NativeFn :=
  MkNativeFn "Weapon::damage_range" (Some "Weapon") 3 (glue_set2 Weapon.damage_range).
Definition break_chance_fn : NativeFn :=
  MkNativeFn "Weapon::break_chance" (Some "Weapon") 2 (glue_set1 Weapon.break_chance).

(** ** [pub fn module() -> Result<Module, ContextError>] (weapons.rs 37-51) *)
Definition module : result RuneModule ContextError :=
  let m := module_new in
  let? m := module_ty "Weapon" m in
  let? m := module_function new_wand_fn m in
  let? m := module_function new_distance_fn m in
  let? m := module_function new_melee_fn m in
  let? m := module_function level_fn m in
  let? m := module_function magic_level_fn m in
  let? m := module_function mana_fn m in
  let? m := module_function damage_range_fn m in
  let? m := module_function break_chance_fn m in
  Ok m.

(** The functions [module()] registers, in registration order. *)
Definition weapon_fns : list NativeFn :=
  [new_wand_fn; new_distance_fn; new_melee_fn; level_fn; magic_level_fn; mana_fn;
   damage_range_fn; break_chance_fn].

(** ** The heap invariant *)

Definition heap_wf (h : Heap) : Prop :=
  forall l w, heap_cells h !! l = Some (Some (AnyWeapon w)) -> weapon_wf w = true.

(** ** Lemmas on the glue *)

Lemma u32_from_value_Ok v z : u32_from_value v = Ok z -> is_u32 z = true.
Proof. destruct v; simpl; try discriminate. by destruct (is_u32 _) eqn:E; intros [= <-]. Qed.

Lemma alloc_wf w h : heap_wf h -> weapon_wf w = true -> heap_wf (alloc (AnyWeapon w) h).2.
Proof.
  intros Hh Hw l w'. simpl. destruct (decide (l = heap_next h)) as [->|].
  - rewrite lookup_insert_eq. by intros [= <-].
  - rewrite lookup_insert_ne by done. apply Hh.
Qed.

Lemma ret_weapon_wf w h v h' :
  heap_wf h -> weapon_wf w = true -> ret_weapon w h = Ok (v, h') -> heap_wf h'.
Proof. unfold ret_weapon. simpl. intros Hh Hw [= _ <-]. by apply (alloc_wf w h). Qed.

Lemma take_wf l h o h' : heap_wf h -> take l h = Ok (o, h') -> heap_wf h'.
Proof.
  unfold take. intros Hh. destruct (heap_cells h !! l) as [[o'|]|] eqn:E; try discriminate.
  intros [= _ <-] l' w'. simpl. destruct (decide (l = l')) as [<-|].
  - by rewrite lookup_insert_eq.
  - rewrite lookup_insert_ne by done. apply Hh.
Qed.

Lemma weapon_from_value_wf v h w h' :
  heap_wf h -> weapon_from_value v h = Ok (w, h') -> weapon_wf w = true /\ heap_wf h'.
Proof.
  intros Hh. destruct v as [| | |l]; simpl; try discriminate.
  intros H. inv_rbind. destruct a as [w0]. injection H as <- <-.
  split; [|by eapply take_wf].
  unfold take in Hc. destruct (heap_cells h !! l) as [[o|]|] eqn:E; try discriminate.
  injection Hc as -> _. by apply (Hh l).
Qed.

Lemma glue_new_spec p r n f :
  (forall i, is_u32 i = true -> weapon_wf (f i) = true) ->
  native_spec heap_wf (MkNativeFn p r n (glue_new f)).
Proof.
  intros Hf. split; simpl.
  intros [|v [|]] h v' h' Hh H; simpl in H; try discriminate.
    inv_rbind. eauto using ret_weapon_wf, u32_from_value_Ok.
Qed.

Lemma glue_set1_spec p r n f :
  (forall w x, is_u32 x = true -> weapon_wf w = true -> weapon_wf (f w x) = true) ->
  native_spec heap_wf (MkNativeFn p r n (glue_set1 f)).
Proof.
  intros Hf. split; simpl.
  intros [|s [|v [|]]] h v' h' Hh H; simpl in H; try discriminate.
  inv_rbind. apply weapon_from_value_wf in Hc as [Hw Hh1]; [|done].
  eauto using ret_weapon_wf, u32_from_value_Ok.
Qed.

Lemma glue_set2_spec p r n f :
  (forall w x y, is_u32 x = true -> is_u32 y = true -> weapon_wf w = true ->
     weapon_wf (f w x y) = true) ->
  native_spec heap_wf (MkNativeFn p r n (glue_set2 f)).
Proof.
  intros Hf. split; simpl.
  intros [|s [|a [|b [|]]]] h v' h' Hh H; simpl in H; try discriminate.
  inv_rbind. apply weapon_from_value_wf in Hc as [Hw Hh1]; [|done].
  eauto using ret_weapon_wf, u32_from_value_Ok.
Qed.

(** The bridge meets the runtime's interface for the weapon invariant. *)
Lemma weapon_fns_spec : Forall (native_spec heap_wf) weapon_fns.
Proof.
  unfold weapon_fns. rewrite !Forall_cons. split_and!; [..|by constructor].
  - apply glue_new_spec. apply (new_of_wf Wand).
  - apply glue_new_spec. apply (new_of_wf Distance).
  - apply glue_new_spec. apply (new_of_wf Melee).
  - apply glue_set1_spec. intros w x. apply (apply_config_wf w (SetLevel x)).
  - apply glue_set1_spec. intros w x. apply (apply_config_wf w (SetMagicLevel x)).
  - apply glue_set1_spec. intros w x. apply (apply_config_wf w (SetMana x)).
  - apply glue_set2_spec. intros w x y Hx Hy.
    apply (apply_config_wf w (SetDamageRange x y)). simpl. by rewrite Hx, Hy.
  - apply glue_set1_spec. intros w x. apply (apply_config_wf w (SetBreakChance x)).
Qed.

(** ** Decoding the script's output *)

Lemma weapons_from_values_wf vs h ws h' :
  heap_wf h -> weapons_from_values vs h = Ok (ws, h') ->
  Forall (fun w => weapon_wf w = true) ws /\ heap_wf h'.
Proof.
  revert h ws; induction vs as [|v vs IH]; intros h ws Hh H; simpl in H.
  - injection H as <- <-. by split.
  - inv_rbind. injection H as <- <-.
    apply weapon_from_value_wf in Hc as [Hw Hh0]; [|done].
    destruct (IH _ _ Hh0 Hc0). split; [by constructor | done].
Qed.

(** The objects an array refers to. *)
Definition value_locs (vs : list Value) : list loc :=
  omap (fun v => match v with VAny l => Some l | _ => None end) vs.

Lemma take_Ok_inv l h o h' :
  take l h = Ok (o, h') ->
  heap_cells h !! l = Some (Some o) /\ heap_cells h' = <[l := None]> (heap_cells h).
Proof.
  unfold take. destruct (heap_cells h !! l) as [[o'|]|]; try discriminate.
  by intros [= <- <-].
Qed.

(** Decoding succeeds only on distinct live objects: an object listed
    twice is taken the first time and found empty the second. *)
Lemma weapons_from_values_distinct vs h ws h' :
  weapons_from_values vs h = Ok (ws, h') ->
  NoDup (value_locs vs) /\
  forall l, l ∈ value_locs vs -> exists o, heap_cells h !! l = Some (Some o).
Proof.
  revert h ws h'; induction vs as [|v vs IH]; intros h ws h' H; simpl in H.
  - split; [constructor | intros l Hl; by apply elem_of_nil in Hl].
  - apply rbind_Ok_inv in H as ([w1 h1] & Hv & H).
    apply rbind_Ok_inv in H as ([ws1 h2] & Hrest & _).
    destruct v as [| | |l0]; simpl in Hv; try discriminate.
    apply rbind_Ok_inv in Hv as ([[w0] h0] & Htake & [= <- <-]).
    apply take_Ok_inv in Htake as [Hlive Hcells].
    destruct (IH _ _ _ Hrest) as [Hnd Hl1]. simpl. split.
    + constructor; [|done]. intros Hin. destruct (Hl1 l0 Hin) as [o Ho].
      simpl in Ho. by rewrite Hcells, lookup_insert_eq in Ho.
    + intros l Hl. apply elem_of_cons in Hl as [->|Hl]; [eauto|].
      destruct (Hl1 l Hl) as [o Ho]. simpl in Ho. rewrite Hcells in Ho.
      destruct (decide (l0 = l)) as [<-|]; [by rewrite lookup_insert_eq in Ho|].
      rewrite lookup_insert_ne in Ho by done. eauto.
Qed.

(** Every weapon decoded from the output of a run on a well-formed heap
    is well formed. *)
Lemma from_value_weapons_wf v h ws :
  heap_wf h -> from_value_weapons v h = Ok ws -> Forall (fun w => weapon_wf w = true) ws.
Proof.
  intros Hh. destruct v as [| |vs|l]; intros H;
    try (unfold from_value_weapons in H; destruct (type_of _ h); discriminate).
  simpl in H. apply rbind_Ok_inv in H as ([ws' h'] & Hd & [= <-]).
  by destruct (weapons_from_values_wf _ _ _ _ Hh Hd).
Qed.

(** The constructor a kind selects, as a registered function. *)
Definition new_fn (k : WeaponKind) : NativeFn :=
  match k with Wand => new_wand_fn | Melee => new_melee_fn | Distance => new_distance_fn end.

(** ** The glue raises no scope error *)

Lemma u32_from_value_scope v : scope_safe (u32_from_value v).
Proof. destruct v; simpl; try done. by destruct (is_u32 _). Qed.

Lemma weapon_from_value_scope v h : scope_safe (weapon_from_value v h).
Proof.
  destruct v as [| | |l]; simpl; try done. unfold take.
  by destruct (heap_cells h !! l) as [[[w]|]|].
Qed.

Ltac glue_scope :=
  repeat (apply rbind_scope_safe;
          [first [apply u32_from_value_scope | apply weapon_from_value_scope]
          | first [intros [? ?] _ | intros ? _]]);
  by unfold ret_weapon.

(** The bridge's handlers fail only on conversions, moved objects and
    arity: never with a scope error of the VM. *)
Lemma weapon_fns_scope_safe :
  Forall (fun nf => forall vs h, scope_safe (nf_handler nf vs h)) weapon_fns.
Proof.
  unfold weapon_fns. repeat constructor; simpl.
  1-3: intros [|v [|]] h; simpl; try done; glue_scope.
  1-3, 5: intros [|s [|v [|]]] h; simpl; try done; glue_scope.
  intros [|s [|a [|b [|]]]] h; simpl; try done; glue_scope.
Qed.

(** ** Decoding failures *)

(** An array with an element that is not an object does not decode: the
    first failing element stops the decoding. *)
Lemma weapons_from_values_non_object vs h v :
  v ∈ vs -> (forall l, v <> VAny l) -> exists e, weapons_from_values vs h = Err e.
Proof.
  revert h; induction vs as [|v' vs IH]; intros h Hin Hv; [by apply elem_of_nil in Hin|].
  simpl. apply elem_of_cons in Hin as [<-|Hin].
  - destruct v as [| | |l]; [..|by destruct (Hv l)]; simpl; by eexists.
  - destruct (weapon_from_value v' h) as [[w h1]|e]; simpl; [|by eexists].
    destruct (IH h1 Hin Hv) as [e ->]. by eexists.
Qed.

(** The decoding of [from_value::<Vec<Weapon>>] fails on a value that is
    not an array, or on an array with an element that is not an object. *)
Lemma from_value_weapons_shape_error v h :
  match v with VVec vs => exists x, x ∈ vs /\ forall l, x <> VAny l | _ => True end ->
  exists e, from_value_weapons v h = Err e.
Proof.
  destruct v as [| |vs|l]; try (unfold from_value_weapons; destruct (type_of _ h); by eexists).
  simpl.
  intros (x & Hx & Hnx). destruct (weapons_from_values_non_object vs h x Hx Hnx) as [e ->].
  by eexists.
Qed.

(** ** Theorems *)

(** [module()] succeeds (no registration conflicts) and registers the
    [Weapon] type and its eight functions, in the order of the source. *)
Lemma module_registers : module = Ok (MkRuneModule ["Weapon"] weapon_fns).
Proof. unfold module. simpl. reflexivity. Qed.

Lemma fn_registered_app p l1 l2 :
  fn_registered p (l1 ++ l2) = fn_registered p l1 || fn_registered p l2.
Proof. apply existsb_app. Qed.

Lemma fn_registered_one p f : fn_registered p [f] = bool_decide (nf_path f = p).
Proof. unfold fn_registered. simpl. by rewrite orb_false_r. Qed.

(** Installing functions with distinct fresh paths appends them. *)
Lemma install_fns_fresh fs c :
  NoDup (map nf_path fs) -> (forall f, f ∈ fs -> fn_registered (nf_path f) (ctx_fns c) = false) ->
  install_fns fs c = Ok (MkContext (ctx_types c) (ctx_fns c ++ fs)).
Proof.
  revert c; induction fs as [|f fs IH]; intros c Hnd Hfresh; simpl.
  - destruct c. simpl. by rewrite app_nil_r.
  - apply NoDup_cons in Hnd as [Hnin Hnd]. rewrite Hfresh by (by left). rewrite IH; simpl.
    + by rewrite <- app_assoc.
    + done.
    + intros f' Hf'. rewrite fn_registered_app, Hfresh by (by right). cbn [orb].
      rewrite fn_registered_one. case_bool_decide as Heq; [|done].
      exfalso. apply Hnin. rewrite Heq. by apply list_elem_of_fmap_2.
Qed.

(** Installing functions with distinct paths, one of which the context
    has already: the first such path is reported. *)
Lemma install_fns_conflict fs c :
  NoDup (map nf_path fs) ->
  (exists f, f ∈ fs /\ fn_registered (nf_path f) (ctx_fns c) = true) ->
  exists p, install_fns fs c = Err (ConflictingFunction p) /\
            fn_registered p (ctx_fns c) = true /\ p ∈ map nf_path fs.
Proof.
  revert c; induction fs as [|f fs IH]; intros c Hnd (f0 & Hf0 & Hreg); simpl;
    [by apply elem_of_nil in Hf0|].
  apply NoDup_cons in Hnd as [Hnin Hnd].
  destruct (fn_registered (nf_path f) (ctx_fns c)) eqn:Hf.
  - exists (nf_path f). split_and!; [done | done | by left].
  - apply elem_of_cons in Hf0 as [->|Hf0]; [congruence|].
    destruct (IH (MkContext (ctx_types c) (ctx_fns c ++ [f]))) as (p & Hp & Hpreg & Hpin); [done| |].
    { exists f0. split; [done|]. simpl. by rewrite fn_registered_app, Hreg. }
    exists p. split_and!; [done | | by right].
    simpl in Hpreg. rewrite fn_registered_app, fn_registered_one in Hpreg.
    apply orb_true_iff in Hpreg as [?|Hpf]; [done|].
    apply bool_decide_eq_true in Hpf. subst p. by destruct Hnin.
Qed.

Lemma weapon_fns_paths_nodup : NoDup (map nf_path weapon_fns).
Proof. apply (bool_decide_unpack _). reflexivity. Qed.

(** C8: a constructor called from a script with an integer outside [u32]
    fails with a conversion error and builds nothing; with an integer in
    range it returns a fresh object holding [Weapon::new_*(id)]. *)
Theorem new_fn_bounds k z h :
  nf_handler (new_fn k) [VInteger z] h =
  if is_u32 z then Ok (VAny (heap_next h), (alloc (AnyWeapon (new_of k z)) h).2)
  else Err (IntegerOutOfRange z).
Proof. destruct k; simpl; by destruct (is_u32 z). Qed.

(** C23: installing the weapons module into a context: a context that
    already has a type [Weapon] (the module installed before, say) makes
    the installation fail with [ConflictingType "Weapon"]; otherwise, a
    context that already registers one of the eight paths makes it fail
    with [ConflictingFunction] of such a path; a context free of both gets
    the type and the eight functions after its own.  A second installation
    of the module is a configuration error, never a silent override. *)
Theorem install_module m c :
  module = Ok m ->
  ("Weapon" ∈ ctx_types c ->
     install m c = Err (ConflictingType "Weapon")) /\
  ("Weapon" ∉ ctx_types c ->
     (exists f, f ∈ weapon_fns /\ fn_registered (nf_path f) (ctx_fns c) = true) ->
     exists p, install m c = Err (ConflictingFunction p) /\
               fn_registered p (ctx_fns c) = true) /\
  ("Weapon" ∉ ctx_types c ->
     (forall f, f ∈ weapon_fns -> fn_registered (nf_path f) (ctx_fns c) = false) ->
     install m c =
       Ok (MkContext (ctx_types c ++ ["Weapon"]) (ctx_fns c ++ weapon_fns))).
Proof.
  rewrite module_registers. intros [= <-].
  unfold install. cbn [mod_types mod_fns install_types]. split_and!.
  - intros Hin. by rewrite bool_decide_true.
  - intros Hnin Hreg. rewrite bool_decide_false by done. cbn [rbind install_types].
    destruct (install_fns_conflict weapon_fns (MkContext (ctx_types c ++ ["Weapon"]) (ctx_fns c))
                weapon_fns_paths_nodup Hreg) as (p & Hp & Hpreg & _).
    eauto.
  - intros Hnin Hfresh. rewrite bool_decide_false by done. cbn [rbind install_types].
    rewrite (install_fns_fresh weapon_fns (MkContext (ctx_types c ++ ["Weapon"]) (ctx_fns c)));
      [done | apply weapon_fns_paths_nodup | done].
Qed.

(** ** Witnesses *)

(** A heap holding [Weapon::new_wand(1)] in cell 0. *)
Definition wand_heap : Heap := (alloc (AnyWeapon (Weapon.new_wand 1)) empty_heap).2.

(** The context after one installation, on which a second one fails. *)
Lemma install_module_witness :
  module = Ok (MkRuneModule ["Weapon"] weapon_fns) /\
  install (MkRuneModule ["Weapon"] weapon_fns)
    (MkContext (ctx_types default_context ++ ["Weapon"]) weapon_fns) = Err (ConflictingType "Weapon").
Proof.
  split; [reflexivity|].
  apply (install_module (MkRuneModule ["Weapon"] weapon_fns)
           (MkContext (ctx_types default_context ++ ["Weapon"]) weapon_fns)); [reflexivity|].
  simpl. set_solver.
Defined.
