(* ===== verification/Script.v ===== *)
(** * Script: fluent chains in a script compute the Rust builder

    A script builds a weapon as [Weapon::new_<k>(i).c1(..).c2(..)...]: a
    call of a constructor followed by method calls of the setters.  This
    file relates the three layers such a chain crosses: the VM of file
    [Rune] resolves each method by the receiver's type, the glue of file
    [Bridge] converts the arguments and moves the receiver, and the builder
    of file [Weapons] computes the weapon.  The theorem: with enough fuel,
    evaluating the chain yields a fresh object holding exactly
    [build_chain k i cs], the weapon the same calls build in Rust; a number
    outside [u32] fails the chain with the first such number; and a second
    call on a reference whose object a setter has moved is an access
    error. *)

From stdpp Require Import strings.
From S2P Require Import Prelude Weapons Rune Bridge.

(** ** Chains as script expressions *)

(** The method name and the arguments of one fluent call. *)
Definition config_name (c : config) : string :=
  match c with
  | SetLevel _ => "level"
  | SetMagicLevel _ => "magic_level"
  | SetMana _ => "mana"
  | SetDamageRange _ _ => "damage_range"
  | SetBreakChance _ => "break_chance"
  end.

Definition config_args (c : config) : list expr :=
  match c with
  | SetLevel v | SetMagicLevel v | SetMana v | SetBreakChance v => [ELit v]
  | SetDamageRange a b => [ELit a; ELit b]
  end.

(** The registered function a fluent call resolves to. *)
Definition config_fn (c : config) : NativeFn :=
  match c with
  | SetLevel _ => level_fn
  | SetMagicLevel _ => magic_level_fn
  | SetMana _ => mana_fn
  | SetDamageRange _ _ => damage_range_fn
  | SetBreakChance _ => break_chance_fn
  end.

Fixpoint chain_from (e : expr) (cs : list config) : expr :=
  match cs with
  | [] => e
  | c :: cs' => chain_from (EMethod e (config_name c) (config_args c)) cs'
  end.

(** [Weapon::new_<k>(i).c1(..)...] *)
Definition chain_expr (k : WeaponKind) (i : Z) (cs : list config) : expr :=
  chain_from (ECall (nf_path (new_fn k)) [ELit i]) cs.

(** The first number of a call that is not a [u32], in the order the
    glue converts the arguments. *)
Definition config_first_bad (c : config) : option Z :=
  match c with
  | SetLevel v | SetMagicLevel v | SetMana v | SetBreakChance v =>
      if is_u32 v then None else Some v
  | SetDamageRange a b =>
      if is_u32 a then (if is_u32 b then None else Some b) else Some a
  end.

Fixpoint configs_first_bad (cs : list config) : option Z :=
  match cs with
  | [] => None
  | c :: cs' => match config_first_bad c with Some z => Some z | None => configs_first_bad cs' end
  end.

(** The first out-of-range number of a whole chain, the id first. *)
Definition chain_first_bad (i : Z) (cs : list config) : option Z :=
  if is_u32 i then configs_first_bad cs else Some i.

(** ** Lemmas *)

Lemma config_first_bad_None c : config_first_bad c = None -> config_wf c = true.
Proof.
  destruct c as [v|v|v|a b|v]; simpl; repeat destruct (is_u32 _); done.
Qed.

Lemma chain_from_app e cs1 cs2 : chain_from e (cs1 ++ cs2) = chain_from (chain_from e cs1) cs2.
Proof. revert e; induction cs1 as [|c cs1 IH]; intros e; simpl; [done | apply IH]. Qed.

(** A chain with an out-of-range number: the calls before it are in range. *)
Lemma configs_first_bad_Some cs z :
  configs_first_bad cs = Some z ->
  exists cs1 c cs2, cs = cs1 ++ c :: cs2 /\ Forall (fun c => config_wf c = true) cs1 /\
                    config_first_bad c = Some z.
Proof.
  induction cs as [|c cs IH]; simpl; [discriminate|].
  destruct (config_first_bad c) as [z'|] eqn:Hc.
  - intros [= ->]. by exists [], c, cs.
  - intros Hz. destruct (IH Hz) as (cs1 & c' & cs2 & -> & Hcs1 & Hc').
    exists (c :: cs1), c', cs2. split_and!; [done | | done].
    constructor; [by apply config_first_bad_None | done].
Qed.


Lemma find_fn_config c :
  find_fn ("Weapon" +:+ "::" +:+ config_name c) weapon_fns = Some (config_fn c).
Proof. by destruct c. Qed.

Lemma find_fn_new k : find_fn (nf_path (new_fn k)) weapon_fns = Some (new_fn k).
Proof. by destruct k. Qed.

(** The glue of a setter on a live object: the object is moved out and
    the updated weapon returned as a fresh object. *)
Lemma config_fn_handler c l w h vs :
  heap_cells h !! l = Some (Some (AnyWeapon w)) -> config_wf c = true ->
  eval_list (fun e h => match e with ELit z => Ok (VInteger z, h) | _ => Err OutOfFuel end)
    (config_args c) h = Ok (vs, h) ->
  call_native (config_fn c) (VAny l :: vs) h =
  Ok (VAny (heap_next h),
      (alloc (AnyWeapon (apply_config w c)) (MkHeap (<[l := None]> (heap_cells h)) (heap_next h))).2).
Proof.
  intros Hl Hc Hvs. destruct c as [v|v|v|a b|v]; simpl in Hvs, Hc |- *;
    injection Hvs as <-; unfold call_native; simpl; unfold take; rewrite Hl; simpl.
  all: try rewrite Hc; try (apply andb_true_iff in Hc as [-> ->]); reflexivity.
Qed.

(** The glue of a setter given an out-of-range number fails with it. *)
Lemma config_fn_handler_bad c l w h vs z :
  heap_cells h !! l = Some (Some (AnyWeapon w)) -> config_first_bad c = Some z ->
  eval_list (fun e h => match e with ELit z => Ok (VInteger z, h) | _ => Err OutOfFuel end)
    (config_args c) h = Ok (vs, h) ->
  call_native (config_fn c) (VAny l :: vs) h = Err (IntegerOutOfRange z).
Proof.
  intros Hl Hc Hvs. destruct c as [v|v|v|a b|v]; simpl in Hvs, Hc |- *;
    injection Hvs as <-; unfold call_native; simpl; unfold take; rewrite Hl; simpl.
  all: repeat destruct (is_u32 _); simpl; congruence.
Qed.

(** The heap [h'] extends [h]: it allocated past [h]'s objects and left
    every cell of [h] as it was. *)
Definition heap_ext (h h' : Heap) : Prop :=
  (heap_next h <= heap_next h')%nat /\
  forall l, (l < heap_next h)%nat -> heap_cells h' !! l = heap_cells h !! l.

Lemma heap_ext_refl h : heap_ext h h.
Proof. by split. Qed.

Lemma heap_ext_trans h1 h2 h3 : heap_ext h1 h2 -> heap_ext h2 h3 -> heap_ext h1 h3.
Proof.
  intros [Hn1 Hc1] [Hn2 Hc2]. split; [lia|]. intros l Hl. rewrite Hc2 by lia. by apply Hc1.
Qed.

Lemma alloc_heap_ext o h : heap_ext h (alloc o h).2.
Proof. split; simpl; [lia|]. intros l Hl. by rewrite lookup_insert_ne by lia. Qed.

(** Moving out an object allocated after [h] and allocating the result. *)
Lemma take_alloc_heap_ext o h h1 l :
  heap_ext h h1 -> (heap_next h <= l)%nat ->
  heap_ext h (alloc o (MkHeap (<[l := None]> (heap_cells h1)) (heap_next h1))).2.
Proof.
  intros [Hn Hc] Hl. split; simpl; [lia|]. intros l0 Hl0.
  rewrite lookup_insert_ne, lookup_insert_ne by lia. by apply Hc.
Qed.

Section Chains.
Context (u : Unit) (env : list (string * Value)).

(** Evaluating the literal arguments of a fluent call. *)
Lemma eval_config_args n c h :
  (1 <= n)%nat ->
  eval_list (eval n weapon_fns u env) (config_args c) h =
  eval_list (fun e h => match e with ELit z => Ok (VInteger z, h) | _ => Err OutOfFuel end)
    (config_args c) h.
Proof. intros Hn. destruct n as [|n]; [lia|]. by destruct c. Qed.

(** An expression that evaluates with every fuel from [N] on needs some. *)
Lemma eval_Ok_fuel_pos N e h r :
  (forall m, (N <= m)%nat -> eval m weapon_fns u env e h = Ok r) -> (1 <= N)%nat.
Proof. intros He. destruct N; [|lia]. specialize (He 0%nat (le_n 0)). discriminate. Qed.

Lemma eval_config_args_Ok n c h :
  (1 <= n)%nat ->
  exists vs, eval_list (eval n weapon_fns u env) (config_args c) h = Ok (vs, h) /\
    eval_list (fun e h => match e with ELit z => Ok (VInteger z, h) | _ => Err OutOfFuel end)
      (config_args c) h = Ok (vs, h).
Proof. intros Hn. rewrite eval_config_args by done. destruct c; eexists; split; reflexivity. Qed.

(** One fluent call on an expression that evaluates to a live object: the
    object is moved out of its cell and the updated weapon is a fresh
    object. *)
Lemma eval_method_moves N e c l w h h1 :
  (forall m, (N <= m)%nat -> eval m weapon_fns u env e h = Ok (VAny l, h1)) ->
  heap_cells h1 !! l = Some (Some (AnyWeapon w)) -> config_wf c = true ->
  forall m, (S N <= m)%nat ->
    eval m weapon_fns u env (EMethod e (config_name c) (config_args c)) h =
    Ok (VAny (heap_next h1),
        (alloc (AnyWeapon (apply_config w c)) (MkHeap (<[l := None]> (heap_cells h1)) (heap_next h1))).2).
Proof.
  intros He Hl Hc m Hm.
  pose proof (eval_Ok_fuel_pos N e h _ He) as HN.
  destruct m as [|m]; [lia|]. cbn [eval]. rewrite He by lia. cbn [rbind].
  destruct (eval_config_args_Ok m c h1) as (vs & -> & Hvs); [lia|]. cbn [rbind type_of].
  rewrite Hl. cbn [rbind]. rewrite find_fn_config, bool_decide_true by (by destruct c).
  by apply config_fn_handler.
Qed.

(** One fluent call, with the frame of its effect on the heap. *)
Lemma eval_method_step N e c l w h h1 :
  (forall m, (N <= m)%nat -> eval m weapon_fns u env e h = Ok (VAny l, h1)) ->
  heap_cells h1 !! l = Some (Some (AnyWeapon w)) -> config_wf c = true ->
  heap_ext h h1 -> (heap_next h <= l)%nat ->
  exists l' h2,
    (forall m, (S N <= m)%nat ->
       eval m weapon_fns u env (EMethod e (config_name c) (config_args c)) h = Ok (VAny l', h2)) /\
    heap_cells h2 !! l' = Some (Some (AnyWeapon (apply_config w c))) /\
    heap_ext h h2 /\ (heap_next h <= l' < heap_next h2)%nat.
Proof.
  intros He Hl Hc Hext Hlo.
  eexists _, _. split; [by apply (eval_method_moves N e c l w h h1)|].
  split_and!; [simpl; by rewrite lookup_insert_eq | by apply take_alloc_heap_ext | |];
      destruct Hext; simpl; lia.
Qed.

Lemma eval_chain_from cs N e w l h h1 :
  (forall m, (N <= m)%nat -> eval m weapon_fns u env e h = Ok (VAny l, h1)) ->
  heap_cells h1 !! l = Some (Some (AnyWeapon w)) -> Forall (fun c => config_wf c = true) cs ->
  heap_ext h h1 -> (heap_next h <= l < heap_next h1)%nat ->
  exists l' h2,
    (forall m, (N + length cs <= m)%nat -> eval m weapon_fns u env (chain_from e cs) h = Ok (VAny l', h2)) /\
    heap_cells h2 !! l' = Some (Some (AnyWeapon (fold_left apply_config cs w))) /\
    heap_ext h h2 /\ (heap_next h <= l' < heap_next h2)%nat.
Proof.
  revert N e w l h1; induction cs as [|c cs IH]; intros N e w l h1 He Hl Hcs Hext Hb; simpl.
  - exists l, h1. split; [|done]. intros m Hm. apply He. lia.
  - apply Forall_cons in Hcs as [Hc Hcs].
    destruct (eval_method_step N e c l w h h1 He Hl Hc Hext ltac:(lia))
      as (l1 & h2 & He1 & Hl1 & Hext1 & Hb1).
    destruct (IH (S N) _ _ _ _ He1 Hl1 Hcs Hext1 Hb1) as (l' & h3 & He' & Hrest).
    exists l', h3. split; [|done]. intros m Hm. apply He'. lia.
Qed.

(** The constructor call of a chain, with an id in range. *)
Lemma eval_new_call k i h :
  find_item (nf_path (new_fn k)) u = None -> is_u32 i = true ->
  forall m, (2 <= m)%nat ->
  eval m weapon_fns u env (ECall (nf_path (new_fn k)) [ELit i]) h =
  Ok (VAny (heap_next h), (alloc (AnyWeapon (new_of k i)) h).2).
Proof.
  intros Hu Hi m Hm. destruct m as [|[|m]]; [lia|lia|]. cbn [eval eval_list rbind].
  rewrite Hu, find_fn_new. unfold call_native. destruct k; simpl; by rewrite Hi.
Qed.

(** A whole chain with numbers in range: a fresh object holding the
    built weapon, in a heap that extends the initial one. *)
Lemma eval_chain_expr k i cs h :
  find_item (nf_path (new_fn k)) u = None -> is_u32 i = true ->
  Forall (fun c => config_wf c = true) cs ->
  exists l h',
    (forall m, (2 + length cs <= m)%nat ->
       eval m weapon_fns u env (chain_expr k i cs) h = Ok (VAny l, h')) /\
    heap_cells h' !! l = Some (Some (AnyWeapon (build_chain k i cs))) /\
    heap_ext h h' /\ (heap_next h <= l < heap_next h')%nat.
Proof.
  intros Hu Hi Hcs.
  apply (eval_chain_from cs 2 _ (new_of k i) (heap_next h) h _ (eval_new_call k i h Hu Hi));
    [simpl; by rewrite lookup_insert_eq | done | apply alloc_heap_ext | simpl; lia].
Qed.

(** A fault of the receiver's expression stops every later call. *)
Lemma eval_chain_from_err cs N e err h :
  (forall m, (N <= m)%nat -> eval m weapon_fns u env e h = Err err) ->
  forall m, (N + length cs <= m)%nat -> eval m weapon_fns u env (chain_from e cs) h = Err err.
Proof.
  revert N e; induction cs as [|c cs IH]; intros N e He m Hm; simpl in *.
  - apply He. lia.
  - apply (IH (S N)); [|lia]. intros m' Hm'. destruct m' as [|m']; [lia|].
    cbn [eval]. rewrite He by lia. done.
Qed.

(** A fluent call with an out-of-range number on a live object fails
    with that number. *)
Lemma eval_method_bad N e c l w h h1 z :
  (forall m, (N <= m)%nat -> eval m weapon_fns u env e h = Ok (VAny l, h1)) ->
  heap_cells h1 !! l = Some (Some (AnyWeapon w)) -> config_first_bad c = Some z ->
  forall m, (S N <= m)%nat ->
    eval m weapon_fns u env (EMethod e (config_name c) (config_args c)) h = Err (IntegerOutOfRange z).
Proof.
  intros He Hl Hc m Hm.
  pose proof (eval_Ok_fuel_pos N e h _ He) as HN.
  destruct m as [|m]; [lia|]. cbn [eval]. rewrite He by lia. cbn [rbind].
  destruct (eval_config_args_Ok m c h1) as (vs & -> & Hvs); [lia|]. cbn [rbind type_of].
  rewrite Hl. cbn [rbind]. rewrite find_fn_config, bool_decide_true by (by destruct c).
  by eapply config_fn_handler_bad.
Qed.

(** A fluent call on an object that was moved out of its cell fails with
    an access error when the VM reads the receiver's type. *)
Lemma eval_method_taken N e c l h h1 :
  (forall m, (N <= m)%nat -> eval m weapon_fns u env e h = Ok (VAny l, h1)) ->
  heap_cells h1 !! l = Some None ->
  forall m, (S N <= m)%nat ->
    eval m weapon_fns u env (EMethod e (config_name c) (config_args c)) h = Err (AccessError l).
Proof.
  intros He Hl m Hm. pose proof (eval_Ok_fuel_pos N e h _ He) as HN.
  destruct m as [|m]; [lia|]. cbn [eval]. rewrite He by lia. cbn [rbind].
  destruct (eval_config_args_Ok m c h1) as (vs & -> & _); [lia|]. cbn [rbind type_of].
  by rewrite Hl.
Qed.

(** The constructor call with an id outside [u32]. *)
Lemma eval_new_call_bad k i h :
  find_item (nf_path (new_fn k)) u = None -> is_u32 i = false ->
  forall m, (2 <= m)%nat ->
  eval m weapon_fns u env (ECall (nf_path (new_fn k)) [ELit i]) h = Err (IntegerOutOfRange i).
Proof.
  intros Hu Hi m Hm. destruct m as [|[|m]]; [lia|lia|]. cbn [eval eval_list rbind].
  rewrite Hu, find_fn_new. unfold call_native. destruct k; simpl; by rewrite Hi.
Qed.

(** A chain with an out-of-range number fails with the first one. *)
Lemma eval_chain_out_of_range k i cs h fuel z :
  find_item (nf_path (new_fn k)) u = None -> chain_first_bad i cs = Some z ->
  (2 + length cs <= fuel)%nat ->
  eval fuel weapon_fns u env (chain_expr k i cs) h = Err (IntegerOutOfRange z).
Proof.
  intros Hu Hz Hf. unfold chain_first_bad in Hz. unfold chain_expr.
  destruct (is_u32 i) eqn:Hi.
  - destruct (configs_first_bad_Some cs z Hz) as (cs1 & c & cs2 & -> & Hcs1 & Hc).
    rewrite chain_from_app. simpl.
    destruct (eval_chain_expr k i cs1 h Hu Hi Hcs1) as (l & h' & He & Hl & _).
    apply (eval_chain_from_err cs2 (S (2 + length cs1))); [|rewrite length_app in Hf; simpl in Hf; lia].
    by eapply eval_method_bad.
  - injection Hz as <-. apply (eval_chain_from_err cs 2); [|lia].
    by apply eval_new_call_bad.
Qed.

End Chains.

(** The variable bound last. *)
Lemma eval_var_head m u x v env g :
  (1 <= m)%nat -> eval m weapon_fns u ((x, v) :: env) (EVar x) g = Ok (v, g).
Proof.
  intros Hm. destruct m as [|m]; [lia|]. cbn [eval]. unfold lookup_local. simpl.
  by rewrite bool_decide_true.
Qed.

(** ** Theorem *)

(** C20: a fluent chain in a script computes the Rust builder: for every
    kind, id and list of calls with [u32] arguments, in a unit that does not
    shadow the constructor's path, evaluating
    [Weapon::new_<k>(i).c1(..)...] with fuel at least two plus the number
    of calls yields a fresh object holding exactly [build_chain k i cs]. *)
Theorem script_chain_builds u env k i cs h fuel :
  find_item (nf_path (new_fn k)) u = None -> is_u32 i = true ->
  Forall (fun c => config_wf c = true) cs -> (2 + length cs <= fuel)%nat ->
  exists l h', eval fuel weapon_fns u env (chain_expr k i cs) h = Ok (VAny l, h') /\
    heap_cells h' !! l = Some (Some (AnyWeapon (build_chain k i cs))).
Proof.
  intros Hu Hi Hcs Hf.
  destruct (eval_chain_expr u env k i cs h Hu Hi Hcs) as (l & h' & He & Hl & _).
  exists l, h'. split; [apply He; lia | done].
Qed.

(** C21: the bounds of a script chain: when a number of
    [Weapon::new_<k>(i).c1(..)...] is outside [u32], evaluating the chain
    with fuel at least two plus the number of calls fails with
    [IntegerOutOfRange] of the first such number in evaluation order (the id
    first, then the calls from left to right, [value_min] before
    [value_max]); no later call runs. *)
Theorem script_chain_out_of_range u env k i cs h fuel z :
  find_item (nf_path (new_fn k)) u = None -> chain_first_bad i cs = Some z ->
  (2 + length cs <= fuel)%nat ->
  eval fuel weapon_fns u env (chain_expr k i cs) h = Err (IntegerOutOfRange z).
Proof. apply eval_chain_out_of_range. Qed.

(** C7: a fluent setter takes its receiver by value: in the script
    [let x = Weapon::new_<k>(i); x.c(..); x.c'(..)] the first call moves
    the weapon out of the object [x] refers to (the updated weapon is a
    fresh object), so the second call on the same reference fails with an
    access error on that object, whatever the two calls are. *)
Theorem script_setter_moves_receiver u env k i x c c' h fuel :
  find_item (nf_path (new_fn k)) u = None -> is_u32 i = true -> config_wf c = true ->
  (4 <= fuel)%nat ->
  eval fuel weapon_fns u env
    (ELet x (ECall (nf_path (new_fn k)) [ELit i])
       (ESeq (EMethod (EVar x) (config_name c) (config_args c))
             (EMethod (EVar x) (config_name c') (config_args c'))))
    h = Err (AccessError (heap_next h)).
Proof.
  intros Hu Hi Hc Hf. destruct fuel as [|fuel]; [lia|]. cbn [eval].
  rewrite (eval_new_call u env k i h Hu Hi) by lia. cbn [rbind].
  destruct fuel as [|fuel]; [lia|]. cbn [eval].
  set (env' := (x, VAny (heap_next h)) :: env).
  assert (Hl : heap_cells (alloc (AnyWeapon (new_of k i)) h).2 !! heap_next h =
                Some (Some (AnyWeapon (new_of k i)))) by (simpl; by rewrite lookup_insert_eq).
  rewrite (eval_method_moves u env' 1 (EVar x) c (heap_next h) (new_of k i) _ _
             (fun m Hm => eval_var_head m u x _ env _ Hm) Hl Hc) by lia.
  cbn [rbind].
  apply (eval_method_taken u env' 1 (EVar x) c' _ _ _ (fun m Hm => eval_var_head m u x _ env _ Hm));
    [simpl; rewrite lookup_insert_ne by lia; by rewrite lookup_insert_eq | lia].
Qed.

(** ** Witness *)

Lemma script_chain_builds_witness :
  exists l h', eval 4 weapon_fns (MkUnit []) [] (chain_expr Wand 1 [SetLevel 30; SetDamageRange 20 30])
                 empty_heap = Ok (VAny l, h') /\
    heap_cells h' !! l = Some (Some (AnyWeapon (build_chain Wand 1 [SetLevel 30; SetDamageRange 20 30]))).
Proof.
  apply script_chain_builds; [reflexivity | reflexivity | repeat constructor | simpl; lia].
Defined.

Lemma script_chain_out_of_range_witness :
  eval 4 weapon_fns (MkUnit []) [] (chain_expr Wand 1 [SetLevel 30; SetDamageRange (-1) (2 ^ 32)])
    empty_heap = Err (IntegerOutOfRange (-1)).
Proof. apply script_chain_out_of_range; [reflexivity | reflexivity | simpl; lia]. Defined.

(** [let s = Weapon::new_wand(1); s.level(30); s.level(40)] *)
Lemma script_setter_moves_receiver_witness :
  eval 4 weapon_fns (MkUnit []) [] (ELet "s" (ECall (nf_path (new_fn Wand)) [ELit 1])
    (ESeq (EMethod (EVar "s") (config_name (SetLevel 30)) (config_args (SetLevel 30)))
          (EMethod (EVar "s") (config_name (SetLevel 40)) (config_args (SetLevel 40)))))
    empty_heap = Err (AccessError (heap_next empty_heap)).
Proof. apply script_setter_moves_receiver; reflexivity || lia. Defined.
