(* ===== verification/RuneContext.v ===== *)
(** * RuneContext: the script engine context (rune_context.rs)

    [RuneContext::new] builds the default context, installs the weapons
    module, compiles the sources collecting diagnostics, writes the
    diagnostics to stderr when there are any, and only then inspects the
    compilation result; it finally asks the context for its runtime.  Every
    [?] is an early return of an [anyhow::Error], here [AppError].  The
    stderr writer is the environment parameter [stderr_ok] (whether writing
    succeeds), and what it prints is the log, a list of [LogEvent]s.

    [RuneContext::vm] makes a VM that shares the runtime and the unit.

    Theorems: with a script that compiles, construction succeeds with the
    bridge's functions as runtime and the compiled unit; with one that does
    not, it fails with the compile error after logging the diagnostics; a
    failed write of the diagnostics makes construction fail even when the
    script compiles; and [new] refines the context's state machine
    [ctx_step] (Uninitialized, Compiling, Ready, CompileFailed). *)

From stdpp Require Import strings.
From S2P Require Import Prelude Weapons Rune Scope Bridge.

(** [anyhow::Error], by origin. *)
Inductive AppError :=
  | EContext (e : ContextError)
  | EBuild (e : BuildError)
  | EEmit
  | EVm (e : VmError)
  | EDecode (e : VmError).

#[export] Instance BuildError_eq_dec : EqDecision BuildError.
Proof. solve_decision. Defined.
#[export] Instance AppError_eq_dec : EqDecision AppError.
Proof. solve_decision. Defined.

Inductive LogEvent :=
  | LogDiagnostics (ds : Diagnostics)
  | LogError (e : AppError).

(** The [Resource]: both fields are shared ([Arc]) and never mutated. *)
Record RuneContext := MkRuneContext {
  rc_runtime : RuntimeContext;
  rc_unit : Unit
}.

(** [rune_modules::default_context()?; context.install(weapons::module()?)?] *)
Definition setup_context : result Context AppError :=
  let? context := map_err EContext (Ok default_context) in
  let? m := map_err EContext module in
  map_err EContext (install m context).

(** rune_context.rs 20-47 *)
Definition new (stderr_ok : bool) (sources : Sources) : list LogEvent * result RuneContext AppError :=
  match setup_context with
  | Err e => ([], Err e)
  | Ok context =>
      let '(diagnostics, unit) := build context sources in
      let '(log, emitted) :=
        if bool_decide (diagnostics <> []) then
          if stderr_ok then ([LogDiagnostics diagnostics], Ok tt) else ([], Err EEmit)
        else ([], Ok tt) in
      (log,
        let? _ := emitted in
        let? unit := map_err EBuild unit in
        let? runtime := map_err EContext (runtime context) in
        Ok (MkRuneContext runtime unit))
  end.

(** rune_context.rs 50-52 *)
Definition vm (self : RuneContext) : Vm := vm_new (rc_runtime self) (rc_unit self).

(** The context after the module is installed. *)
Definition weapons_context : Context :=
  MkContext (ctx_types default_context ++ ["Weapon"]) weapon_fns.

(** ** Lemmas *)

Lemma setup_context_ok : setup_context = Ok weapons_context.
Proof. unfold setup_context. rewrite module_registers. simpl. reflexivity. Qed.

Lemma new_spec stderr_ok sources :
  new stderr_ok sources =
  let '(ds, unit) := build weapons_context sources in
  (if bool_decide (ds <> []) then if stderr_ok then [LogDiagnostics ds] else [] else [],
   if bool_decide (ds <> []) && negb stderr_ok then Err EEmit
   else match unit with
        | Ok u => Ok (MkRuneContext weapon_fns u)
        | Err e => Err (EBuild e)
        end).
Proof.
  unfold new. rewrite setup_context_ok. destruct (build weapons_context sources) as [ds [u|e]].
  all: destruct (bool_decide (ds <> [])), stderr_ok; reflexivity.
Qed.

(** A failed build reports an error. *)
Lemma build_Err_errors c sources ds e : build c sources = (ds, Err e) -> has_errors ds = true.
Proof.
  intros Hb. pose proof (build_result c sources) as Hr. rewrite Hb in Hr. simpl in Hr.
  destruct (has_errors ds); congruence.
Qed.

(** ** Theorems *)

(** C10: when the sources compile and the diagnostics (warnings only) can
    be written, [RuneContext::new] reaches [Ready]: its runtime is the
    bridge's functions and its unit the compiled program; the warnings, if
    any, were printed first. *)
Theorem new_ready stderr_ok sources ds u :
  build weapons_context sources = (ds, Ok u) -> (ds = [] \/ stderr_ok = true) ->
  new stderr_ok sources =
  (if bool_decide (ds <> []) then [LogDiagnostics ds] else [],
   Ok (MkRuneContext weapon_fns u)).
Proof.
  intros Hb Hds. rewrite new_spec, Hb.
  destruct Hds as [-> | ->]; [reflexivity|]. by destruct (bool_decide _).
Qed.

(** C9: sources that do not compile (for instance one with a syntax
    error) never reach [Ready]: [new] fails with the compile error, after
    the diagnostics, which contain an error, have been printed. *)
Theorem new_compile_failed sources ds e :
  build weapons_context sources = (ds, Err e) ->
  has_errors ds = true /\ new true sources = ([LogDiagnostics ds], Err (EBuild e)).
Proof.
  intros Hb. pose proof (build_Err_errors _ _ _ _ Hb) as He.
  split; [done|]. rewrite new_spec, Hb. rewrite bool_decide_true; [done|].
  by apply has_errors_nonempty.
Qed.

(** C11: a failure to write the diagnostics to stderr is itself a
    construction failure, even when the sources compile (the [?] after
    [diagnostics.emit]). *)
Theorem new_emit_failure sources :
  (build weapons_context sources).1 <> [] -> (new false sources).2 = Err EEmit.
Proof.
  intros Hds. rewrite new_spec. destruct (build weapons_context sources) as [ds r].
  simpl in *. rewrite bool_decide_true by done. reflexivity.
Qed.

(** A context [new] returns holds the unit the build produced. *)
Lemma new_Ok_build stderr_ok sources ctx :
  (new stderr_ok sources).2 = Ok ctx ->
  rc_runtime ctx = weapon_fns /\ exists ds, build weapons_context sources = (ds, Ok (rc_unit ctx)).
Proof.
  rewrite new_spec. destruct (build weapons_context sources) as [ds [u|e]]; simpl.
  all: destruct (bool_decide (ds <> [])), stderr_ok; simpl; intros H;
    first [discriminate | injection H as <-; eauto].
Qed.

(** [new] fails only on the write of the diagnostics or on the build. *)
Lemma new_Err_origin stderr_ok sources e :
  (new stderr_ok sources).2 = Err e -> e = EEmit \/ exists b, e = EBuild b.
Proof.
  rewrite new_spec. destruct (build weapons_context sources) as [ds [u|b]]; simpl.
  all: destruct (bool_decide (ds <> [])), stderr_ok; simpl; intros H;
    first [discriminate | injection H as <-; eauto].
Qed.

(** Every context [new] returns dispatches through the bridge's functions. *)
Lemma new_Ok_runtime stderr_ok sources ctx :
  (new stderr_ok sources).2 = Ok ctx -> rc_runtime ctx = weapon_fns.
Proof. intros H. by apply new_Ok_build in H as [? _]. Qed.

(** C16: the compiler's scope check is sound for the program's VM: for
    every script, a VM made from the context [RuneContext::new] returns,
    running any entry function with any arguments and any fuel, never
    faults with an unbound local or an unknown function (the bridge's
    functions raise neither); a script the program accepts can fail at run
    time only on a conversion, a moved object, an arity or a method lookup. *)
Theorem vm_scope_safe stderr_ok sources ctx name args ex n :
  (new stderr_ok sources).2 = Ok ctx -> execute (vm ctx) name args = Ok ex ->
  scope_safe (complete n ex).
Proof.
  intros Hn Hex. destruct (new_Ok_build _ _ _ Hn) as [Hrt [ds Hb]].
  unfold vm in Hex. rewrite Hrt in Hex.
  exact (compiled_scope_safe weapons_context sources ds (rc_unit ctx) name args ex n Hb
           weapon_fns_scope_safe Hex).
Qed.

(** ** Witnesses *)

(** A script whose [main] drops a literal: it compiles with a warning. *)
Definition warned_sources : Sources :=
  [MkSource "entry" (Some [MkItemFn "main" [] (ESeq (ELit 0) (EVec []))])].

Lemma new_ready_witness :
  new true warned_sources =
  ([LogDiagnostics [DWarning NotUsed]],
   Ok (MkRuneContext weapon_fns (MkUnit [MkItemFn "main" [] (ESeq (ELit 0) (EVec []))]))).
Proof.
  apply (new_ready true warned_sources [DWarning NotUsed]); [reflexivity | by right].
Defined.

Lemma new_compile_failed_witness :
  has_errors [DError (ParseError "entry")] = true /\
  new true [MkSource "entry" None] =
    ([LogDiagnostics [DError (ParseError "entry")]], Err (EBuild BuildFailed)).
Proof. apply new_compile_failed. reflexivity. Defined.

Lemma new_emit_failure_witness : (new false warned_sources).2 = Err EEmit.
Proof. apply new_emit_failure. simpl. discriminate. Defined.

(** ** The context's state machine

    The spec's [Uninitialized -> Compiling -> Ready | CompileFailed]: the
    first step builds the base context with the bridge's type and eight
    functions installed (the spec's context, written out here rather than
    computed by [setup_context]); compiling against it gives [Ready] with
    its functions as runtime, or [CompileFailed] with the diagnostics.  The
    machine says nothing of stderr. *)

Inductive ContextState :=
  | Uninitialized
  | Compiling (c : Context)
  | Ready (rc : RuneContext)
  | CompileFailed (ds : Diagnostics).

Inductive ctx_step (sources : Sources) : ContextState -> ContextState -> Prop :=
  | step_setup : ctx_step sources Uninitialized (Compiling weapons_context)
  | step_ready c ds u :
      build c sources = (ds, Ok u) ->
      ctx_step sources (Compiling c) (Ready (MkRuneContext (ctx_fns c) u))
  | step_compile_failed c ds e :
      build c sources = (ds, Err e) -> ctx_step sources (Compiling c) (CompileFailed ds).

Definition reachable (sources : Sources) : ContextState -> Prop :=
  rtc (ctx_step sources) Uninitialized.

Lemma ready_terminal sources rc s : ~ ctx_step sources (Ready rc) s.
Proof. inversion 1. Qed.

Lemma compile_failed_terminal sources ds s : ~ ctx_step sources (CompileFailed ds) s.
Proof. inversion 1. Qed.

(** C15: [RuneContext::new] refines the state machine, on every input:
    it returns a context exactly at a reachable [Ready] state, fails with a
    compile error exactly at a reachable [CompileFailed] state whose
    diagnostics contain an error, and otherwise fails only because
    non-empty diagnostics could not be written (the one way the code
    leaves the machine); conversely every reachable [Ready] state is what
    [new] returns as soon as the diagnostics can be written. *)
Theorem new_refines_machine stderr_ok sources :
  match (new stderr_ok sources).2 with
  | Ok rc => reachable sources (Ready rc)
  | Err (EBuild _) => exists ds, reachable sources (CompileFailed ds) /\ has_errors ds = true
  | Err EEmit => stderr_ok = false /\ (build weapons_context sources).1 <> []
  | Err _ => False
  end /\
  (forall rc, reachable sources (Ready rc) ->
     (stderr_ok = true \/ (build weapons_context sources).1 = []) ->
     (new stderr_ok sources).2 = Ok rc).
Proof.
  pose proof (step_setup sources) as Hsetup.
  rewrite new_spec. destruct (build weapons_context sources) as [ds r] eqn:Hb. split.
  - assert (Hready : forall u, r = Ok u -> reachable sources (Ready (MkRuneContext weapon_fns u))).
    { intros u ->. eapply rtc_l; [exact Hsetup|]. apply rtc_once. by eapply step_ready. }
    assert (Hfail : forall e, r = Err e ->
                    exists ds, reachable sources (CompileFailed ds) /\ has_errors ds = true).
    { intros e ->. exists ds. split; [|by eapply build_Err_errors].
      eapply rtc_l; [exact Hsetup|]. apply rtc_once. by eapply step_compile_failed. }
    destruct (bool_decide (ds <> [])) eqn:Hd, stderr_ok, r as [u|e]; cbn [andb negb snd fst];
      eauto; (split; [done | by apply bool_decide_eq_true in Hd]).
  - intros rc Hreach Hok. simpl in Hok.
    inversion Hreach as [|? s1 ? Hs1 Hrest]; subst. inversion Hs1; subst.
    inversion Hrest as [|? s2 ? Hs2 Hrest2]; subst.
    inversion Hs2 as [|c ds' u Hb' |c ds' e Hb']; subst.
    + rewrite Hb in Hb'. injection Hb' as -> ->.
      inversion Hrest2 as [|? ? ? Hs3]; subst; [|by apply ready_terminal in Hs3].
      destruct Hok as [-> | ->]; simpl; rewrite ?andb_false_r; done.
    + inversion Hrest2 as [|? ? ? Hs3]; subst. by apply compile_failed_terminal in Hs3.
Qed.

Lemma new_refines_machine_witness :
  reachable warned_sources (Ready (MkRuneContext weapon_fns
    (MkUnit [MkItemFn "main" [] (ESeq (ELit 0) (EVec []))]))) /\
  (forall rc, reachable warned_sources (Ready rc) ->
     (true = true \/ (build weapons_context warned_sources).1 = []) ->
     (new true warned_sources).2 = Ok rc).
Proof. apply (new_refines_machine true warned_sources). Defined.

(** A script whose entry function takes the id as a parameter. *)
Definition param_main : ItemFn :=
  MkItemFn "main" ["n"]
    (ELet "x" (ECall "Weapon::new_wand" [EVar "n"]) (EMethod (EVar "x") "level" [ELit 3])).

Definition param_sources : Sources := [MkSource "entry" (Some [param_main])].

Lemma vm_scope_safe_witness :
  (new true param_sources).2 = Ok (MkRuneContext weapon_fns (MkUnit [param_main])) /\
  execute (vm (MkRuneContext weapon_fns (MkUnit [param_main]))) "main" [VInteger 7] =
    Ok (MkVmExecution (vm_new weapon_fns (MkUnit [param_main])) param_main [VInteger 7]) /\
  scope_safe (complete 10 (MkVmExecution (vm_new weapon_fns (MkUnit [param_main])) param_main [VInteger 7])).
Proof.
  split; [reflexivity|]. split; [reflexivity|].
  apply (vm_scope_safe true param_sources (MkRuneContext weapon_fns (MkUnit [param_main])) "main" [VInteger 7]);
    reflexivity.
Defined.
