(* ===== verification/App.v ===== *)
(** * App: the systems of main.rs and the end-to-end pipeline

    - [create_sources] (main.rs 71-93): the entry script, as the syntax
      tree the [rune::sources!] text parses to;
    - [run_main] (main.rs 26-33): VM, [execute(["main"])], [complete],
      [from_value::<Vec<Weapon>>];
    - [startup_from] (main.rs 19-42): [RuneContext::new], [run_main], then
      the [spawn_weapon] loop and [insert_resource]; its command buffer is
      threaded as explicit state, and [startup] runs it on
      [create_sources]; [script_run] is its outcome before any command;
    - [handle_error] (main.rs 65-69): the [Err] of startup is printed;
    - [update] (main.rs 45-63): the three queries, as reports;
    - [run_startup]: Bevy's [Startup] schedule: the system, its piped error
      handler, then the application of its command buffer to the world.

    The VM runs with an explicit fuel; [startup_fuel] is the size of the
    entry script's body.

    Theorems: a failing startup (compile, execution or decode error) queues
    nothing, so no entity is materialised; a successful one materialises,
    for every script, one entity per decoded weapon, in order, with exactly
    that weapon's records; a non-array output is a decode error; [update]
    reports exactly the marked entities. *)

From stdpp Require Import strings.
From S2P Require Import Prelude Weapons Ecs Spawn Rune Scope Bridge RuneContext.

(** ** The entry script (main.rs 73-90) *)

Definition main_body : expr :=
  ELet "staff"
    (EMethod (EMethod (ECall "Weapon::new_wand" [ELit 1]) "level" [ELit 30])
       "damage_range" [ELit 20; ELit 30])
  (ELet "sword"
    (EMethod (ECall "Weapon::new_melee" [ELit 2]) "level" [ELit 10])
  (ELet "spear"
    (EMethod (EMethod (ECall "Weapon::new_distance" [ELit 3]) "level" [ELit 30])
       "break_chance" [ELit 4])
  (EVec [EVar "staff"; EVar "sword"; EVar "spear"]))).

(** [rune::sources!(entry => { pub fn main() { ... } })] *)
Definition entry_sources : Sources := [MkSource "entry" (Some [MkItemFn "main" [] main_body])].

Definition create_sources : result Sources AppError := Ok entry_sources.

(** ** [startup] (main.rs 19-42) *)

(** main.rs 26-33: the VM, the run of [main] and the decoding of its
    output; every [?] is an early return. *)
Definition run_main (fuel : nat) (context : RuneContext) : result (list Weapon) AppError :=
  let vm := vm context in
  let? ex := map_err EVm (execute vm "main" []) in
  let? '(output, heap) := map_err EVm (complete fuel ex) in
  map_err EDecode (from_value_weapons output heap).

(** main.rs 19-42: the context, [run_main], then the spawn loop and the
    resource, on success only. *)
Definition startup_from (fuel : nat) (stderr_ok : bool) (sources : Sources)
    (commands : Commands RuneContext)
    : list LogEvent * result () AppError * Commands RuneContext :=
  let '(log, context) := new stderr_ok sources in
  match context with
  | Err e => (log, Err e, commands)
  | Ok context =>
      match run_main fuel context with
      | Err e => (log, Err e, commands)
      | Ok weapons =>
          let commands := spawn_all commands weapons in
          let commands := insert_resource context commands in
          (log, Ok (), commands)
      end
  end.

(** What the script alone yields (main.rs 20-33): the log, and the context
    with the decoded weapons or the first error. *)
Definition script_run (fuel : nat) (stderr_ok : bool) (sources : Sources)
    : list LogEvent * result (RuneContext * list Weapon) AppError :=
  let '(log, context) := new stderr_ok sources in
  (log, let? context := context in
        let? weapons := run_main fuel context in
        Ok (context, weapons)).

Definition startup (fuel : nat) (stderr_ok : bool) (commands : Commands RuneContext)
    : list LogEvent * result () AppError * Commands RuneContext :=
  match create_sources with
  | Err e => ([], Err e, commands)
  | Ok sources => startup_from fuel stderr_ok sources commands
  end.

(** [handle_error] (main.rs 65-69) *)
Definition handle_error (r : result () AppError) : list LogEvent :=
  match r with Err e => [LogError e] | Ok _ => [] end.

(** ** [update] (main.rs 45-63) *)

Inductive Report :=
  | ReportWand (e : Entity) (c : WandWeapon)
  | ReportMelee (e : Entity) (c : MeleeWeapon) (i : WeaponId)
  | ReportDistance (e : Entity) (c : DistanceWeapon).

#[export] Instance Report_eq_dec : EqDecision Report.
Proof. solve_decision. Defined.

Definition update (w : World RuneContext) : list Report :=
  omap (fun '(e, cs) => match cs with [CWand c] => Some (ReportWand e c) | _ => None end)
    (query [IdWand] w) ++
  omap (fun '(e, cs) => match cs with
                        | [CMelee c; CWeaponId i] => Some (ReportMelee e c i)
                        | _ => None end)
    (query [IdMelee; IdWeaponId] w) ++
  omap (fun '(e, cs) => match cs with [CDistance c] => Some (ReportDistance e c) | _ => None end)
    (query [IdDistance] w).

Definition startup_fuel : nat := expr_size main_body.

(** The [Startup] schedule: [startup.pipe(handle_error)], then the
    command buffer is applied to the world. *)
Definition run_startup (fuel : nat) (stderr_ok : bool) (w : World RuneContext)
    : list LogEvent * option (World RuneContext) :=
  let '(log, r, commands) := startup fuel stderr_ok (commands_of w) in
  (log ++ handle_error r, apply_commands commands w).

(** ** The weapons of the entry script *)

(** The weapons the entry script builds. *)
Definition staff_weapon : Weapon := Weapon.damage_range (Weapon.level (Weapon.new_wand 1) 30) 20 30.
Definition sword_weapon : Weapon := Weapon.level (Weapon.new_melee 2) 10.
Definition spear_weapon : Weapon := Weapon.break_chance (Weapon.level (Weapon.new_distance 3) 30) 4.

(** The compiled entry script. *)
Definition entry_unit : Unit := MkUnit [MkItemFn "main" [] main_body].

(** ** Lemmas *)

Lemma startup_from_script_run fuel stderr_ok sources commands :
  startup_from fuel stderr_ok sources commands =
  let '(log, r) := script_run fuel stderr_ok sources in
  match r with
  | Err e => (log, Err e, commands)
  | Ok (context, weapons) => (log, Ok (), insert_resource context (spawn_all commands weapons))
  end.
Proof.
  unfold startup_from, script_run. destruct (new _ _) as [log [ctx|e]]; simpl; [|done].
  by destruct (run_main fuel ctx).
Qed.

Lemma startup_from_Err fuel stderr_ok sources commands e :
  (startup_from fuel stderr_ok sources commands).1.2 = Err e ->
  (startup_from fuel stderr_ok sources commands).2 = commands.
Proof.
  rewrite startup_from_script_run. destruct (script_run _ _ _) as [log [[ctx ws]|e']]; simpl; [discriminate | done].
Qed.

Lemma script_run_Ok fuel stderr_ok sources ctx ws :
  (script_run fuel stderr_ok sources).2 = Ok (ctx, ws) ->
  exists ex out heap,
    (new stderr_ok sources).2 = Ok ctx /\
    execute (vm ctx) "main" [] = Ok ex /\ complete fuel ex = Ok (out, heap) /\
    from_value_weapons out heap = Ok ws.
Proof.
  unfold script_run, run_main. destruct (new stderr_ok sources) as [log [ctx'|e]]; simpl; [|discriminate].
  destruct (execute (vm ctx') "main" []) as [ex|e] eqn:Hex; simpl; [|discriminate].
  destruct (complete fuel ex) as [[out heap]|e] eqn:Hc; simpl; [|discriminate].
  destruct (from_value_weapons out heap) as [ws'|e] eqn:Hd; simpl; [|discriminate].
  intros [= <- <-]. eauto 10.
Qed.

Lemma startup_from_Ok fuel stderr_ok sources commands :
  (startup_from fuel stderr_ok sources commands).1.2 = Ok () ->
  exists ctx ex out heap ws,
    (new stderr_ok sources).2 = Ok ctx /\
    execute (vm ctx) "main" [] = Ok ex /\ complete fuel ex = Ok (out, heap) /\
    from_value_weapons out heap = Ok ws /\
    (startup_from fuel stderr_ok sources commands).2 =
      insert_resource ctx (spawn_all commands ws).
Proof.
  rewrite startup_from_script_run. destruct (script_run _ _ _) as [log [[ctx ws]|e]] eqn:Hr; simpl; [|discriminate].
  intros _. apply (f_equal snd) in Hr.
  destruct (script_run_Ok _ _ _ _ _ Hr) as (ex & out & heap & ? & ? & ? & ?).
  exists ctx, ex, out, heap, ws. split_and!; [assumption..|reflexivity].
Qed.

(** The entry script, run with [startup_fuel], returns the three weapons. *)
Lemma entry_script_run stderr_ok :
  (script_run startup_fuel stderr_ok entry_sources).2 =
  Ok (MkRuneContext weapon_fns entry_unit, [staff_weapon; sword_weapon; spear_weapon]).
Proof. by destruct stderr_ok. Qed.

Lemma empty_heap_wf : heap_wf empty_heap.
Proof. intros l w. simpl. by rewrite lookup_empty. Qed.

(** The heap a run of the entry point leaves is well formed. *)
Lemma complete_heap_wf ctx ex fuel out heap :
  rc_runtime ctx = weapon_fns -> execute (vm ctx) "main" [] = Ok ex ->
  complete fuel ex = Ok (out, heap) -> heap_wf heap.
Proof.
  intros Hrt Hex Hc. unfold execute in Hex.
  destruct (find_item _ _) as [f|]; [|discriminate].
  destruct (Nat.eqb _ _); [|discriminate]. injection Hex as <-.
  unfold complete in Hc. simpl in Hc. rewrite Hrt in Hc.
  eapply (eval_preserves heap_wf weapon_fns weapon_fns_spec); [apply empty_heap_wf | exact Hc].
Qed.

(** A well-formed weapon carries exactly one variant marker. *)
Lemma weapon_wf_one_marker wp :
  weapon_wf wp = true ->
  length (filter (fun k => is_Some (weapon_component wp k)) [IdWand; IdDistance; IdMelee]) = 1%nat.
Proof.
  unfold weapon_wf. rewrite !andb_true_iff. intros [[[[[[Hv _] _] _] _] _] _].
  apply Nat.eqb_eq in Hv. unfold variant_markers in Hv.
  destruct wp as [i [] [] [] lv ml mn dr bc]; simpl in *; try discriminate; reflexivity.
Qed.

(** A startup whose context was built: the outcome is that of [run_main]. *)
Lemma startup_from_run_main fuel stderr_ok sources commands ctx :
  (new stderr_ok sources).2 = Ok ctx ->
  (startup_from fuel stderr_ok sources commands).1.2 = rbind (run_main fuel ctx) (fun _ => Ok ()) /\
  (startup_from fuel stderr_ok sources commands).2 =
    match run_main fuel ctx with
    | Ok ws => insert_resource ctx (spawn_all commands ws)
    | Err _ => commands
    end.
Proof.
  intros Hn. unfold startup_from. destruct (new stderr_ok sources) as [log r].
  simpl in Hn. subst r. by destruct (run_main fuel ctx).
Qed.

(** [run_main] once the entry function has run: the decoding decides. *)
Lemma run_main_decode fuel ctx ex out heap :
  execute (vm ctx) "main" [] = Ok ex -> complete fuel ex = Ok (out, heap) ->
  run_main fuel ctx = map_err EDecode (from_value_weapons out heap).
Proof. intros Hex Hc. unfold run_main. rewrite Hex. simpl. by rewrite Hc. Qed.

(** A decoding failure is a failed startup that queues nothing. *)
Lemma startup_decode_fails fuel stderr_ok sources commands ctx ex out heap e :
  (new stderr_ok sources).2 = Ok ctx -> execute (vm ctx) "main" [] = Ok ex ->
  complete fuel ex = Ok (out, heap) -> from_value_weapons out heap = Err e ->
  (startup_from fuel stderr_ok sources commands).1.2 = Err (EDecode e) /\
  (startup_from fuel stderr_ok sources commands).2 = commands.
Proof.
  intros Hn Hex Hc Hd. destruct (startup_from_run_main fuel stderr_ok sources commands ctx Hn) as [-> ->].
  by rewrite (run_main_decode fuel ctx ex out heap Hex Hc), Hd.
Qed.

(** ** Theorems *)

(** C3: a failing startup (the context cannot be built, the script does
    not compile, the VM faults or the output does not decode) queues no
    command: after the schedule the world is exactly as before, with no new
    entity and no resource. *)
Theorem startup_error_no_entities fuel stderr_ok sources w e :
  (startup_from fuel stderr_ok sources (commands_of w)).1.2 = Err e ->
  apply_commands (startup_from fuel stderr_ok sources (commands_of w)).2 w = Some w.
Proof. intros H. rewrite (startup_from_Err _ _ _ _ _ H). apply apply_commands_of. Qed.

(** C1: for every script, a successful startup built its context, ran
    [main] and decoded the weapons [ws] ([run_main]); applying its commands
    to a well-formed world materialises one entity per decoded weapon, in
    the order of [ws] after the existing entities: the [i]-th carries
    exactly one variant marker and exactly the records [weapon_component]
    specifies for the [i]-th weapon, which is well formed ([u32] values);
    older entities are untouched and the context becomes the resource. *)
Theorem startup_materializes_wf fuel stderr_ok sources w :
  world_wf w ->
  (startup_from fuel stderr_ok sources (commands_of w)).1.2 = Ok () ->
  exists ctx ws w',
    (new stderr_ok sources).2 = Ok ctx /\ rc_runtime ctx = weapon_fns /\
    run_main fuel ctx = Ok ws /\
    apply_commands (startup_from fuel stderr_ok sources (commands_of w)).2 w = Some w' /\
    resource w' = Some ctx /\
    next_entity w' = (next_entity w + length ws)%nat /\
    (forall e, (e < next_entity w)%nat -> entities w' !! e = entities w !! e) /\
    (forall i wp, ws !! i = Some wp ->
       weapon_wf wp = true /\
       exists m, entities w' !! (next_entity w + i)%nat = Some m /\
         length (filter (fun k => is_Some (m !! k)) [IdWand; IdDistance; IdMelee]) = 1%nat /\
         forall k, m !! k = weapon_component wp k).
Proof.
  intros Hw Hok.
  destruct (startup_from_Ok _ _ _ _ Hok) as (ctx & ex & out & heap & ws & Hnew & Hex & Hc & Hd & ->).
  pose proof (new_Ok_runtime _ _ _ Hnew) as Hrt.
  assert (Hwf : Forall (fun w => weapon_wf w = true) ws)
    by eauto using from_value_weapons_wf, complete_heap_wf.
  destruct (spawn_all_apply w ws Hw) as (w1 & Happ & _ & Hn & _ & Hold & Hnew1).
  rewrite apply_commands_insert_resource, Happ. simpl.
  exists ctx, ws. eexists. split_and!; [done | done | by rewrite (run_main_decode _ _ _ _ _ Hex Hc), Hd
    | reflexivity | done | done | exact Hold |].
  intros i wp Hwp. destruct (Hnew1 _ _ Hwp) as (m & Hm & Hk).
  assert (Hwpwf : weapon_wf wp = true) by (rewrite Forall_lookup in Hwf; by apply (Hwf i)).
  split; [done|]. exists m. split_and!; [done | | done].
  rewrite <- (weapon_wf_one_marker wp Hwpwf). f_equal. apply list_filter_iff. intros k. by rewrite Hk.
Qed.

(** C19: a script whose entry point completes but returns a value that is
    not an array, or an array with an element that is not an object, makes
    startup fail with a decode error, after the run, and queue nothing: no
    entity is materialised (spec section 8). *)
Theorem startup_decode_error fuel stderr_ok sources commands ctx ex out heap :
  (new stderr_ok sources).2 = Ok ctx -> execute (vm ctx) "main" [] = Ok ex ->
  complete fuel ex = Ok (out, heap) ->
  match out with VVec vs => exists x, x ∈ vs /\ forall l, x <> VAny l | _ => True end ->
  exists e, (startup_from fuel stderr_ok sources commands).1.2 = Err (EDecode e) /\
            (startup_from fuel stderr_ok sources commands).2 = commands.
Proof.
  intros Hn Hex Hc Hshape.
  destruct (from_value_weapons_shape_error out heap Hshape) as [e Hd].
  exists e. by eapply startup_decode_fails.
Qed.

(** ** Witnesses *)

Lemma startup_error_no_entities_witness :
  (startup_from startup_fuel true [MkSource "entry" None] (commands_of empty_world)).1.2 =
    Err (EBuild BuildFailed) /\
  apply_commands (startup_from startup_fuel true [MkSource "entry" None]
                    (commands_of empty_world)).2 empty_world = Some empty_world.
Proof.
  split; [reflexivity|].
  apply (startup_error_no_entities startup_fuel true [MkSource "entry" None] empty_world
           (EBuild BuildFailed)).
  reflexivity.
Defined.

Lemma startup_materializes_wf_witness :
  exists ctx ws w',
    (new true entry_sources).2 = Ok ctx /\ rc_runtime ctx = weapon_fns /\
    run_main startup_fuel ctx = Ok ws /\
    apply_commands (startup_from startup_fuel true entry_sources
                      (commands_of (@empty_world RuneContext))).2 (@empty_world RuneContext) = Some w' /\
    resource w' = Some ctx /\
    next_entity w' = (next_entity (@empty_world RuneContext) + length ws)%nat /\
    (forall e, (e < next_entity (@empty_world RuneContext))%nat ->
       entities w' !! e = entities (@empty_world RuneContext) !! e) /\
    (forall i wp, ws !! i = Some wp ->
       weapon_wf wp = true /\
       exists m, entities w' !! (next_entity (@empty_world RuneContext) + i)%nat = Some m /\
         length (filter (fun k => is_Some (m !! k)) [IdWand; IdDistance; IdMelee]) = 1%nat /\
         forall k, m !! k = weapon_component wp k).
Proof.
  apply startup_materializes_wf; [apply empty_world_wf | reflexivity].
Defined.

(** What [update] reports of one entity. *)
Definition reported (w : World RuneContext) (r : Report) : Prop :=
  match r with
  | ReportWand e c => (e < next_entity w)%nat /\
      exists cs, entities w !! e = Some cs /\ cs !! IdWand = Some (CWand c)
  | ReportMelee e c i => (e < next_entity w)%nat /\
      exists cs, entities w !! e = Some cs /\ cs !! IdMelee = Some (CMelee c) /\
                 cs !! IdWeaponId = Some (CWeaponId i)
  | ReportDistance e c => (e < next_entity w)%nat /\
      exists cs, entities w !! e = Some cs /\ cs !! IdDistance = Some (CDistance c)
  end.

Lemma query_report {A} ks (f : Entity * list Component -> option A) (w : World RuneContext) y :
  y ∈ omap f (query ks w) <->
  exists e cs rs, (e < next_entity w)%nat /\ entities w !! e = Some cs /\
    mapM (fun k => cs !! k) ks = Some rs /\ f (e, rs) = Some y.
Proof.
  rewrite list_elem_of_omap. split.
  - intros ([e rs] & Hin & Hf). apply query_elem in Hin as (? & cs & ? & ?). eauto 10.
  - intros (e & cs & rs & ? & ? & ? & ?). exists (e, rs). rewrite query_elem. eauto 10.
Qed.

(** Invert a query row into the records it was built from. *)
Ltac report_inv :=
  repeat match goal with
  | Hm : context [?cs !! ?k ≫= _] |- _ =>
      destruct (cs !! k) eqn:?; simpl in Hm; [|discriminate]
  end; unfold mret, option_ret in *; simplify_eq/=; repeat case_match; simplify_eq/=;
  repeat match goal with
  | x : WandWeapon |- _ => destruct x
  | x : MeleeWeapon |- _ => destruct x
  | x : DistanceWeapon |- _ => destruct x
  end; eauto 10.

(** What [update] prints, entity by entity. *)
Lemma update_reported w r : r ∈ update w <-> reported w r.
Proof.
  unfold update. rewrite !elem_of_app, !query_report.
  destruct r as [e c|e c i|e c]; simpl; split.
  - intros [(e' & cs & rs & ? & ? & Hm & Hf) | [(e' & cs & rs & ? & ? & Hm & Hf) | (e' & cs & rs & ? & ? & Hm & Hf)]];
      report_inv.
  - intros (? & cs & ? & ?). left. exists e, cs, [CWand c]. simpl. rewrite H1. simpl. eauto.
  - intros [(e' & cs & rs & ? & ? & Hm & Hf) | [(e' & cs & rs & ? & ? & Hm & Hf) | (e' & cs & rs & ? & ? & Hm & Hf)]];
      report_inv.
  - intros (? & cs & ? & ? & ?). right; left. exists e, cs, [CMelee c; CWeaponId i].
    simpl. rewrite H1, H2. simpl. eauto.
  - intros [(e' & cs & rs & ? & ? & Hm & Hf) | [(e' & cs & rs & ? & ? & Hm & Hf) | (e' & cs & rs & ? & ? & Hm & Hf)]];
      report_inv.
  - intros (? & cs & ? & ?). right; right. exists e, cs, [CDistance c]. simpl. rewrite H1. simpl. eauto.
Qed.

(** C12: the [update] pass reports an entity as a wand (resp. a distance
    weapon) exactly when it carries the [WandWeapon] (resp. the
    [DistanceWeapon]) marker, and as a melee weapon, with its id, exactly
    when it carries both [MeleeWeapon] and [WeaponId]; it reports nothing
    else, and it only reads the world. *)
Theorem update_reports w r : r ∈ update w <-> reported w r.
Proof. apply update_reported. Qed.

(** A script whose [main] returns a number. *)
Definition number_main : ItemFn := MkItemFn "main" [] (ELit 5).

Lemma startup_decode_error_witness :
  exists e,
    (startup_from startup_fuel true [MkSource "entry" (Some [number_main])]
       (commands_of (@empty_world RuneContext))).1.2 = Err (EDecode e) /\
    (startup_from startup_fuel true [MkSource "entry" (Some [number_main])]
       (commands_of (@empty_world RuneContext))).2 = commands_of (@empty_world RuneContext).
Proof.
  apply (startup_decode_error startup_fuel true [MkSource "entry" (Some [number_main])] _
           (MkRuneContext weapon_fns (MkUnit [number_main]))
           (MkVmExecution (vm_new weapon_fns (MkUnit [number_main])) number_main [])
           (VInteger 5) empty_heap); reflexivity.
Defined.
