(* ===== verification/Startup.v ===== *)
(** * Startup: boundary and error inputs of the [startup] system

    The [startup] system of main.rs (19-42) on the inputs at the edges of
    what the spec describes: a script without a usable [main] (missing, or
    taking parameters, [vm.execute(["main"], ())] then fails), a script
    returning an empty array (startup succeeds, nothing is spawned, the
    context still becomes the resource), a script returning the same
    object twice (the second decoding finds the object already moved out).
    Each failure is an early return of [startup]: the command
    buffer is left as it was, so nothing is materialised. *)

From stdpp Require Import strings.
From S2P Require Import Prelude Weapons Ecs Spawn Rune Bridge RuneContext App.

(** ** Lemmas *)

(** The VM of a context runs the context's unit. *)
Lemma execute_vm ctx name args :
  execute (vm ctx) name args =
  match find_item name (rc_unit ctx) with
  | None => Err (MissingEntry name)
  | Some f =>
      if Nat.eqb (length (fn_params f)) (length args) then Ok (MkVmExecution (vm ctx) f args)
      else Err (BadArgumentCount (length (fn_params f)) (length args))
  end.
Proof. reflexivity. Qed.

(** A startup whose [run_main] fails queues nothing. *)
Lemma startup_run_main_Err fuel stderr_ok sources commands ctx e :
  (new stderr_ok sources).2 = Ok ctx -> run_main fuel ctx = Err e ->
  (startup_from fuel stderr_ok sources commands).1.2 = Err e /\
  (startup_from fuel stderr_ok sources commands).2 = commands.
Proof.
  intros Hn Hr. destruct (startup_from_run_main fuel stderr_ok sources commands ctx Hn) as [-> ->].
  by rewrite Hr.
Qed.

(** A decoded array with a repeated object is impossible. *)
Lemma from_value_weapons_dup vs heap :
  ~ NoDup (value_locs vs) -> exists e, from_value_weapons (VVec vs) heap = Err e.
Proof.
  intros Hdup. simpl. destruct (weapons_from_values vs heap) as [[ws h']|e] eqn:Hd; simpl.
  - exfalso. apply Hdup. by destruct (weapons_from_values_distinct _ _ _ _ Hd).
  - by eexists.
Qed.

(** ** Theorems *)

(** C24: a script without a usable entry point: when the compiled unit
    has no function [main], startup fails with [MissingEntry "main"]; when
    its [main] takes parameters, with [BadArgumentCount] (the system passes
    none); in both cases after the context was built and before anything
    runs, and with nothing queued. *)
Theorem startup_entry_errors fuel stderr_ok sources commands ctx :
  (new stderr_ok sources).2 = Ok ctx ->
  (find_item "main" (rc_unit ctx) = None ->
     (startup_from fuel stderr_ok sources commands).1.2 = Err (EVm (MissingEntry "main")) /\
     (startup_from fuel stderr_ok sources commands).2 = commands) /\
  (forall f, find_item "main" (rc_unit ctx) = Some f -> fn_params f <> [] ->
     (startup_from fuel stderr_ok sources commands).1.2 =
       Err (EVm (BadArgumentCount (length (fn_params f)) 0)) /\
     (startup_from fuel stderr_ok sources commands).2 = commands).
Proof.
  intros Hn. split.
  - intros Hf. apply (startup_run_main_Err _ _ _ _ ctx); [done|].
    unfold run_main. by rewrite execute_vm, Hf.
  - intros f Hf Hp. apply (startup_run_main_Err _ _ _ _ ctx); [done|].
    unfold run_main. rewrite execute_vm, Hf. by destruct (fn_params f).
Qed.

(** C25: the empty boundary: a script whose [main] returns an empty array
    makes startup succeed; it spawns nothing and inserts the context as the
    resource, so the world keeps its entities and its allocator. *)
Theorem startup_empty_array fuel stderr_ok sources ctx ex heap w :
  (new stderr_ok sources).2 = Ok ctx -> execute (vm ctx) "main" [] = Ok ex ->
  complete fuel ex = Ok (VVec [], heap) ->
  (startup_from fuel stderr_ok sources (commands_of w)).1.2 = Ok () /\
  apply_commands (startup_from fuel stderr_ok sources (commands_of w)).2 w =
    Some (MkWorld (entities w) (next_entity w) (Some ctx)).
Proof.
  intros Hn Hex Hc.
  destruct (startup_from_run_main fuel stderr_ok sources (commands_of w) ctx Hn) as [-> ->].
  rewrite (run_main_decode fuel ctx ex _ heap Hex Hc). simpl. split; [done|].
  by rewrite apply_commands_insert_resource, apply_commands_of.
Qed.

(** C26: aliasing in the returned array: a script whose [main] returns an
    array listing the same object twice makes startup fail with a decode
    error (the first decoding moves the object out, the second finds the
    cell empty) and queue nothing, so no weapon of the array is spawned. *)
Theorem startup_duplicate_object fuel stderr_ok sources commands ctx ex vs heap :
  (new stderr_ok sources).2 = Ok ctx -> execute (vm ctx) "main" [] = Ok ex ->
  complete fuel ex = Ok (VVec vs, heap) -> ~ NoDup (value_locs vs) ->
  exists e, (startup_from fuel stderr_ok sources commands).1.2 = Err (EDecode e) /\
            (startup_from fuel stderr_ok sources commands).2 = commands.
Proof.
  intros Hn Hex Hc Hdup. destruct (from_value_weapons_dup vs heap Hdup) as [e Hd].
  exists e. by eapply startup_decode_fails.
Qed.

(** ** Witnesses *)

Definition start_item : ItemFn := MkItemFn "start" [] (ELit 0).

Lemma startup_entry_errors_witness :
  (new true [MkSource "entry" (Some [start_item])]).2 = Ok (MkRuneContext weapon_fns (MkUnit [start_item])) /\
  (startup_from startup_fuel true [MkSource "entry" (Some [start_item])]
     (commands_of (@empty_world RuneContext))).1.2 = Err (EVm (MissingEntry "main")) /\
  (startup_from startup_fuel true [MkSource "entry" (Some [start_item])]
     (commands_of (@empty_world RuneContext))).2 = commands_of (@empty_world RuneContext).
Proof.
  split; [reflexivity|].
  apply (startup_entry_errors startup_fuel true [MkSource "entry" (Some [start_item])]
           (commands_of (@empty_world RuneContext)) (MkRuneContext weapon_fns (MkUnit [start_item])));
    reflexivity.
Defined.

Definition empty_main : ItemFn := MkItemFn "main" [] (EVec []).

Lemma startup_empty_array_witness :
  (startup_from startup_fuel true [MkSource "entry" (Some [empty_main])]
     (commands_of (@empty_world RuneContext))).1.2 = Ok () /\
  apply_commands (startup_from startup_fuel true [MkSource "entry" (Some [empty_main])]
     (commands_of (@empty_world RuneContext))).2 (@empty_world RuneContext) =
    Some (MkWorld ∅ 0 (Some (MkRuneContext weapon_fns (MkUnit [empty_main])))).
Proof.
  apply (startup_empty_array startup_fuel true [MkSource "entry" (Some [empty_main])]
           (MkRuneContext weapon_fns (MkUnit [empty_main]))
           (MkVmExecution (vm_new weapon_fns (MkUnit [empty_main])) empty_main []) empty_heap);
    reflexivity.
Defined.

(** [let s = Weapon::new_wand(1); [s, s]] *)
Definition dup_main : ItemFn :=
  MkItemFn "main" [] (ELet "s" (ECall "Weapon::new_wand" [ELit 1]) (EVec [EVar "s"; EVar "s"])).

Lemma startup_duplicate_object_witness :
  exists e,
    (startup_from startup_fuel true [MkSource "entry" (Some [dup_main])]
       (commands_of (@empty_world RuneContext))).1.2 = Err (EDecode e) /\
    (startup_from startup_fuel true [MkSource "entry" (Some [dup_main])]
       (commands_of (@empty_world RuneContext))).2 = commands_of (@empty_world RuneContext).
Proof.
  apply (startup_duplicate_object startup_fuel true [MkSource "entry" (Some [dup_main])] _
           (MkRuneContext weapon_fns (MkUnit [dup_main]))
           (MkVmExecution (vm_new weapon_fns (MkUnit [dup_main])) dup_main [])
           [VAny 0; VAny 0] wand_heap); try reflexivity.
  simpl. intros Hnd. apply NoDup_cons in Hnd as [Hin _]. apply Hin. by left.
Defined.
