(* ===== verification/Pipeline.v ===== *)
(** * Pipeline: from a script of fluent chains to the spawned entities

    The whole path of main.rs [startup] for the scripts the program is
    written for: [main] returns an array of fluent chains
    [[Weapon::new_<k>(i).c1(..)..., ...]].  The sources compile without a
    diagnostic ([Rune.build], [RuneContext.new]), the VM evaluates every
    chain to a fresh object holding the weapon the Rust builder computes
    (file [Script]), the objects are distinct so the decoding
    [from_value::<Vec<Weapon>>] reads them all back in order (file
    [Bridge]), and the spawn loop and the resource are applied to the
    world (files [Spawn] and [Ecs]).  The fuel needed is one step for the
    array plus, for its longest chain, two steps for the constructor and
    one per call ([chains_fuel]).  The error paths: a number literal
    outside [i64] is a compile error, an [i64] number outside [u32] a VM
    conversion error; neither spawns anything. *)

From stdpp Require Import strings.
From S2P Require Import Prelude Weapons Ecs Spawn Rune Bridge Script RuneContext App.

(** ** Scripts of fluent chains *)

(** One element of the returned array: [Weapon::new_<kind>(id)] followed
    by the fluent [calls]. *)
Record Chain := MkChain {
  ch_kind : WeaponKind;
  ch_id : Z;
  ch_calls : list config
}.

Definition chain_of (c : Chain) : expr := chain_expr (ch_kind c) (ch_id c) (ch_calls c).

(** The weapon the same calls build in Rust. *)
Definition chain_weapon (c : Chain) : Weapon := build_chain (ch_kind c) (ch_id c) (ch_calls c).

(** Every number of the chain is a [u32]. *)
Definition chain_ok (c : Chain) : bool := is_u32 (ch_id c) && forallb config_wf (ch_calls c).

(** The first out-of-range number of the array, in evaluation order. *)
Fixpoint chains_first_bad (chs : list Chain) : option Z :=
  match chs with
  | [] => None
  | c :: chs' =>
      match chain_first_bad (ch_id c) (ch_calls c) with
      | Some z => Some z
      | None => chains_first_bad chs'
      end
  end.

(** The fuel of the array's elements: the longest chain. *)
Definition chains_fuel (chs : list Chain) : nat :=
  list_max (map (fun c => 2 + length (ch_calls c))%nat chs).

(** [pub fn main() { [chain_1, ..., chain_n] }] *)
Definition chains_main (chs : list Chain) : ItemFn := MkItemFn "main" [] (EVec (map chain_of chs)).

Definition chains_sources (chs : list Chain) : Sources := [MkSource "entry" (Some [chains_main chs])].

(** The number literals of a call, of a chain and of the array, in
    source order. *)
Definition config_nums (c : config) : list Z :=
  match c with
  | SetLevel v | SetMagicLevel v | SetMana v | SetBreakChance v => [v]
  | SetDamageRange a b => [a; b]
  end.

Definition chain_nums (c : Chain) : list Z := ch_id c :: concat (map config_nums (ch_calls c)).

Definition chains_numbers (chs : list Chain) : list Z := concat (map chain_nums chs).

(** The compiler's diagnostics of number literals: one error per literal
    outside [i64]. *)
Definition lit_diags (zs : list Z) : Diagnostics :=
  concat (map (fun z => if is_i64 z then [] else [DError (BadNumberLiteral z)]) zs).

Definition chains_diags (chs : list Chain) : Diagnostics := lit_diags (chains_numbers chs).

(** The object at [l] is the weapon [w]. *)
Definition weapon_at (h : Heap) (l : loc) (w : Weapon) : Prop :=
  heap_cells h !! l = Some (Some (AnyWeapon w)).

(** ** Compilation *)

Lemma lit_diags_app zs1 zs2 : lit_diags (zs1 ++ zs2) = lit_diags zs1 ++ lit_diags zs2.
Proof. unfold lit_diags. by rewrite map_app, concat_app. Qed.

Lemma lit_diags_nil zs : forallb is_i64 zs = true -> lit_diags zs = [].
Proof.
  unfold lit_diags. induction zs as [|z zs IH]; [done|]. simpl.
  intros [-> Hzs]%andb_true_iff. by apply IH.
Qed.


Lemma check_chain_from fns ctx locals e cs :
  check_expr fns ctx locals (chain_from e cs) =
  check_expr fns ctx locals e ++ lit_diags (concat (map config_nums cs)).
Proof.
  revert e; induction cs as [|c cs IH]; intros e; simpl; [by rewrite app_nil_r|].
  rewrite IH, lit_diags_app, app_assoc. f_equal. simpl. f_equal.
  destruct c; unfold lit_diags; simpl; by rewrite ?app_nil_r.
Qed.

Lemma check_new_call fns ctx locals k i :
  nf_path (new_fn k) ∈ ctx ->
  check_expr fns ctx locals (ECall (nf_path (new_fn k)) [ELit i]) = lit_diags [i].
Proof.
  intros Hk. unfold lit_diags. simpl. rewrite bool_decide_true by (by right). simpl.
  by rewrite !app_nil_r.
Qed.

Lemma new_fn_registered k : nf_path (new_fn k) ∈ map nf_path weapon_fns.
Proof. apply list_elem_of_fmap_2. destruct k; set_solver. Qed.

(** A chain compiles to the diagnostics of its literals. *)
Lemma check_chain_of locals c :
  check_expr ["main"] (map nf_path weapon_fns) locals (chain_of c) = lit_diags (chain_nums c).
Proof.
  unfold chain_of, chain_expr. rewrite check_chain_from, check_new_call by apply new_fn_registered.
  by rewrite <- lit_diags_app.
Qed.

Lemma chains_build chs :
  build weapons_context (chains_sources chs) =
  (chains_diags chs, if has_errors (chains_diags chs) then Err BuildFailed else Ok (MkUnit [chains_main chs])).
Proof.
  assert (H : concat (map (check_expr ["main"] (map nf_path weapon_fns) []) (map chain_of chs)) =
              chains_diags chs).
  { unfold chains_diags, chains_numbers. induction chs as [|c chs IH]; [done|].
    by rewrite !map_cons, !concat_cons, check_chain_of, IH, lit_diags_app. }
  unfold build, check_items. simpl. simpl in H. by rewrite H, app_nil_r.
Qed.

(** Sources whose literals are all [i64] compile without a diagnostic. *)
Lemma chains_new stderr_ok chs :
  forallb is_i64 (chains_numbers chs) = true ->
  new stderr_ok (chains_sources chs) = ([], Ok (MkRuneContext weapon_fns (MkUnit [chains_main chs]))).
Proof.
  intros Hi. rewrite new_spec, chains_build. unfold chains_diags. rewrite lit_diags_nil by done.
  by destruct stderr_ok.
Qed.

Lemma chains_find_new chs k : find_item (nf_path (new_fn k)) (MkUnit [chains_main chs]) = None.
Proof. by destruct k. Qed.

Lemma config_wf_i64 c : config_wf c = true -> forallb is_i64 (config_nums c) = true.
Proof.
  destruct c; cbn [config_wf config_nums forallb]; rewrite ?andb_true_r; try apply is_u32_i64.
  intros [Ha Hb]%andb_true_iff. by rewrite (is_u32_i64 _ Ha), (is_u32_i64 _ Hb).
Qed.

(** ** Evaluation *)

Lemma configs_first_bad_None cs : configs_first_bad cs = None -> forallb config_wf cs = true.
Proof.
  induction cs as [|c cs IH]; simpl; [done|].
  destruct (config_first_bad c) eqn:Hc; [discriminate|].
  intros Hcs. by rewrite config_first_bad_None, IH.
Qed.

Lemma chain_first_bad_None c : chain_first_bad (ch_id c) (ch_calls c) = None -> chain_ok c = true.
Proof.
  unfold chain_first_bad, chain_ok. destruct (is_u32 (ch_id c)); [|discriminate].
  apply configs_first_bad_None.
Qed.

Lemma chain_ok_id c : chain_ok c = true -> is_u32 (ch_id c) = true.
Proof. unfold chain_ok. by intros [? _]%andb_true_iff. Qed.

Lemma chain_ok_calls c : chain_ok c = true -> Forall (fun x => config_wf x = true) (ch_calls c).
Proof.
  intros Hc. apply andb_true_iff in Hc as [_ Hcs].
  apply Forall_forall. intros x Hx%list_elem_of_In. by apply (proj1 (forallb_forall _ _) Hcs).
Qed.

Lemma chains_ok_i64 chs : forallb chain_ok chs = true -> forallb is_i64 (chains_numbers chs) = true.
Proof.
  unfold chains_numbers. induction chs as [|c chs IH]; [done|].
  rewrite map_cons, concat_cons, forallb_app. intros [Hc Hok]%andb_true_iff.
  rewrite IH, andb_true_r by done. unfold chain_nums. cbn [forallb].
  rewrite is_u32_i64 by (by apply chain_ok_id). cbn [andb].
  apply andb_true_iff in Hc as [_ Hcs]. clear -Hcs. induction (ch_calls c) as [|x xs IHx]; [done|].
  simpl in Hcs |- *. apply andb_true_iff in Hcs as [Hx Hxs].
  rewrite forallb_app, config_wf_i64 by done. by apply IHx.
Qed.

Lemma chains_fuel_nil : chains_fuel [] = 0%nat.
Proof. reflexivity. Qed.

Lemma chains_fuel_cons c chs :
  chains_fuel (c :: chs) = Nat.max (2 + length (ch_calls c)) (chains_fuel chs).
Proof. reflexivity. Qed.

Section ChainsEval.
Context (u : Unit) (env : list (string * Value)).
Hypothesis Hu : forall k, find_item (nf_path (new_fn k)) u = None.

(** The array's elements, left to right: distinct fresh objects, each
    holding its chain's weapon, in a heap extending the initial one. *)
Lemma eval_chains chs h :
  forallb chain_ok chs = true ->
  exists ls h',
    (forall m, (chains_fuel chs <= m)%nat ->
       eval_list (eval m weapon_fns u env) (map chain_of chs) h = Ok (map VAny ls, h')) /\
    NoDup ls /\ Forall2 (fun l c => weapon_at h' l (chain_weapon c)) ls chs /\
    heap_ext h h' /\ Forall (fun l => heap_next h <= l < heap_next h')%nat ls.
Proof.
  revert h; induction chs as [|c chs IH]; intros h Hok.
  { exists [], h. split_and!; by constructor || apply heap_ext_refl. }
  simpl in Hok. apply andb_true_iff in Hok as [Hc Hok].
  destruct (eval_chain_expr u env (ch_kind c) (ch_id c) (ch_calls c) h (Hu _)
              (chain_ok_id c Hc) (chain_ok_calls c Hc))
    as (l1 & h1 & He1 & Hl1 & Hext1 & Hb1).
  destruct (IH h1 Hok) as (ls & h' & He & Hnd & Hw & Hext & Hb).
  pose proof Hext as [Hn' Hcells].
  exists (l1 :: ls), h'. split_and!.
  - intros m Hm. rewrite chains_fuel_cons in Hm. cbn [map eval_list]. unfold chain_of.
    rewrite He1 by lia. cbn [rbind]. by rewrite He by lia.
  - constructor; [|done]. intros Hin. rewrite Forall_forall in Hb.
    specialize (Hb l1 Hin). lia.
  - constructor; [|done]. unfold weapon_at. rewrite Hcells by lia. done.
  - by eapply heap_ext_trans.
  - constructor; [destruct Hext1; lia|].
    eapply Forall_impl; [exact Hb|]. simpl. destruct Hext1. lia.
Qed.

(** An array with an out-of-range number fails with the first one: the
    chains before it build their objects, that one stops. *)
Lemma eval_chains_bad chs h m z :
  chains_first_bad chs = Some z -> (chains_fuel chs <= m)%nat ->
  eval_list (eval m weapon_fns u env) (map chain_of chs) h = Err (IntegerOutOfRange z).
Proof.
  revert h; induction chs as [|c chs IH]; intros h Hz Hm; [discriminate|].
  rewrite chains_fuel_cons in Hm. simpl in Hz. cbn [map eval_list]. unfold chain_of.
  destruct (chain_first_bad (ch_id c) (ch_calls c)) as [z'|] eqn:Hc.
  - injection Hz as ->. by rewrite (eval_chain_out_of_range u env _ _ _ _ _ z) by (done || lia).
  - apply chain_first_bad_None in Hc.
    destruct (eval_chain_expr u env (ch_kind c) (ch_id c) (ch_calls c) h (Hu _)
                (chain_ok_id c Hc) (chain_ok_calls c Hc)) as (l1 & h1 & He1 & _).
    rewrite He1 by lia. cbn [rbind]. rewrite IH; [done | done | lia].
Qed.

End ChainsEval.

(** ** Decoding *)

Lemma weapon_at_take ls ws h l :
  l ∉ ls -> Forall2 (weapon_at h) ls ws ->
  Forall2 (weapon_at (MkHeap (<[l := None]> (heap_cells h)) (heap_next h))) ls ws.
Proof.
  intros Hl Hf. induction Hf as [|l' w ls ws Hw Hf IH]; constructor.
  - unfold weapon_at in *. simpl. rewrite lookup_insert_ne; [done|]. intros ->. apply Hl. by left.
  - apply IH. intros Hin. apply Hl. by right.
Qed.

(** Distinct live objects decode to their weapons, in order. *)
Lemma weapons_from_values_live ls ws h :
  NoDup ls -> Forall2 (weapon_at h) ls ws ->
  exists h', weapons_from_values (map VAny ls) h = Ok (ws, h').
Proof.
  revert ws h; induction ls as [|l ls IH]; intros ws h Hnd Hf.
  { apply Forall2_nil_inv_l in Hf as ->. by eexists. }
  apply Forall2_cons_inv_l in Hf as (w & ws' & Hw & Hf & ->).
  apply NoDup_cons in Hnd as [Hl Hnd].
  destruct (IH ws' _ Hnd (weapon_at_take ls ws' h l Hl Hf)) as [h' Hd].
  exists h'. simpl. unfold take. rewrite Hw. cbn [rbind]. by rewrite Hd.
Qed.

(** [run_main] on a script of chains evaluates the array's elements. *)
Lemma run_main_chains_eval fuel chs :
  run_main (S fuel) (MkRuneContext weapon_fns (MkUnit [chains_main chs])) =
  let? '(vs, heap) := map_err EVm (eval_list (eval fuel weapon_fns (MkUnit [chains_main chs]) [])
                                     (map chain_of chs) empty_heap) in
  map_err EDecode (from_value_weapons (VVec vs) heap).
Proof.
  set (ctx := MkRuneContext weapon_fns (MkUnit [chains_main chs])).
  assert (Hex : execute (vm ctx) "main" [] = Ok (MkVmExecution (vm ctx) (chains_main chs) []))
    by reflexivity.
  unfold run_main, complete. rewrite Hex. unfold vm, vm_new.
  cbn [rbind map_err fn_params exec_vm exec_fn exec_args vm_runtime vm_unit fn_body chains_main zip
    eval ctx rc_runtime rc_unit].
  by destruct (eval_list _ _ _) as [[vs heap]|e].
Qed.

(** [run_main] on a script of chains: the weapons of the chains. *)
Lemma run_main_chains fuel chs :
  forallb chain_ok chs = true -> (S (chains_fuel chs) <= fuel)%nat ->
  run_main fuel (MkRuneContext weapon_fns (MkUnit [chains_main chs])) = Ok (map chain_weapon chs).
Proof.
  intros Hok Hf.
  destruct (eval_chains _ [] (chains_find_new chs) chs empty_heap Hok)
    as (ls & h' & He & Hnd & Hw & _).
  destruct fuel as [|fuel]; [lia|].
  rewrite run_main_chains_eval, He by lia. cbn [rbind map_err from_value_weapons].
  assert (Hw' : Forall2 (weapon_at h') ls (map chain_weapon chs))
    by (clear -Hw; induction Hw; by constructor).
  destruct (weapons_from_values_live ls _ h' Hnd Hw') as [h'' ->]. done.
Qed.

(** [startup] on a script of chains with [u32] numbers and enough fuel:
    no diagnostic, success, and the commands of the spawn loop over the
    chains' weapons followed by the resource. *)
Lemma startup_chains fuel stderr_ok chs commands :
  forallb chain_ok chs = true -> (S (chains_fuel chs) <= fuel)%nat ->
  startup_from fuel stderr_ok (chains_sources chs) commands =
  ([], Ok (), insert_resource (MkRuneContext weapon_fns (MkUnit [chains_main chs]))
                (spawn_all commands (map chain_weapon chs))).
Proof.
  intros Hok Hf. unfold startup_from. rewrite chains_new by (by apply chains_ok_i64). cbv beta iota.
  by rewrite run_main_chains.
Qed.


(** An out-of-range number makes [run_main] fail with it. *)
Lemma run_main_chains_bad fuel chs z :
  chains_first_bad chs = Some z -> (S (chains_fuel chs) <= fuel)%nat ->
  run_main fuel (MkRuneContext weapon_fns (MkUnit [chains_main chs])) = Err (EVm (IntegerOutOfRange z)).
Proof.
  intros Hz Hf. destruct fuel as [|fuel]; [lia|].
  rewrite run_main_chains_eval, (eval_chains_bad _ [] (chains_find_new chs) chs _ _ z) by (done || lia).
  done.
Qed.

(** ** Theorems *)

(** C28: end to end, for every script of the shape the program is written
    for: when [main] returns an array of fluent chains
    [Weapon::new_<k>(i).c1(..)...] whose numbers are all [u32], and the
    fuel covers the longest chain, startup logs nothing and succeeds, and
    applying its commands to a well-formed world spawns one entity per
    chain, in the array's order after the existing entities, the [j]-th
    holding exactly the records [weapon_component] gives for the weapon
    the same calls build in Rust; older entities are untouched and the
    compiled context becomes the resource. *)
Theorem script_startup_spawns fuel stderr_ok chs w :
  world_wf w -> forallb chain_ok chs = true -> (S (chains_fuel chs) <= fuel)%nat ->
  (startup_from fuel stderr_ok (chains_sources chs) (commands_of w)).1 = ([], Ok ()) /\
  exists w', apply_commands (startup_from fuel stderr_ok (chains_sources chs) (commands_of w)).2 w = Some w' /\
    next_entity w' = (next_entity w + length chs)%nat /\
    resource w' = Some (MkRuneContext weapon_fns (MkUnit [chains_main chs])) /\
    (forall e, (e < next_entity w)%nat -> entities w' !! e = entities w !! e) /\
    (forall j c, chs !! j = Some c ->
       exists m, entities w' !! (next_entity w + j)%nat = Some m /\
                 forall k, m !! k = weapon_component (chain_weapon c) k).
Proof.
  intros Hw Hok Hf. rewrite startup_chains by done. split; [done|]. cbn [snd].
  rewrite apply_commands_insert_resource.
  destruct (spawn_all_apply w (map chain_weapon chs) Hw) as (w1 & -> & _ & Hn & _ & Hold & Hnew).
  eexists. split_and!; [reflexivity | simpl; by rewrite Hn, length_map | done | exact Hold |].
  intros j c Hj. by apply Hnew, lookup_map_Some.
Qed.

(** C29: the [u32] bounds of the numbers of a whole script: when every
    number literal of the array's chains is an [i64] (so the script
    compiles) but some is not a [u32], startup (with the fuel of C28) logs
    nothing and fails with [IntegerOutOfRange] of the first such number in
    evaluation order (the chains from left to right, in each the id then
    the calls), and queues nothing: no weapon of the array is spawned, not
    even those of the chains before it. *)
Theorem script_startup_out_of_range fuel stderr_ok chs commands z :
  forallb is_i64 (chains_numbers chs) = true ->
  chains_first_bad chs = Some z -> (S (chains_fuel chs) <= fuel)%nat ->
  (startup_from fuel stderr_ok (chains_sources chs) commands).1 = ([], Err (EVm (IntegerOutOfRange z))) /\
  (startup_from fuel stderr_ok (chains_sources chs) commands).2 = commands.
Proof.
  intros Hi Hz Hf. unfold startup_from. rewrite chains_new by done. cbv beta iota.
  by rewrite (run_main_chains_bad fuel chs z).
Qed.


(** ** Witnesses *)

(** [[Weapon::new_wand(1).level(30).mana(100), Weapon::new_melee(2)]] *)
Definition two_chains : list Chain :=
  [MkChain Wand 1 [SetLevel 30; SetMana 100]; MkChain Melee 2 []].

Lemma script_startup_spawns_witness :
  (startup_from 5 true (chains_sources two_chains) (commands_of (@empty_world RuneContext))).1 = ([], Ok ()) /\
  exists w', apply_commands (startup_from 5 true (chains_sources two_chains)
                               (commands_of (@empty_world RuneContext))).2 (@empty_world RuneContext) = Some w' /\
    next_entity w' = (next_entity (@empty_world RuneContext) + length two_chains)%nat /\
    resource w' = Some (MkRuneContext weapon_fns (MkUnit [chains_main two_chains])) /\
    (forall e, (e < next_entity (@empty_world RuneContext))%nat ->
       entities w' !! e = entities (@empty_world RuneContext) !! e) /\
    (forall j c, two_chains !! j = Some c ->
       exists m, entities w' !! (next_entity (@empty_world RuneContext) + j)%nat = Some m /\
                 forall k, m !! k = weapon_component (chain_weapon c) k).
Proof.
  apply script_startup_spawns; [apply empty_world_wf | reflexivity | vm_compute; lia].
Defined.


(** The second chain's [mana] is [2^32]. *)
Definition bad_chains : list Chain :=
  [MkChain Wand 1 [SetLevel 30]; MkChain Distance 2 [SetMana (2 ^ 32); SetLevel (-1)]].

Lemma script_startup_out_of_range_witness :
  (startup_from 5 true (chains_sources bad_chains) (commands_of (@empty_world RuneContext))).1 =
    ([], Err (EVm (IntegerOutOfRange (2 ^ 32)))) /\
  (startup_from 5 true (chains_sources bad_chains) (commands_of (@empty_world RuneContext))).2 =
    commands_of (@empty_world RuneContext).
Proof.
  apply (script_startup_out_of_range 5 true bad_chains _ (2 ^ 32));
    [reflexivity | reflexivity | vm_compute; lia].
Defined.


