(* ===== verification/Schedule.v ===== *)
(** * Schedule: the Bevy [App] loop of main.rs (lines 10-17)

    [App::new().add_systems(Startup, startup.pipe(handle_error))
       .add_systems(Update, update).run()] runs the [Startup] schedule once
    (the system, its piped error handler, then the application of its
    command buffer) and then the [Update] schedule once per frame, forever
    ([MinimalPlugins] installs a loop with no exit condition).  The loop is
    the step relation [app_step] on configurations: the state of the app and
    what it has printed so far.  A failing startup does not stop the app:
    [handle_error] prints the error and the frames run on the unchanged
    world.  A panic while applying the commands stops the process.

    Theorems: a well-formed world never panics and the app always makes a
    step (it runs forever), and every weapon the script returns is printed,
    at its entity, in every frame from the first one on. *)

From stdpp Require Import strings.
From S2P Require Import Prelude Weapons Ecs Spawn Rune Bridge RuneContext App.

Local Open Scope nat_scope.

(** What the process prints: the startup's log, then the frames' reports. *)
Inductive Output :=
  | OutLog (ev : LogEvent)
  | OutReport (frame : nat) (r : Report).

Inductive AppState :=
  | AppInit (w : World RuneContext)
  | AppRunning (w : World RuneContext) (frames : nat)
  | AppPanicked.

Definition Config := (AppState * list Output)%type.

(** The [Startup] schedule on given sources ([run_startup] on
    [create_sources]). *)
Definition startup_schedule (fuel : nat) (stderr_ok : bool) (sources : Sources)
    (w : World RuneContext) : list LogEvent * option (World RuneContext) :=
  let '(log, r, commands) := startup_from fuel stderr_ok sources (commands_of w) in
  (log ++ handle_error r, apply_commands commands w).

(** The report of the entity [e] of weapon [wp], as [update] prints it. *)
Definition weapon_report (e : Entity) (wp : Weapon) : option Report :=
  match wand wp, melee wp, distance wp with
  | Some c, _, _ => Some (ReportWand e c)
  | None, Some c, _ => Some (ReportMelee e c (MkWeaponId (id wp)))
  | None, None, Some c => Some (ReportDistance e c)
  | None, None, None => None
  end.

(** The report of each kind [update]'s three loops print, entity by
    entity, for a world holding the weapons [ws] at entities [0, 1, ...]. *)
Definition wand_report (e : Entity) (wp : Weapon) : option Report := ReportWand e <$> wand wp.
Definition melee_report (e : Entity) (wp : Weapon) : option Report :=
  (fun c => ReportMelee e c (MkWeaponId (id wp))) <$> melee wp.
Definition distance_report (e : Entity) (wp : Weapon) : option Report :=
  ReportDistance e <$> distance wp.

Definition kind_reports (rep : Entity -> Weapon -> option Report) (ws : list Weapon) : list Report :=
  omap (fun e => ws !! e ≫= rep e) (seq 0 (length ws)).

Section Schedule.
Context (fuel : nat) (stderr_ok : bool) (sources : Sources).

Inductive app_step : Config -> Config -> Prop :=
  | step_startup w log w' out :
      startup_schedule fuel stderr_ok sources w = (log, Some w') ->
      app_step (AppInit w, out) (AppRunning w' 0, out ++ map OutLog log)
  | step_panic w log out :
      startup_schedule fuel stderr_ok sources w = (log, None) ->
      app_step (AppInit w, out) (AppPanicked, out ++ map OutLog log)
  | step_update w k out :
      app_step (AppRunning w k, out) (AppRunning w (S k), out ++ map (OutReport k) (update w)).

Definition app_reachable (w : World RuneContext) : Config -> Prop :=
  rtc app_step (AppInit w, []).

(** What [n] frames print on the world [w1]. *)
Definition frames_out (w1 : World RuneContext) (n : nat) : list Output :=
  concat (map (fun k => map (OutReport k) (update w1)) (seq 0 n)).

(** What every reachable configuration satisfies: the world after startup
    is the one the [Startup] schedule produced, and the output is exactly
    the startup's log followed by the frames run so far. *)
Definition app_inv (w : World RuneContext) (c : Config) : Prop :=
  match c with
  | (AppInit w0, out) => w0 = w /\ out = []
  | (AppRunning w1 n, out) =>
      exists log, startup_schedule fuel stderr_ok sources w = (log, Some w1) /\
                  out = map OutLog log ++ frames_out w1 n
  | (AppPanicked, out) =>
      exists log, startup_schedule fuel stderr_ok sources w = (log, None) /\ out = map OutLog log
  end.

Lemma frames_out_S w1 n : frames_out w1 (S n) = frames_out w1 n ++ map (OutReport n) (update w1).
Proof. unfold frames_out. by rewrite seq_S, map_app, concat_app; simpl; rewrite app_nil_r. Qed.

Lemma frames_out_elem w1 n k r : k < n -> r ∈ update w1 -> OutReport k r ∈ frames_out w1 n.
Proof.
  intros Hk Hr. unfold frames_out. apply list_elem_of_In, in_concat.
  exists (map (OutReport k) (update w1)). split.
  - apply (in_map (fun k => map (OutReport k) (update w1))), in_seq. lia.
  - apply list_elem_of_In. by apply list_elem_of_fmap_2.
Qed.

Lemma app_inv_step w c c' : app_inv w c -> app_step c c' -> app_inv w c'.
Proof.
  intros Hinv Hs. destruct Hs as [w0 log w' out Hst|w0 log out Hst|w1 k out]; simpl in *.
  - destruct Hinv as [-> ->]. exists log. split; [done|]. by rewrite app_nil_r.
  - destruct Hinv as [-> ->]. by exists log.
  - destruct Hinv as (log & Hst & ->). exists log. split; [done|].
    by rewrite frames_out_S, app_assoc.
Qed.

Lemma app_inv_reachable w c : app_reachable w c -> app_inv w c.
Proof.
  unfold app_reachable. revert c. apply rtc_ind_r; [by split|].
  intros c1 c2 _ Hs IH. by eapply app_inv_step.
Qed.

End Schedule.

(** ** Lemmas *)

(** A well-formed weapon has a marker, hence a report. *)
Lemma weapon_wf_marker wp :
  weapon_wf wp = true -> wand wp = None -> melee wp = None -> distance wp = None -> False.
Proof.
  unfold weapon_wf, variant_markers. intros Hwf Hw Hm Hd. by rewrite Hw, Hm, Hd in Hwf.
Qed.

(** The entity of a well-formed weapon, holding exactly its records, is
    printed by [update] under the report [weapon_report]. *)
Lemma weapon_report_reported (w : World RuneContext) e m wp :
  weapon_wf wp = true -> (e < next_entity w)%nat -> entities w !! e = Some m ->
  (forall k, m !! k = weapon_component wp k) ->
  exists r, weapon_report e wp = Some r /\ reported w r.
Proof.
  intros Hwf He Hm Hk. unfold weapon_report.
  destruct (wand wp) as [c|] eqn:Ew; [|destruct (melee wp) as [c|] eqn:Em;
    [|destruct (distance wp) as [c|] eqn:Ed; [|by destruct (weapon_wf_marker wp)]]].
  all: eexists; split; [reflexivity|]; split; [done|]; exists m; split; [done|].
  all: rewrite ?Hk; simpl; by rewrite ?Ew, ?Em, ?Ed.
Qed.

Lemma omap_omap {A B C} (f : A -> option B) (g : B -> option C) (l : list A) :
  omap g (omap f l) = omap (fun x => f x ≫= g) l.
Proof.
  induction l as [|x l IH]; simpl; [done|].
  destruct (f x) as [b|]; simpl; [destruct (g b); [f_equal|]|]; exact IH.
Qed.

Lemma omap_ext_in {A B} (f g : A -> option B) (l : list A) :
  (forall x, x ∈ l -> f x = g x) -> omap f l = omap g l.
Proof.
  induction l as [|x l IH]; intros Hfg; simpl; [done|].
  rewrite (Hfg x) by by left. destruct (g x); [f_equal|]; apply IH; intros y Hy; apply Hfg; by right.
Qed.

(** A world whose entities are exactly the weapons [ws], in order: the
    three loops of [update] print the wands, the melee weapons and the
    distance weapons, each group by entity. *)
Lemma update_materialized (w : World RuneContext) ws :
  next_entity w = length ws ->
  (forall i wp, ws !! i = Some wp ->
     exists m, entities w !! i = Some m /\ forall k, m !! k = weapon_component wp k) ->
  update w = kind_reports wand_report ws ++ kind_reports melee_report ws ++
             kind_reports distance_report ws.
Proof.
  intros Hn Hents. unfold update, query, kind_reports. rewrite Hn, !omap_omap.
  f_equal; [|f_equal]; apply omap_ext_in; intros e He; apply elem_of_seq in He;
    destruct (lookup_lt_is_Some_2 ws e) as [wp Hwp]; try lia; rewrite Hwp;
    destruct (Hents e wp Hwp) as (m & Hm & Hk); rewrite Hm; simpl; rewrite ?Hk;
    destruct wp as [i [[]|] [[]|] [[]|] lv ml mn dr bc]; reflexivity.
Qed.

Section ScheduleLemmas.
Context (fuel : nat) (stderr_ok : bool) (sources : Sources).

(** The [Startup] schedule never panics on a well-formed world. *)
Lemma startup_schedule_total w :
  world_wf w -> exists w', (startup_schedule fuel stderr_ok sources w).2 = Some w'.
Proof.
  intros Hw. unfold startup_schedule.
  destruct (startup_from fuel stderr_ok sources (commands_of w)) as [[log r] cmds] eqn:Hs. simpl.
  destruct r as [[]|e].
  - assert (Hok : (startup_from fuel stderr_ok sources (commands_of w)).1.2 = Ok ()) by (by rewrite Hs).
    destruct (startup_from_Ok _ _ _ _ Hok) as (ctx & ex & out & heap & ws & _ & _ & _ & _ & Hc).
    rewrite Hs in Hc. simpl in Hc. subst cmds. rewrite apply_commands_insert_resource.
    destruct (spawn_all_apply w ws Hw) as (w1 & -> & _). by eexists.
  - assert (Herr : (startup_from fuel stderr_ok sources (commands_of w)).1.2 = Err e) by (by rewrite Hs).
    pose proof (startup_from_Err _ _ _ _ _ Herr) as Hc. rewrite Hs in Hc. simpl in Hc. subst cmds.
    rewrite apply_commands_of. by eexists.
Qed.

(** The world after a successful [Startup] schedule: the weapons the
    script returned, at the entities from the allocator on, and the
    context as resource. *)
Lemma startup_schedule_world w ctx ws :
  world_wf w -> (script_run fuel stderr_ok sources).2 = Ok (ctx, ws) ->
  exists w1, (startup_schedule fuel stderr_ok sources w).2 = Some w1 /\
    next_entity w1 = (next_entity w + length ws)%nat /\ resource w1 = Some ctx /\
    forall i wp, ws !! i = Some wp ->
      exists m, entities w1 !! (next_entity w + i)%nat = Some m /\
                forall k, m !! k = weapon_component wp k.
Proof.
  intros Hw Hrun. unfold startup_schedule. rewrite startup_from_script_run.
  destruct (script_run fuel stderr_ok sources) as [log r]. simpl in Hrun. subst r. simpl.
  rewrite apply_commands_insert_resource.
  destruct (spawn_all_apply w ws Hw) as (w1 & -> & _ & Hn & _ & _ & Hnew1). simpl.
  eexists. split_and!; [reflexivity | done | done | exact Hnew1].
Qed.

(** After a successful startup, the entity of the [i]-th weapon the
    script returned is printed by [update]. *)
Lemma startup_schedule_reports w ctx ws :
  world_wf w -> (script_run fuel stderr_ok sources).2 = Ok (ctx, ws) ->
  exists w1, (startup_schedule fuel stderr_ok sources w).2 = Some w1 /\
    forall i wp, ws !! i = Some wp ->
      exists r, weapon_report (next_entity w + i) wp = Some r /\ r ∈ update w1.
Proof.
  intros Hw Hrun.
  destruct (script_run_Ok _ _ _ _ _ Hrun) as (ex & out & heap & Hnew & Hex & Hc & Hd).
  assert (Hwf : Forall (fun w => weapon_wf w = true) ws)
    by eauto using from_value_weapons_wf, complete_heap_wf, new_Ok_runtime.
  destruct (startup_schedule_world w ctx ws Hw Hrun) as (w1 & Hs & Hn & _ & Hnew1).
  exists w1. split; [done|]. intros i wp Hi.
  destruct (Hnew1 i wp Hi) as (m & Hm & Hk).
  assert (Hlt : (i < length ws)%nat) by (by eapply lookup_lt_Some).
  destruct (weapon_report_reported w1 (next_entity w + i) m wp) as (r & Hr & Hrep); try done.
  - rewrite Forall_lookup in Hwf. by apply (Hwf i).
  - lia.
  - exists r. split; [done|]. by apply update_reported.
Qed.

(** A failed startup: the [Startup] schedule logs the error after the
    startup's own log and leaves the world as it was. *)
Lemma startup_schedule_Err w e :
  (startup_from fuel stderr_ok sources (commands_of w)).1.2 = Err e ->
  startup_schedule fuel stderr_ok sources w =
    ((startup_from fuel stderr_ok sources (commands_of w)).1.1 ++ [LogError e], Some w).
Proof.
  intros He. pose proof (startup_from_Err _ _ _ _ _ He) as Hc. unfold startup_schedule.
  destruct (startup_from fuel stderr_ok sources (commands_of w)) as [[log r] cmds].
  simpl in *. subst r cmds. by rewrite apply_commands_of.
Qed.

End ScheduleLemmas.

(** ** Theorem *)

(** C17: the app runs forever and prints every weapon: started on a
    well-formed world, it never reaches the panicked state and every
    configuration it reaches has a successor; once a script has returned
    its weapons, each configuration with [n] frames has printed, in every
    frame [k < n], the report of the [i]-th weapon at entity
    [next_entity w + i]; and a configuration with one frame is reached. *)
Theorem app_runs_and_reports fuel stderr_ok sources w ctx ws :
  world_wf w -> (script_run fuel stderr_ok sources).2 = Ok (ctx, ws) ->
  (forall c, app_reachable fuel stderr_ok sources w c ->
     c.1 <> AppPanicked /\ exists c', app_step fuel stderr_ok sources c c') /\
  (exists w1 out, app_reachable fuel stderr_ok sources w (AppRunning w1 1, out)) /\
  (forall w1 n out, app_reachable fuel stderr_ok sources w (AppRunning w1 n, out) ->
     forall k i wp, (k < n)%nat -> ws !! i = Some wp ->
       exists r, weapon_report (next_entity w + i) wp = Some r /\ OutReport k r ∈ out).
Proof.
  intros Hw Hrun.
  destruct (startup_schedule_reports fuel stderr_ok sources w ctx ws Hw Hrun) as (w1 & Hst & Hrep).
  destruct (startup_schedule fuel stderr_ok sources w) as [log ow] eqn:Hs. simpl in Hst. subst ow.
  split_and!.
  - intros c Hc. apply app_inv_reachable in Hc. destruct c as [[w0|w2 n|] out]; simpl in Hc.
    + destruct Hc as [-> ->]. split; [done|]. eexists. by apply step_startup.
    + split; [done|]. eexists. apply step_update.
    + destruct Hc as (log' & Hs' & _). congruence.
  - exists w1, ([] ++ map OutLog log ++ map (OutReport 0) (update w1)).
    eapply rtc_l; [by apply step_startup|]. rewrite app_assoc.
    apply rtc_once, step_update.
  - intros w2 n out Hc k i wp Hk Hi. apply app_inv_reachable in Hc as (log' & Hs' & ->).
    rewrite Hs in Hs'. injection Hs' as <- <-.
    destruct (Hrep i wp Hi) as (r & Hr & Hin). exists r. split; [done|].
    apply elem_of_app. right. by apply frames_out_elem.
Qed.

(** C22: the order of what a frame prints: after the startup on an empty
    world, [update] prints all the wand reports, then all the melee
    reports, then all the distance reports (the three loops of main.rs
    50-62, in order); each group holds exactly the reports of the weapons of
    its kind, one per weapon, at the weapon's position in the script's
    array (the order inside a group is Bevy's query order, which the
    program does not fix, so it is stated up to permutation). *)
Theorem update_report_groups fuel stderr_ok sources ctx ws :
  (script_run fuel stderr_ok sources).2 = Ok (ctx, ws) ->
  exists w1, (startup_schedule fuel stderr_ok sources empty_world).2 = Some w1 /\
    exists l1 l2 l3, update w1 = l1 ++ l2 ++ l3 /\
      l1 ≡ₚ kind_reports wand_report ws /\ l2 ≡ₚ kind_reports melee_report ws /\
      l3 ≡ₚ kind_reports distance_report ws.
Proof.
  intros Hrun.
  destruct (startup_schedule_world fuel stderr_ok sources empty_world ctx ws empty_world_wf Hrun)
    as (w1 & Hs & Hn & _ & Hents).
  exists w1. split; [done|]. eexists _, _, _. split; [|done].
  apply update_materialized; [done|]. exact Hents.
Qed.

(** C27: log and continue (spec section 6): a failed startup does not stop
    the app; [handle_error] prints the error after the startup's own log
    (the diagnostics, if any), the frames then run forever on the world as
    it was, and everything printed afterwards is the frames' reports of
    that world. *)
Theorem app_failed_startup_continues fuel stderr_ok sources w e :
  (startup_from fuel stderr_ok sources (commands_of w)).1.2 = Err e ->
  (forall c, app_reachable fuel stderr_ok sources w c -> exists c', app_step fuel stderr_ok sources c c') /\
  forall w1 n out, app_reachable fuel stderr_ok sources w (AppRunning w1 n, out) ->
    w1 = w /\
    out = map OutLog ((startup_from fuel stderr_ok sources (commands_of w)).1.1 ++ [LogError e]) ++
          frames_out w n.
Proof.
  intros He. pose proof (startup_schedule_Err fuel stderr_ok sources w e He) as Hs. split.
  - intros c Hc. apply app_inv_reachable in Hc. destruct c as [[w0|w2 n|] out]; simpl in Hc.
    + destruct Hc as [-> ->]. eexists. by apply step_startup.
    + eexists. apply step_update.
    + destruct Hc as (log & Hs' & _). congruence.
  - intros w1 n out Hc. apply app_inv_reachable in Hc as (log & Hs' & ->).
    rewrite Hs in Hs'. by injection Hs' as -> ->.
Qed.

(** ** Witness *)

Lemma app_runs_and_reports_witness :
  (forall c, app_reachable startup_fuel true entry_sources empty_world c ->
     c.1 <> AppPanicked /\ exists c', app_step startup_fuel true entry_sources c c') /\
  (exists w1 out, app_reachable startup_fuel true entry_sources empty_world (AppRunning w1 1, out)) /\
  (forall w1 n out, app_reachable startup_fuel true entry_sources empty_world (AppRunning w1 n, out) ->
     forall k i wp, (k < n)%nat -> [staff_weapon; sword_weapon; spear_weapon] !! i = Some wp ->
       exists r, weapon_report (next_entity (@empty_world RuneContext) + i) wp = Some r /\
                 OutReport k r ∈ out).
Proof.
  apply (app_runs_and_reports startup_fuel true entry_sources empty_world
           (MkRuneContext weapon_fns entry_unit)); [apply empty_world_wf | apply entry_script_run].
Defined.

Lemma update_report_groups_witness :
  exists w1, (startup_schedule startup_fuel true entry_sources empty_world).2 = Some w1 /\
    exists l1 l2 l3, update w1 = l1 ++ l2 ++ l3 /\
      l1 ≡ₚ kind_reports wand_report [staff_weapon; sword_weapon; spear_weapon] /\
      l2 ≡ₚ kind_reports melee_report [staff_weapon; sword_weapon; spear_weapon] /\
      l3 ≡ₚ kind_reports distance_report [staff_weapon; sword_weapon; spear_weapon].
Proof.
  apply (update_report_groups startup_fuel true entry_sources (MkRuneContext weapon_fns entry_unit)).
  apply entry_script_run.
Defined.

Lemma app_failed_startup_continues_witness :
  (forall c, app_reachable startup_fuel true [MkSource "entry" None] empty_world c ->
     exists c', app_step startup_fuel true [MkSource "entry" None] c c') /\
  forall w1 n out, app_reachable startup_fuel true [MkSource "entry" None] empty_world (AppRunning w1 n, out) ->
    w1 = empty_world /\
    out = map OutLog ([LogDiagnostics [DError (ParseError "entry")]] ++ [LogError (EBuild BuildFailed)]) ++
          frames_out empty_world n.
Proof.
  apply (app_failed_startup_continues startup_fuel true [MkSource "entry" None] empty_world
           (EBuild BuildFailed)).
  reflexivity.
Defined.
